(** * GGUF container codec of mlx (mlx/io/gguf.cpp): a shallow embedding

    The development follows [src/mlx/io/gguf.cpp].  Bytes are integers in
    [0, 256); buffers are lists of bytes; C integers are [Z] with their
    wrap-around written out; [std::unordered_map] is stdpp's [gmap];
    the mutable container context [gguf_ctx*] is threaded by a small
    state-and-exception monad. *)

From Stdlib Require Import ZArith List String Ascii Lia Bool.
From stdpp Require Import base tactics option list gmap strings fin_maps.

Local Open Scope Z_scope.

(** ** Machine integers *)

Module Int.

(** [uint64_t] arithmetic wraps modulo 2^64. *)
Definition to_uint64 (z : Z) : Z := z mod 2 ^ 64.

(** [uint8_t] arithmetic wraps modulo 2^8. *)
Definition to_uint8 (z : Z) : Z := z mod 2 ^ 8.

(** Conversion to a 32-bit [int] (as in [static_cast<int>] and in
    [std::vector<int>::push_back] of a [uint64_t]). *)
Definition to_int (z : Z) : Z := (z + 2 ^ 31) mod 2 ^ 32 - 2 ^ 31.

(** Conversion of an [int] to [size_t]. *)
Definition to_size_t (z : Z) : Z := z mod 2 ^ 64.

End Int.

(** ** Raw memory *)

Module Mem.

(** Reading [n] bytes through a pointer whose addressable bytes are [p].
    Reading past the end is undefined in C++; here it reads zeros. *)
Definition read (n : nat) (p : list Z) : list Z :=
  take n (p ++ replicate n 0).

(** [p[k]]; past the end it reads zero, like [read]. *)
Definition index (p : list Z) (k : nat) : Z := default 0 (p !! k).

(** Pointer arithmetic [p + k]. *)
Definition advance (k : Z) (p : list Z) : list Z := drop (Z.to_nat k) p.

(** [memcpy(dst, src, n)] into the start of the block [dst]. *)
Definition memcpy (dst src : list Z) (n : Z) : list Z :=
  read (Z.to_nat n) src ++ drop (Z.to_nat n) dst.

(** Little-endian load of an [n]-byte unsigned integer. *)
Fixpoint le_decode (n : nat) (p : list Z) : Z :=
  match n with
  | O => 0
  | S n' =>
      match p with
      | [] => 0
      | b :: p' => b + 256 * le_decode n' p'
      end
  end.

(** Little-endian store of an [n]-byte unsigned integer. *)
Fixpoint le_encode (n : nat) (v : Z) : list Z :=
  match n with
  | O => []
  | S n' => v mod 256 :: le_encode n' (v / 256)
  end.

Definition byte_of_ascii (c : ascii) : Z := Z.of_N (N_of_ascii c).
Definition ascii_of_byte (b : Z) : ascii := ascii_of_N (Z.to_N b).

Definition bytes_of_string (s : string) : list Z :=
  map byte_of_ascii (list_ascii_of_string s).
Definition string_of_bytes (bs : list Z) : string :=
  string_of_list_ascii (map ascii_of_byte bs).

(** [std::string(ptr, n)]. *)
Definition std_string (p : list Z) (n : Z) : string :=
  string_of_bytes (read (Z.to_nat n) p).

End Mem.

(** ** Element types (mlx/dtype.h) *)

(** Modelled from the spec: the header mlx/dtype.h is not part of the
    sources at hand; the enumeration is the closed set of element types the
    spec names (section 3, "Dtype") and each carries the byte width its name
    states. *)
Inductive Dtype : Type :=
| bool_ | uint8 | uint16 | uint32 | uint64
| int8 | int16 | int32 | int64
| float16 | float32 | bfloat16 | complex64.

#[global] Instance Dtype_eq_dec : EqDecision Dtype.
Proof. solve_decision. Defined.

Definition size_of_dtype (d : Dtype) : Z :=
  match d with
  | bool_ | uint8 | int8 => 1
  | uint16 | int16 | float16 | bfloat16 => 2
  | uint32 | int32 | float32 => 4
  | uint64 | int64 | complex64 => 8
  end.

(** ** Tensors (mlx/array.h), as far as the codec looks at them *)

Record array : Type := mk_array {
  dtype : Dtype;
  shape : list Z;            (* host order *)
  data : list Z;             (* row-major bytes of the elements *)
  row_contiguous : bool      (* flags().row_contiguous *)
}.

Definition array_ndim (a : array) : Z := Z.of_nat (length (shape a)).
Definition array_size (a : array) : Z := foldr Z.mul 1 (shape a).
Definition array_itemsize (a : array) : Z := size_of_dtype (dtype a).
Definition array_nbytes (a : array) : Z := array_size a * array_itemsize a.

(** [array(buffer, shape, dtype)]: a tensor over a freshly filled buffer,
    of which it views the first [size * itemsize] bytes. *)
Definition array_of_buffer (buf : list Z) (sh : list Z) (d : Dtype) : array :=
  {| dtype := d; shape := sh;
     data := Mem.read (Z.to_nat (foldr Z.mul 1 sh * size_of_dtype d)) buf;
     row_contiguous := true |}.

(** [reshape(flatten(arr), arr.shape())]: the same elements in a row-major
    buffer. *)
Definition reshape_flatten (a : array) : array :=
  {| dtype := dtype a; shape := shape a; data := data a;
     row_contiguous := true |}.

(** [MetaData], the variant of gguf.cpp. *)
Inductive MetaData : Type :=
| monostate
| MetaArray (a : array)
| MetaString (s : string)
| MetaStrings (l : list string).

(** ** The container library (gguflib), as the codec uses it *)

(** Modelled from the spec: gguflib is an external C library and is not
    part of the sources at hand.  The model follows the three-section
    layout of section 6 of the spec: a metadata section of key/value
    records (kept as bytes, since the codec moves a byte cursor over it), a
    tensor-descriptor section and a tensor-data section whose entries start
    on alignment boundaries.  Writing to a file is taken to succeed. *)
Module Gguflib.

(** On-disk tensor type codes, [enum gguf_tensor_type]. *)
Definition GGUF_TYPE_F32 : Z := 0.
Definition GGUF_TYPE_F16 : Z := 1.
Definition GGUF_TYPE_Q4_0 : Z := 2.
Definition GGUF_TYPE_Q4_1 : Z := 3.
Definition GGUF_TYPE_Q8_0 : Z := 8.
Definition GGUF_TYPE_I8 : Z := 16.
Definition GGUF_TYPE_I16 : Z := 17.
Definition GGUF_TYPE_I32 : Z := 18.

(** Metadata value tags, [enum gguf_value_type]. *)
Inductive gguf_value_type : Type :=
| GGUF_VALUE_TYPE_UINT8 | GGUF_VALUE_TYPE_INT8
| GGUF_VALUE_TYPE_UINT16 | GGUF_VALUE_TYPE_INT16
| GGUF_VALUE_TYPE_UINT32 | GGUF_VALUE_TYPE_INT32
| GGUF_VALUE_TYPE_FLOAT32 | GGUF_VALUE_TYPE_BOOL
| GGUF_VALUE_TYPE_STRING | GGUF_VALUE_TYPE_ARRAY
| GGUF_VALUE_TYPE_UINT64 | GGUF_VALUE_TYPE_INT64
| GGUF_VALUE_TYPE_FLOAT64.

Definition value_type_code (t : gguf_value_type) : Z :=
  match t with
  | GGUF_VALUE_TYPE_UINT8 => 0 | GGUF_VALUE_TYPE_INT8 => 1
  | GGUF_VALUE_TYPE_UINT16 => 2 | GGUF_VALUE_TYPE_INT16 => 3
  | GGUF_VALUE_TYPE_UINT32 => 4 | GGUF_VALUE_TYPE_INT32 => 5
  | GGUF_VALUE_TYPE_FLOAT32 => 6 | GGUF_VALUE_TYPE_BOOL => 7
  | GGUF_VALUE_TYPE_STRING => 8 | GGUF_VALUE_TYPE_ARRAY => 9
  | GGUF_VALUE_TYPE_UINT64 => 10 | GGUF_VALUE_TYPE_INT64 => 11
  | GGUF_VALUE_TYPE_FLOAT64 => 12
  end.

(** The tag a [uint32_t] stands for; [None] is the [default:] of a
    switch over the enumerators. *)
Definition value_type_of_code (c : Z) : option gguf_value_type :=
  match c with
  | 0 => Some GGUF_VALUE_TYPE_UINT8 | 1 => Some GGUF_VALUE_TYPE_INT8
  | 2 => Some GGUF_VALUE_TYPE_UINT16 | 3 => Some GGUF_VALUE_TYPE_INT16
  | 4 => Some GGUF_VALUE_TYPE_UINT32 | 5 => Some GGUF_VALUE_TYPE_INT32
  | 6 => Some GGUF_VALUE_TYPE_FLOAT32 | 7 => Some GGUF_VALUE_TYPE_BOOL
  | 8 => Some GGUF_VALUE_TYPE_STRING | 9 => Some GGUF_VALUE_TYPE_ARRAY
  | 10 => Some GGUF_VALUE_TYPE_UINT64 | 11 => Some GGUF_VALUE_TYPE_INT64
  | 12 => Some GGUF_VALUE_TYPE_FLOAT64
  | _ => None
  end.

(** [sizeof(gguf_string)]: the 8-byte length prefix of a string. *)
Definition sizeof_gguf_string : Z := 8.

(** One record of the tensor-descriptor section. *)
Record tensor_info : Type := mk_tensor_info {
  ti_name : string;
  ti_dim : list Z;         (* file order, [num_dim] entries *)
  ti_type : Z;
  ti_offset : Z            (* relative to the tensor-data section *)
}.

Record gguf_file : Type := mk_gguf_file {
  kv_count : Z;
  kv_section : list Z;
  tensor_section : list tensor_info;
  data_section : list Z
}.

(** [gguf_ctx]: the open file and the cursor over it. *)
Record gguf_ctx : Type := mk_gguf_ctx {
  fd_open : bool;                      (* the handle is still open *)
  fd_path : string;
  contents : gguf_file;                (* what the file holds *)
  alignment : Z;
  off : Z;                             (* byte cursor, metadata section *)
  left_kv : Z;
  left_tensors : list tensor_info      (* descriptors not yet read *)
}.

Definition GGUF_DEFAULT_ALIGNMENT : Z := 32.

Definition set_off (o : Z) (c : gguf_ctx) : gguf_ctx :=
  {| fd_open := fd_open c; fd_path := fd_path c; contents := contents c;
     alignment := alignment c; off := o; left_kv := left_kv c;
     left_tensors := left_tensors c |}.

Definition set_contents (f : gguf_file) (c : gguf_ctx) : gguf_ctx :=
  {| fd_open := fd_open c; fd_path := fd_path c; contents := f;
     alignment := alignment c; off := off c; left_kv := left_kv c;
     left_tensors := left_tensors c |}.

(** [gguf_key], as filled by [gguf_get_key]. *)
Record gguf_key : Type := mk_gguf_key {
  key_name : list Z;
  key_namelen : Z;
  key_type : Z;
  key_val : list Z         (* the bytes [val] points at *)
}.

(** [gguf_tensor], as filled by [gguf_get_tensor]. *)
Record gguf_tensor : Type := mk_gguf_tensor {
  name : string;           (* name, namelen *)
  type : Z;
  ndim : Z;
  dim : list Z;
  offset : Z;
  bsize : Z;
  num_weights : Z;
  weights_data : list Z    (* the bytes [weights_data] points at *)
}.

(** Items per block and bytes per block of a tensor type. *)
Definition type_features (t : Z) : Z * Z :=
  match t with
  | 0 => (1, 4) | 1 => (1, 2)
  | 2 => (32, 18) | 3 => (32, 20)
  | 6 => (32, 22) | 7 => (32, 24)
  | 8 => (32, 34) | 9 => (32, 40)
  | 10 => (256, 82) | 11 => (256, 110) | 12 => (256, 144)
  | 13 => (256, 176) | 14 => (256, 210) | 15 => (256, 292)
  | 16 => (1, 1) | 17 => (1, 2) | 18 => (1, 4)
  | _ => (0, 0)
  end.

Definition tensor_bsize (t : Z) (n : Z) : Z :=
  let '(items, bytes) := type_features t in
  (n + items - 1) / items * bytes.

Definition gguf_get_alignment_padding (alignment offset : Z) : Z :=
  (alignment - offset mod alignment) mod alignment.

Definition gguf_open (fs : gmap string gguf_file) (path : string)
  : option gguf_ctx :=
  f ← fs !! path;
  Some {| fd_open := true; fd_path := path; contents := f;
          alignment := GGUF_DEFAULT_ALIGNMENT; off := 0;
          left_kv := kv_count f; left_tensors := tensor_section f |}.

(** [gguf_create(path, GGUF_OVERWRITE)]. *)
Definition gguf_create (path : string) : option gguf_ctx :=
  let f := {| kv_count := 0; kv_section := []; tensor_section := [];
              data_section := [] |} in
  Some {| fd_open := true; fd_path := path; contents := f;
          alignment := GGUF_DEFAULT_ALIGNMENT; off := 0;
          left_kv := 0; left_tensors := [] |}.

Definition gguf_close (c : gguf_ctx) : gguf_ctx :=
  {| fd_open := false; fd_path := fd_path c; contents := contents c;
     alignment := alignment c; off := off c; left_kv := left_kv c;
     left_tensors := left_tensors c |}.

(** Reads the key at the cursor and leaves the cursor on its value. *)
Definition gguf_get_key (c : gguf_ctx) : option gguf_key * gguf_ctx :=
  if left_kv c =? 0 then (None, c)
  else
    let p := Mem.advance (off c) (kv_section (contents c)) in
    let namelen := Mem.le_decode 8 p in
    let o := Int.to_uint64 (off c + (8 + namelen + 4)) in
    let c' :=
      {| fd_open := fd_open c; fd_path := fd_path c;
         contents := contents c; alignment := alignment c; off := o;
         left_kv := left_kv c - 1; left_tensors := left_tensors c |} in
    (Some {| key_name := Mem.read (Z.to_nat namelen) (Mem.advance 8 p);
             key_namelen := namelen;
             key_type := Mem.le_decode 4 (Mem.advance (8 + namelen) p);
             key_val := Mem.advance o (kv_section (contents c)) |}, c').

(** The tensor a descriptor stands for, given the tensor-data section. *)
Definition tensor_of_info (data : list Z) (ti : tensor_info) : gguf_tensor :=
  let n := foldr Z.mul 1 (ti_dim ti) in
  {| name := ti_name ti; type := ti_type ti;
     ndim := Z.of_nat (length (ti_dim ti)); dim := ti_dim ti;
     offset := ti_offset ti;
     bsize := tensor_bsize (ti_type ti) n; num_weights := n;
     weights_data := Mem.advance (ti_offset ti) data |}.

Definition set_left_tensors (tis : list tensor_info) (c : gguf_ctx)
  : gguf_ctx :=
  {| fd_open := fd_open c; fd_path := fd_path c; contents := contents c;
     alignment := alignment c; off := off c; left_kv := left_kv c;
     left_tensors := tis |}.

(** Reads the next descriptor; nothing is returned while metadata keys
    are left unread. *)
Definition gguf_get_tensor (c : gguf_ctx) : option gguf_tensor * gguf_ctx :=
  if negb (left_kv c =? 0) then (None, c)
  else
    match left_tensors c with
    | [] => (None, c)
    | ti :: rest =>
        (Some (tensor_of_info (data_section (contents c)) ti),
         set_left_tensors rest c)
    end.

(** Appends one key/value record; [val] holds [len] bytes. *)
Definition gguf_append_kv (key : string) (keylen : Z) (ty : Z)
    (val : list Z) (len : Z) (c : gguf_ctx) : bool * gguf_ctx :=
  let f := contents c in
  let record :=
    Mem.le_encode 8 keylen ++ Mem.read (Z.to_nat keylen) (Mem.bytes_of_string key)
    ++ Mem.le_encode 4 ty ++ Mem.read (Z.to_nat len) val in
  (true,
   set_contents {| kv_count := kv_count f + 1;
                   kv_section := kv_section f ++ record;
                   tensor_section := tensor_section f;
                   data_section := data_section f |} c).

Definition gguf_append_tensor_info (tensorname : string) (namelen : Z)
    (num_dim : Z) (dims : list Z) (ty : Z) (offset : Z) (c : gguf_ctx)
  : bool * gguf_ctx :=
  let f := contents c in
  let ti := {| ti_name := Mem.std_string (Mem.bytes_of_string tensorname) namelen;
               ti_dim := take (Z.to_nat num_dim) dims;
               ti_type := ty; ti_offset := offset |} in
  (true,
   set_contents {| kv_count := kv_count f; kv_section := kv_section f;
                   tensor_section := tensor_section f ++ [ti];
                   data_section := data_section f |} c).

(** Pads the data section to the alignment boundary, then appends the
    tensor bytes. *)
Definition gguf_append_tensor_data (tensor : list Z) (tensor_size : Z)
    (c : gguf_ctx) : bool * gguf_ctx :=
  let f := contents c in
  let padding :=
    gguf_get_alignment_padding (alignment c)
      (Z.of_nat (length (data_section f))) in
  (true,
   set_contents {| kv_count := kv_count f; kv_section := kv_section f;
                   tensor_section := tensor_section f;
                   data_section :=
                     data_section f ++ replicate (Z.to_nat padding) 0
                     ++ Mem.read (Z.to_nat tensor_size) tensor |} c).

End Gguflib.

Import Gguflib.

(** ** Exceptions and the context monad *)

Inductive exception_class : Type :=
| runtime_error | invalid_argument | length_error.

(** What is streamed into the message of an exception. *)
Inductive msg_piece : Type :=
| Text (s : string)
| ShowDtype (d : Dtype)
| ShowInt (z : Z).

Record exn : Type := mk_exn {
  exn_class : exception_class;
  what : list msg_piece
}.

(** The result of running a piece of the codec.  [OutOfFuel] is the
    result of a loop that was not given enough iterations; the entry points
    are shown never to produce it.  [Undefined] is the result of a piece
    that runs into behaviour C++ leaves undefined (an index out of range, a
    write past the end of a buffer): nothing is known of the program from
    there on. *)
Inductive outcome (A : Type) : Type :=
| Ok (a : A)
| Throw (e : exn)
| OutOfFuel
| Undefined.
Arguments Ok {A} a.
Arguments Throw {A} e.
Arguments OutOfFuel {A}.
Arguments Undefined {A}.

(** Code that works on an open [gguf_ctx*]: it may move the cursor, append
    to the file, close the handle, and it may throw.  A thrown exception
    leaves the context as it was when the exception was raised. *)
Definition M (A : Type) : Type := gguf_ctx → outcome A * gguf_ctx.

#[global] Instance M_ret : MRet M := λ A (a : A) c, (Ok a, c).
#[global] Instance M_bind : MBind M := λ A B (k : A → M B) (m : M A) c,
  match m c with
  | (Ok a, c') => k a c'
  | (Throw e, c') => (Throw e, c')
  | (OutOfFuel, c') => (OutOfFuel, c')
  | (Undefined, c') => (Undefined, c')
  end.

Definition throw {A : Type} (cls : exception_class) (msg : list msg_piece)
  : M A := λ c, (Throw (mk_exn cls msg), c).

(** Functions that only throw: no context involved. *)
Definition pure_bind {A B : Type} (r : outcome A) (k : A → outcome B)
  : outcome B :=
  match r with
  | Ok a => k a
  | Throw e => Throw e
  | OutOfFuel => OutOfFuel
  | Undefined => Undefined
  end.

Definition lift {A : Type} (r : outcome A) : M A := λ c, (r, c).

(** A library call that reports through its return value. *)
Definition call {A : Type} (f : gguf_ctx → A * gguf_ctx) : M A :=
  λ c, let '(a, c') := f c in (Ok a, c').

Definition get_ctx : M gguf_ctx := λ c, (Ok c, c).

Definition undefined {A : Type} : M A := λ c, (Undefined, c).

(** [a->insert({k, v})]: an existing entry is kept. *)
Definition unordered_map_insert {V : Type} (k : string) (v : V)
    (m : gmap string V) : gmap string V :=
  match m !! k with
  | Some _ => m
  | None => <[k := v]> m
  end.

(** ** DtypeMapper *)

(** https://github.com/antirez/gguf-tools, gguflib.h *)
Definition gguf_array_header_size : Z := 12.

Definition dtype_to_gguf_tensor_type (d : Dtype) : option Z :=
  match d with
  | float32 => Some GGUF_TYPE_F32
  | float16 => Some GGUF_TYPE_F16
  | int8 => Some GGUF_TYPE_I8
  | int16 => Some GGUF_TYPE_I16
  | int32 => Some GGUF_TYPE_I32
  | _ => None
  end.

Definition gguf_type_to_dtype (gguf_type : Z) : option Dtype :=
  if gguf_type =? GGUF_TYPE_F32 then Some float32
  else if gguf_type =? GGUF_TYPE_F16 then Some float16
  else if gguf_type =? GGUF_TYPE_I8 then Some int8
  else if gguf_type =? GGUF_TYPE_I16 then Some int16
  else if gguf_type =? GGUF_TYPE_I32 then Some int32
  else None.

(** The loop of [get_shape]: [i] indices are left to visit, from [i - 1]
    down to [0]; each [uint64_t] is pushed into a [std::vector<int>]. *)
Fixpoint get_shape_from (i : nat) (tensor_dim : list Z) : list Z :=
  match i with
  | O => []
  | S i' => Int.to_int (Mem.index tensor_dim i') :: get_shape_from i' tensor_dim
  end.

(** The dimension order in GGML is the reverse of the order used in MLX. *)
Definition get_shape (tensor : gguf_tensor) : list Z :=
  get_shape_from (Z.to_nat (ndim tensor)) (dim tensor).

(** [shape[shape.size() - 1]] of a shape that is not empty.  For an empty
    shape the index is out of range; the extractors, which alone use it,
    are [Undefined] there and do not get here. *)
Definition shape_back (sh : list Z) : Z :=
  Mem.index sh (Nat.pred (length sh)).

(** [shape[shape.size() - 1] = v]; for an empty shape nothing is written. *)
Definition set_shape_back (v : Z) (sh : list Z) : list Z :=
  <[Nat.pred (length sh) := v]> sh.

(** [name.substr(0, name.length() - suffix.length())]: the subtraction is
    on [size_t], so for a shorter name the count wraps and the whole name
    is returned. *)
Definition strip_suffix_len (name suffix : string) : string :=
  if (String.length suffix <=? String.length name)%nat
  then String.substring 0 (String.length name - String.length suffix) name
  else name.

Definition weight_suffix : string := ".weight".

(** [(name.length() > weight_len) &&
     (name.compare(name.length() - weight_len, weight_len, weight_suffix) == 0)] *)
Definition ends_with_weight (name : string) : bool :=
  let weight_len := String.length weight_suffix in
  (weight_len <? String.length name)%nat &&
  String.eqb
    (String.substring (String.length name - weight_len) weight_len name)
    weight_suffix.

(** ** Collaborators for the worked examples *)

(** An allocator that happens to return cleared memory. *)
Definition cleared_memory : nat → Z := λ _, 0.

(** An allocator that returns memory full of the byte 0xAA. *)
Definition dirty_memory : nat → Z := λ _, 170.

(** A conversion routine that fails. *)
Definition failing_to_f16 : gguf_tensor → option (list Z) := λ _, None.

(** Stand-ins for the floating-point operations: the examples do not
    depend on the values they produce. *)
Definition narrow_double : list Z → list Z := take 4.
Definition half_times : Z → Z → Z := λ k h, (k * h) mod 2 ^ 16.

(** A stand-in for the absent 4-bit extractor. *)
Definition skip_q4_0 (a : gmap string array) (t : gguf_tensor)
  : outcome (gmap string array) := Ok a.

(** ** The codec *)

Section Codec.

(** What the codec takes from its collaborators without looking inside. *)

(** Byte [k] of a block just returned by [allocator::malloc]: the
    allocator does not clear memory. *)
Variable uninitialized : nat → Z.

(** gguflib's [gguf_tensor_to_f16]: the converted half-precision data, or
    [NULL]. *)
Variable gguf_tensor_to_f16 : gguf_tensor → option (list Z).

(** Rounding of one IEEE double (8 bytes) to one float (4 bytes). *)
Variable double_to_float : list Z → list Z.

(** [k * h] for an [int] [k] and a half-precision value [h], rounded back
    to half precision; values are bit patterns. *)
Variable float16_times : Z → Z → Z.

(** The extractor for the 4-bit scheme without explicit bias is called by
    the tensor loop but not defined in the sources at hand. *)
Variable extract_q4_0_data :
  gmap string array → gguf_tensor → outcome (gmap string array).

Definition allocator_malloc (n : Z) : list Z :=
  map (λ k, Int.to_uint8 (uninitialized k)) (seq 0 (Z.to_nat n)).

Definition extract_tensor_data (tensor : gguf_tensor)
  : outcome (list Z * Dtype) :=
  match gguf_type_to_dtype (type tensor) with
  | Some equivalent_dtype =>
      (* If there's an equivalent type, we can simply copy. *)
      let buffer := allocator_malloc (bsize tensor) in
      let buffer :=
        Mem.memcpy buffer (weights_data tensor)
          (Int.to_uint64 (num_weights tensor * size_of_dtype equivalent_dtype)) in
      Ok (buffer, equivalent_dtype)
  | None =>
      (* Otherwise, we convert to float16. *)
      match gguf_tensor_to_f16 tensor with
      | None =>
          Throw (mk_exn runtime_error
                   [Text "[load_gguf] gguf_tensor_to_f16 failed"])
      | Some converted =>
          let new_size := Int.to_uint64 (num_weights tensor * 2) in
          let buffer := allocator_malloc new_size in
          let buffer := Mem.memcpy buffer converted new_size in
          Ok (buffer, float16)
      end
  end.

(** *** MetadataValueCodec, decoding *)

(** [array(v, dtype)]: a 0-dimensional tensor holding one element. *)
Definition scalar (d : Dtype) (bytes : list Z) : array :=
  {| dtype := d; shape := []; data := bytes; row_contiguous := true |}.

(** [array(ptr, {size}, dtype)] for a pointer to elements of the same
    width as [dtype]: [size] elements are copied. *)
Definition array_from_ptr (p : list Z) (sz : Z) (d : Dtype) : array :=
  {| dtype := d; shape := [sz];
     data := Mem.read (Z.to_nat (sz * size_of_dtype d)) p;
     row_contiguous := true |}.

Fixpoint elements (width n : nat) (p : list Z) : list (list Z) :=
  match n with
  | O => []
  | S n' => Mem.read width p :: elements width n' (drop width p)
  end.

(** [array(reinterpret_cast<double*>(data), {size}, float32)]: every
    element is converted. *)
Definition array_from_doubles (p : list Z) (sz : Z) : array :=
  {| dtype := float32; shape := [sz];
     data := concat (map double_to_float (elements 8 (Z.to_nat sz) p));
     row_contiguous := true |}.

Definition add_off (n : Z) : M unit :=
  λ c, (Ok tt, set_off (Int.to_uint64 (off c + n)) c).

(** [std::string(ptr, static_cast<int>(len))]: the [int] becomes the
    [size_t] count of the constructor, and a negative [int] becomes a count
    above [max_size()], for which the constructor throws
    [std::length_error]. *)
Definition std_string_int (p : list Z) (len : Z) : M string :=
  let n := Int.to_int len in
  if n <? 0 then throw length_error []
  else mret (Mem.std_string p (Int.to_size_t n)).

(** The loop over [strs] of the string-array case: [data] walks over the
    length-prefixed strings and the cursor follows. *)
Fixpoint read_strs (n : nat) (p : list Z) : M (list string) :=
  match n with
  | O => mret []
  | S n' =>
      let len := Mem.le_decode 8 p in
      let p' := Mem.advance (Int.to_uint64 (len + sizeof_gguf_string)) p in
      str ← std_string_int (Mem.advance sizeof_gguf_string p) len;
      _ ← add_off (Int.to_uint64 (len + sizeof_gguf_string));
      strs ← read_strs n' p';
      mret (str :: strs)
  end.

Definition set_mx_value_from_gguf (ty : Z) (val : list Z) : M MetaData :=
  value ←
    match value_type_of_code ty with
    | Some GGUF_VALUE_TYPE_UINT8 => mret (MetaArray (scalar uint8 (Mem.read 1 val)))
    | Some GGUF_VALUE_TYPE_INT8 => mret (MetaArray (scalar int8 (Mem.read 1 val)))
    | Some GGUF_VALUE_TYPE_UINT16 => mret (MetaArray (scalar uint16 (Mem.read 2 val)))
    | Some GGUF_VALUE_TYPE_INT16 => mret (MetaArray (scalar int16 (Mem.read 2 val)))
    | Some GGUF_VALUE_TYPE_UINT32 => mret (MetaArray (scalar uint32 (Mem.read 4 val)))
    | Some GGUF_VALUE_TYPE_INT32 => mret (MetaArray (scalar int32 (Mem.read 4 val)))
    | Some GGUF_VALUE_TYPE_UINT64 => mret (MetaArray (scalar uint64 (Mem.read 8 val)))
    | Some GGUF_VALUE_TYPE_INT64 => mret (MetaArray (scalar int64 (Mem.read 8 val)))
    | Some GGUF_VALUE_TYPE_FLOAT32 => mret (MetaArray (scalar float32 (Mem.read 4 val)))
    | Some GGUF_VALUE_TYPE_BOOL =>
        mret (MetaArray
                (scalar bool_ [if Mem.le_decode 1 val =? 0 then 0 else 1]))
    | Some GGUF_VALUE_TYPE_STRING =>
        str ← std_string_int (Mem.advance sizeof_gguf_string val)
                (Mem.le_decode 8 val);
        mret (MetaString str)
    | Some GGUF_VALUE_TYPE_FLOAT64 =>
        mret (MetaArray (scalar float32 (double_to_float (Mem.read 8 val))))
    | Some GGUF_VALUE_TYPE_ARRAY =>
        _ ← add_off gguf_array_header_size; (* Skip header *)
        let p := Mem.advance gguf_array_header_size val in
        let array_type := Mem.le_decode 4 val in
        let sz := Int.to_int (Mem.le_decode 8 (Mem.advance 4 val)) in
        if array_type =? value_type_code GGUF_VALUE_TYPE_ARRAY then
          throw invalid_argument
            [Text "[load_gguf] Only supports loading 1-layer of nested arrays."]
        else
          match value_type_of_code array_type with
          | Some GGUF_VALUE_TYPE_UINT8 => mret (MetaArray (array_from_ptr p sz uint8))
          | Some GGUF_VALUE_TYPE_INT8 => mret (MetaArray (array_from_ptr p sz int8))
          | Some GGUF_VALUE_TYPE_UINT16 => mret (MetaArray (array_from_ptr p sz uint16))
          | Some GGUF_VALUE_TYPE_INT16 => mret (MetaArray (array_from_ptr p sz int16))
          | Some GGUF_VALUE_TYPE_UINT32 => mret (MetaArray (array_from_ptr p sz uint32))
          | Some GGUF_VALUE_TYPE_INT32 => mret (MetaArray (array_from_ptr p sz int32))
          | Some GGUF_VALUE_TYPE_UINT64 => mret (MetaArray (array_from_ptr p sz uint64))
          | Some GGUF_VALUE_TYPE_INT64 => mret (MetaArray (array_from_ptr p sz int64))
          | Some GGUF_VALUE_TYPE_FLOAT32 => mret (MetaArray (array_from_ptr p sz float32))
          | Some GGUF_VALUE_TYPE_BOOL => mret (MetaArray (array_from_ptr p sz bool_))
          | Some GGUF_VALUE_TYPE_STRING =>
              (* [std::vector<std::string> strs(size)] *)
              if sz <? 0 then throw length_error []
              else
                strs ← read_strs (Z.to_nat sz) p;
                mret (MetaStrings strs)
          | Some GGUF_VALUE_TYPE_FLOAT64 => mret (MetaArray (array_from_doubles p sz))
          | _ =>
              throw runtime_error
                [Text "[load_gguf] Multiple levels of nested arrays are not supported."]
          end
    | None => throw runtime_error [Text "[load_gguf] Received unexpected type."]
    end;
  _ ←
    (if ty =? value_type_code GGUF_VALUE_TYPE_STRING then
       match value with
       | MetaString s =>
           add_off (Int.to_uint64
                      (sizeof_gguf_string + Z.of_nat (String.length s)))
       | _ => mret tt
       end
     else
       match value with
       | MetaArray pv => add_off (array_nbytes pv)
       | _ => mret tt
       end);
  mret value.

(** The loop of [load_metadata]; one unit of fuel per call of
    [gguf_get_key]. *)
Fixpoint load_metadata_loop (fuel : nat) (metadata : gmap string MetaData)
  : M (gmap string MetaData) :=
  match fuel with
  | O => λ c, (OutOfFuel, c)
  | S fuel' =>
      key ← call gguf_get_key;
      match key with
      | None => mret metadata
      | Some key =>
          let key_name := Mem.std_string (key_name key) (key_namelen key) in
          (* [val] refers to the entry of [key_name], fresh or not *)
          val ← set_mx_value_from_gguf (key_type key) (key_val key);
          load_metadata_loop fuel' (<[key_name := val]> metadata)
      end
  end.

Definition load_metadata : M (gmap string MetaData) :=
  λ c, load_metadata_loop (S (Z.to_nat (left_kv c))) ∅ c.

(** *** QuantizedBlockExtractor *)

(** Element [k] behind a [float16_t] pointer [p], as a bit pattern. *)
Definition load_f16 (p : list Z) (k : Z) : Z :=
  Mem.le_decode 2 (Mem.advance (2 * k) p).

(** Assignment of [h] to element [k] behind a [float16_t] pointer. *)
Definition store_f16 (buf : list Z) (k : Z) (h : Z) : list Z :=
  <[Z.to_nat (2 * k + 1) := h / 256 mod 256]>
    (<[Z.to_nat (2 * k) := h mod 256]> buf).

(** [for (int64_t j = 0; j < n; ++j) body]. *)
Definition for_range {S : Type} (n : nat) (body : S → Z → S) (s : S) : S :=
  foldl body s (Z.of_nat <$> seq 0 n).

(** First 16 weights are in the lower bits. *)
Definition q4_1_lower (block_data : list Z) (i : Z) (weigths : list Z)
    (j : Z) : list Z :=
  let x := Z.land (Mem.index block_data (Z.to_nat (j + 4))) 15 in
  let x := if negb (j mod 2 =? 0) then Int.to_uint8 (Z.shiftl x 4) else x in
  alter (λ w, Int.to_uint8 (w + x)) (Z.to_nat (i * 16 + j / 2)) weigths.

(** Last 16 weights are in the higher bits. *)
Definition q4_1_higher (block_data : list Z) (i : Z) (weigths : list Z)
    (j : Z) : list Z :=
  let x := Z.shiftr (Mem.index block_data (Z.to_nat (j + 4))) 4 in
  let x := if negb (j mod 2 =? 0) then Int.to_uint8 (Z.shiftl x 4) else x in
  alter (λ w, Int.to_uint8 (w + x)) (Z.to_nat (i * 16 + 8 + j / 2)) weigths.

(** The body of the block loop of [extract_q4_1_data], on
    [(weigths, scales, biases)]. *)
Definition q4_1_block (tensor_data : list Z)
    (bufs : list Z * list Z * list Z) (i : Z) : list Z * list Z * list Z :=
  let '(weigths, scales, biases) := bufs in
  let bytes_per_block := 20 in
  let block_data := Mem.advance (i * bytes_per_block) tensor_data in
  let scales := store_f16 scales i (load_f16 block_data 0) in
  let biases := store_f16 biases i (load_f16 block_data 1) in
  let weigths := for_range 16 (q4_1_lower block_data i) weigths in
  let weigths := for_range 16 (q4_1_higher block_data i) weigths in
  (weigths, scales, biases).

Definition incompatible_last_dim (name : string) (sh : list Z) : exn :=
  mk_exn runtime_error
    [Text "[load_gguf] tensor "; Text name;
     Text "has incompatible last dim shape: "; ShowInt (shape_back sh)].

(** The three [a->insert] at the end of both extractors. *)
Definition insert_quantized (a : gmap string array) (name : string)
    (sh : list Z) (weights_per_byte weights_per_block : Z)
    (weights_buffer scales_buffer biases_buffer : list Z)
  : gmap string array :=
  let weights_shape :=
    set_shape_back
      (Int.to_int (Int.to_uint64 (shape_back sh) / weights_per_byte / 4)) sh in
  let a :=
    unordered_map_insert name
      (array_of_buffer weights_buffer weights_shape uint32) a in
  let name_prefix := strip_suffix_len name weight_suffix in
  let scale_bias_shape :=
    set_shape_back
      (Int.to_int (Int.to_uint64 (shape_back sh) / weights_per_block)) sh in
  let scales_name := (name_prefix +:+ ".scales")%string in
  let a :=
    unordered_map_insert scales_name
      (array_of_buffer scales_buffer scale_bias_shape float16) a in
  let biases_name := (name_prefix +:+ ".biases")%string in
  unordered_map_insert biases_name
    (array_of_buffer biases_buffer scale_bias_shape float16) a.

(** Extracts (weight, scales, biases) from Q4_1 tensors. *)
Definition extract_q4_1_data (a : gmap string array) (tensor : gguf_tensor)
  : outcome (gmap string array) :=
  let sh := get_shape tensor in
  let weights_per_byte := 2 in
  let weights_per_block := 32 in
  (* [shape[shape.size() - 1]] is out of range for an empty shape *)
  if decide (sh = []) then Undefined
  else if negb (Int.to_uint64 (shape_back sh) mod weights_per_block =? 0) then
    Throw (incompatible_last_dim (name tensor) sh)
  else
    let num_blocks := num_weights tensor / weights_per_block in
    let weights_buffer :=
      allocator_malloc (num_weights tensor / weights_per_byte) in
    let scales_buffer := allocator_malloc (Int.to_uint64 (num_blocks * 2)) in
    let biases_buffer := allocator_malloc (Int.to_uint64 (num_blocks * 2)) in
    let '(weigths, scales, biases) :=
      for_range (Z.to_nat num_blocks) (q4_1_block (weights_data tensor))
        (weights_buffer, scales_buffer, biases_buffer) in
    Ok (insert_quantized a (name tensor) sh weights_per_byte
          weights_per_block weigths scales biases).

(** The inner loop of [extract_q8_0_data]. *)
Definition q8_0_weight (block_data : list Z) (i : Z) (weigths : list Z)
    (j : Z) : list Z :=
  let weights_per_block := 32 in
  let x := Mem.index block_data (Z.to_nat (j + 2)) in
  (* Original data is in int8_t, so we add a bias of -128 and invert the
     first bit. *)
  let x := Int.to_uint8 (Z.lxor x (Z.shiftl 1 7)) in
  <[Z.to_nat (i * weights_per_block + j) := x]> weigths.

Definition q8_0_block (tensor_data : list Z)
    (bufs : list Z * list Z * list Z) (i : Z) : list Z * list Z * list Z :=
  let '(weigths, scales, biases) := bufs in
  let bytes_per_block := 34 in
  let block_data := Mem.advance (i * bytes_per_block) tensor_data in
  let scales := store_f16 scales i (load_f16 block_data 0) in
  let biases := store_f16 biases i (float16_times (-128) (load_f16 scales i)) in
  let weigths := for_range 32 (q8_0_weight block_data i) weigths in
  (weigths, scales, biases).

(** Extracts (weight, scales, biases) from Q8_0 tensors. *)
Definition extract_q8_0_data (a : gmap string array) (tensor : gguf_tensor)
  : outcome (gmap string array) :=
  let sh := get_shape tensor in
  let weights_per_byte := 1 in
  let weights_per_block := 32 in
  (* [shape[shape.size() - 1]] is out of range for an empty shape *)
  if decide (sh = []) then Undefined
  else if negb (Int.to_uint64 (shape_back sh) mod weights_per_block =? 0) then
    Throw (incompatible_last_dim (name tensor) sh)
  else
    let num_blocks := num_weights tensor / weights_per_block in
    let weights_buffer :=
      allocator_malloc (num_weights tensor / weights_per_byte) in
    let scales_buffer := allocator_malloc (Int.to_uint64 (num_blocks * 2)) in
    let biases_buffer := allocator_malloc (Int.to_uint64 (num_blocks * 2)) in
    let '(weigths, scales, biases) :=
      for_range (Z.to_nat num_blocks) (q8_0_block (weights_data tensor))
        (weights_buffer, scales_buffer, biases_buffer) in
    Ok (insert_quantized a (name tensor) sh weights_per_byte
          weights_per_block weigths scales biases).

(** *** ContainerReader *)

(** Where the tensor loop sends a tensor. *)
Inductive route : Type :=
| ToQ4_0 | ToQ4_1 | ToQ8_0 | ToTensorData.

Definition dispatch (tensor : gguf_tensor) : route :=
  let ends := ends_with_weight (name tensor) in
  if ends && (type tensor =? GGUF_TYPE_Q4_0) then ToQ4_0
  else if ends && (type tensor =? GGUF_TYPE_Q4_1) then ToQ4_1
  else if ends && (type tensor =? GGUF_TYPE_Q8_0) then ToQ8_0
  else ToTensorData.

(** The body of the tensor loop. *)
Definition load_tensor (array_map : gmap string array) (tensor : gguf_tensor)
  : outcome (gmap string array) :=
  match dispatch tensor with
  | ToQ4_0 => extract_q4_0_data array_map tensor
  | ToQ4_1 => extract_q4_1_data array_map tensor
  | ToQ8_0 => extract_q8_0_data array_map tensor
  | ToTensorData =>
      pure_bind (extract_tensor_data tensor) (λ '(buffer, d),
        let loaded_array := array_of_buffer buffer (get_shape tensor) d in
        Ok (unordered_map_insert (name tensor) loaded_array array_map))
  end.

(** The tensor loop; one unit of fuel per call of [gguf_get_tensor].  The
    sources at hand are an unfinished merge that declares and returns the
    map as [array_map] and fills it as [result]; they are one map here. *)
Fixpoint load_arrays_loop (fuel : nat) (array_map : gmap string array)
  : M (gmap string array) :=
  match fuel with
  | O => λ c, (OutOfFuel, c)
  | S fuel' =>
      tensor ← call gguf_get_tensor;
      match tensor with
      | None => mret array_map
      | Some tensor =>
          array_map ← lift (load_tensor array_map tensor);
          load_arrays_loop fuel' array_map
      end
  end.

Definition load_arrays : M (gmap string array) :=
  λ c, load_arrays_loop (S (length (left_tensors c))) ∅ c.

Definition close : M unit := λ c, (Ok tt, gguf_close c).

(** [load_gguf]: the result, and the context the call opened (if any) as
    the call leaves it. *)
Definition load_gguf (fs : gmap string gguf_file) (file : string)
  : outcome (gmap string array * gmap string MetaData) * option gguf_ctx :=
  match gguf_open fs file with
  | None =>
      (Throw (mk_exn runtime_error [Text "[load_gguf] gguf_init failed"]),
       None)
  | Some ctx =>
      let '(r, ctx') :=
        (metadata ← load_metadata;
         arrays ← load_arrays;
         _ ← close;
         mret (arrays, metadata)) ctx in
      (r, Some ctx')
  end.

(** *** MetadataValueCodec, encoding, and ContainerWriter *)

Definition string_length (s : string) : Z := Z.of_nat (String.length s).

(** The lambda [string_to_gguf]: the length, then the characters. *)
Definition string_to_gguf (src : string) : list Z :=
  Mem.le_encode 8 (string_length src) ++ Mem.bytes_of_string src.

(** A [std::vector<char>] of [n] bytes whose leading bytes were filled
    with [filled]; the rest keeps the zeros of its construction. *)
Definition val_vec (n : Z) (filled : list Z) : list Z :=
  Mem.read (Z.to_nat n) filled.

Definition append_kv (key : string) (ty : gguf_value_type) (val : list Z)
    (len : Z) : M unit :=
  _ ← call (gguf_append_kv key (string_length key) (value_type_code ty) val len);
  mret tt.

Definition append_kv_array (key : string) (val : array)
    (gguf_type : gguf_value_type) : M unit :=
  if array_ndim val =? 1 then
    let gguf_size := Int.to_uint64 (array_nbytes val + gguf_array_header_size) in
    let v :=
      val_vec gguf_size
        (Mem.le_encode 4 (value_type_code gguf_type)
         ++ Mem.le_encode 8 (array_size val)
         ++ Mem.read (Z.to_nat (array_nbytes val)) (data val)) in
    append_kv key GGUF_VALUE_TYPE_ARRAY v gguf_size
  else
    append_kv key gguf_type (data val) (array_nbytes val).

(** [std::accumulate(begin, end, 0, ...)]: the accumulator is an [int]. *)
Definition accumulate_sizes (str_vec : list string) : Z :=
  foldl (λ accum s, Int.to_int (Int.to_size_t accum + string_length s)) 0
    str_vec.

(** The body of the loop "Save any meta data". *)
Definition save_metadata_entry (key : string) (value : MetaData) : M unit :=
  match value with
  | MetaString str =>
      let sz := Int.to_uint64 (sizeof_gguf_string + string_length str) in
      append_kv key GGUF_VALUE_TYPE_STRING
        (val_vec sz (string_to_gguf str)) sz
  | MetaStrings str_vec =>
      let mem_size := accumulate_sizes str_vec in
      let mem_size :=
        Int.to_int
          (Int.to_size_t mem_size
           + Z.of_nat (length str_vec) * sizeof_gguf_string
           + gguf_array_header_size) in
      let written :=
        Mem.le_encode 4 (value_type_code GGUF_VALUE_TYPE_STRING)
        ++ Mem.le_encode 8 (Z.of_nat (length str_vec))
        ++ concat (string_to_gguf <$> str_vec) in
      (* [std::vector<char> val_vec(mem_size)]: the [int] becomes the
         [size_t] count of the constructor, which throws for a negative
         one; an [int] that wrapped to a smaller count gives a buffer the
         writes below run past *)
      if mem_size <? 0 then throw length_error []
      else if mem_size <? Z.of_nat (length written) then undefined
      else
        let v := val_vec (Int.to_size_t mem_size) written in
        append_kv key GGUF_VALUE_TYPE_ARRAY v (Int.to_size_t mem_size)
  | MetaArray v =>
      if 1 <? array_ndim v then
        throw runtime_error
          [Text "[save_gguf] Cannot save arrays with more than one dimension."]
      else if array_size v =? 0 then
        throw runtime_error [Text "[save_gguf] Cannot save empty arrays."]
      else
        (* eval(v) *)
        let v := if negb (row_contiguous v) then reshape_flatten v else v in
        if negb (row_contiguous v) then
          throw runtime_error
            [Text "[save_gguf] Cannot save non contiguous arrays."]
        else
          match dtype v with
          | float32 => append_kv_array key v GGUF_VALUE_TYPE_FLOAT32
          | int64 => append_kv_array key v GGUF_VALUE_TYPE_INT64
          | int32 => append_kv_array key v GGUF_VALUE_TYPE_INT32
          | int16 => append_kv_array key v GGUF_VALUE_TYPE_INT16
          | int8 => append_kv_array key v GGUF_VALUE_TYPE_INT8
          | uint64 => append_kv_array key v GGUF_VALUE_TYPE_UINT64
          | uint32 => append_kv_array key v GGUF_VALUE_TYPE_UINT32
          | uint16 => append_kv_array key v GGUF_VALUE_TYPE_UINT16
          | uint8 => append_kv_array key v GGUF_VALUE_TYPE_UINT8
          | bool_ => append_kv_array key v GGUF_VALUE_TYPE_BOOL
          | _ =>
              throw invalid_argument
                [Text "[save_gguf] array type "; ShowDtype (dtype v);
                 Text " not support for metadata."]
          end
  | monostate =>
      throw runtime_error
        [Text "[save_gguf] Received unexpected type in metadata"]
  end.

Fixpoint save_metadata (metadata : list (string * MetaData)) : M unit :=
  match metadata with
  | [] => mret tt
  | (key, value) :: rest =>
      _ ← save_metadata_entry key value;
      save_metadata rest
  end.

(** [dim[i] = arr.shape()[num_dim - 1 - i]] for [i] in [0, num_dim). *)
Definition reversed_dims (sh : list Z) : list Z :=
  let num_dim := length sh in
  (λ i, Int.to_uint64 (Mem.index sh (num_dim - 1 - i))) <$> seq 0 num_dim.

(** The loop "First, append the tensor info" over the entries of
    [array_map], from the running [tensor_offset].  The loop assigns to the
    entries it visits, so it returns them as it leaves them. *)
Fixpoint append_tensor_infos (array_map : list (string * array))
    (tensor_offset : Z) : M (list (string * array)) :=
  match array_map with
  | [] => mret []
  | (key, arr) :: rest =>
      (* arr.eval(); try to make it row contiguous *)
      let arr := if negb (row_contiguous arr) then reshape_flatten arr else arr in
      (* Has to be row-major now but, check one more time *)
      if negb (row_contiguous arr) then
        throw invalid_argument
          [Text "[save_gguf] can only serialize row-major arrays"]
      else
        ctx ← get_ctx;
        let tensor_offset :=
          Int.to_uint64
            (tensor_offset
             + gguf_get_alignment_padding (alignment ctx) tensor_offset) in
        match dtype_to_gguf_tensor_type (dtype arr) with
        | None =>
            throw runtime_error
              [Text "[save_gguf] dtype "; ShowDtype (dtype arr);
               Text " is not supported"]
        | Some gguf_type =>
            let namelen := string_length key in
            let num_dim := array_ndim arr in
            let dims := reversed_dims (shape arr) in
            ok ← call (gguf_append_tensor_info key namelen num_dim dims
                         gguf_type tensor_offset);
            if negb ok then
              throw runtime_error
                [Text "[save_gguf] gguf_append_tensor_info failed"]
            else
              let tensor_offset :=
                Int.to_uint64 (tensor_offset + array_nbytes arr) in
              rest' ← append_tensor_infos rest tensor_offset;
              mret ((key, arr) :: rest')
        end
  end.

(** The loop "Then, append the tensor weights". *)
Fixpoint append_tensor_datas (array_map : list (string * array)) : M unit :=
  match array_map with
  | [] => mret tt
  | (key, arr) :: rest =>
      ok ← call (gguf_append_tensor_data (data arr) (array_nbytes arr));
      if negb ok then
        throw runtime_error
          [Text "[save_gguf] gguf_append_tensor_data failed"]
      else append_tensor_datas rest
  end.

(** Add .gguf to file name if it is not there. *)
Definition gguf_file_name (file : string) : string :=
  if (String.length file <? 5)%nat
     || negb (String.eqb (String.substring (String.length file - 5) 5 file)
                ".gguf")
  then (file +:+ ".gguf")%string
  else file.

(** [save_gguf]: the result, and the context the call created (if any) as
    the call leaves it; its [contents] are what the file holds. *)
Definition save_gguf (file : string) (array_map : gmap string array)
    (metadata : gmap string MetaData) : outcome unit * option gguf_ctx :=
  let file := gguf_file_name file in
  match gguf_create file with
  | None =>
      (Throw (mk_exn runtime_error [Text "[save_gguf] gguf_create failed"]),
       None)
  | Some ctx =>
      let '(r, ctx') :=
        (_ ← save_metadata (map_to_list metadata);
         (* Tensor offsets are relative to data section, so we start at
            offset 0. *)
         arrays ← append_tensor_infos (map_to_list array_map) 0;
         _ ← append_tensor_datas arrays;
         close) ctx in
      (r, Some ctx')
  end.

(** ** Predicates used in the statements *)

(** Dimension sizes as a tensor has them: non-negative [int]s. *)
Definition int_dims (sh : list Z) : Prop :=
  Forall (λ d, 0 ≤ d < 2 ^ 31) sh.

(** A descriptor of the 8-bit symmetric type whose name is the bare
    suffix. *)
Definition bare_weight_tensor : gguf_tensor :=
  {| name := ".weight"; type := GGUF_TYPE_Q8_0; ndim := 1; dim := [32];
     offset := 0; bsize := 34; num_weights := 32;
     weights_data := replicate 34 0 |}.

(** The dtype of the first entry the descriptor loop cannot map. *)
Fixpoint first_unsupported (array_map : list (string * array))
  : option Dtype :=
  match array_map with
  | [] => None
  | (_, arr) :: rest =>
      match dtype_to_gguf_tensor_type (dtype arr) with
      | None => Some (dtype arr)
      | Some _ => first_unsupported rest
      end
  end.

(** The exception of the descriptor loop for a dtype without type code. *)
Definition unsupported_dtype (d : Dtype) : exn :=
  mk_exn runtime_error
    [Text "[save_gguf] dtype "; ShowDtype d; Text " is not supported"].

(** [astype(arange(5), bool_)] under the key "test", as in the tests. *)
Definition bool_tensor_map : gmap string array :=
  {[ "test"%string :=
       {| dtype := bool_; shape := [5]; data := [0; 1; 1; 1; 1];
          row_contiguous := true |} ]}.

(** [x] rounded up to the next multiple of [alignment]. *)
Definition round_up (alignment x : Z) : Z :=
  (x + alignment - 1) / alignment * alignment.

(** The descriptors the descriptor loop appends for the entries [l] when
    the running offset is [start], in closed form and without wrap-around. *)
Fixpoint descriptors (alignment start : Z) (l : list (string * array))
  : list tensor_info :=
  match l with
  | [] => []
  | (key, arr) :: rest =>
      let o := round_up alignment start in
      {| ti_name := key; ti_dim := reverse (shape arr);
         ti_type := default 0 (dtype_to_gguf_tensor_type (dtype arr));
         ti_offset := o |}
      :: descriptors alignment (o + array_nbytes arr) rest
  end.

(** The running offset after the entries [l]. *)
Fixpoint data_extent (alignment start : Z) (l : list (string * array)) : Z :=
  match l with
  | [] => start
  | (_, arr) :: rest =>
      data_extent alignment (round_up alignment start + array_nbytes arr) rest
  end.

Definition add_tensors (tis : list tensor_info) (f : gguf_file) : gguf_file :=
  {| kv_count := kv_count f; kv_section := kv_section f;
     tensor_section := tensor_section f ++ tis;
     data_section := data_section f |}.

(** A tensor the writer accepts: its dtype has a type code and its
    dimensions are non-negative [int]s. *)
Definition writable (arr : array) : Prop :=
  is_Some (dtype_to_gguf_tensor_type (dtype arr)) ∧ int_dims (shape arr).

(** A context in create mode whose alignment is 8. *)
Definition ctx_alignment_8 : gguf_ctx :=
  {| fd_open := true; fd_path := "t.gguf";
     contents := {| kv_count := 0; kv_section := []; tensor_section := [];
                    data_section := [] |};
     alignment := 8; off := 0; left_kv := 0; left_tensors := [] |}.

(** Two tensors of 7 and of 5 bytes. *)
Definition tensors_7_5 : list (string * array) :=
  [("a"%string, {| dtype := int8; shape := [7]; data := replicate 7 1;
                   row_contiguous := true |});
   ("b"%string, {| dtype := int8; shape := [5]; data := replicate 5 2;
                   row_contiguous := true |})].

(** Width of a numeric scalar on disk. *)
Definition scalar_width (t : gguf_value_type) : option Z :=
  match t with
  | GGUF_VALUE_TYPE_UINT8 | GGUF_VALUE_TYPE_INT8 | GGUF_VALUE_TYPE_BOOL =>
      Some 1
  | GGUF_VALUE_TYPE_UINT16 | GGUF_VALUE_TYPE_INT16 => Some 2
  | GGUF_VALUE_TYPE_UINT32 | GGUF_VALUE_TYPE_INT32
  | GGUF_VALUE_TYPE_FLOAT32 => Some 4
  | GGUF_VALUE_TYPE_UINT64 | GGUF_VALUE_TYPE_INT64
  | GGUF_VALUE_TYPE_FLOAT64 => Some 8
  | GGUF_VALUE_TYPE_STRING | GGUF_VALUE_TYPE_ARRAY => None
  end.

(** Bytes taken by [n] length-prefixed strings stored from [p] on. *)
Fixpoint strings_disk_size (n : nat) (p : list Z) : Z :=
  match n with
  | O => 0
  | S n' =>
      let len := Mem.le_decode 8 p in
      sizeof_gguf_string + len
      + strings_disk_size n' (Mem.advance (len + sizeof_gguf_string) p)
  end.

(** Modelled from the spec: the number of bytes a metadata value of tag
    [ty] stored at [val] occupies on disk (sections 4.2 and 6): a numeric
    scalar its width; a string its 8-byte length and its characters; an
    array its 12-byte header (element tag and element count) and its
    elements.  [None] for a tag that is not a value tag and for an array of
    arrays. *)
Definition value_disk_size (ty : Z) (val : list Z) : option Z :=
  match value_type_of_code ty with
  | None => None
  | Some GGUF_VALUE_TYPE_STRING =>
      Some (sizeof_gguf_string + Mem.le_decode 8 val)
  | Some GGUF_VALUE_TYPE_ARRAY =>
      let len := Mem.le_decode 8 (Mem.advance 4 val) in
      match value_type_of_code (Mem.le_decode 4 val) with
      | None | Some GGUF_VALUE_TYPE_ARRAY => None
      | Some GGUF_VALUE_TYPE_STRING =>
          Some (gguf_array_header_size
                + strings_disk_size (Z.to_nat len)
                    (Mem.advance gguf_array_header_size val))
      | Some t => (λ w, gguf_array_header_size + len * w) <$> scalar_width t
      end
  | Some t => scalar_width t
  end.

(** One key/value record as it lies in the metadata section. *)
Definition kv_record (key : string) (ty : Z) (val : list Z) : list Z :=
  Mem.le_encode 8 (Z.of_nat (String.length key)) ++ Mem.bytes_of_string key
  ++ Mem.le_encode 4 ty ++ val.

(** The double 1.0, little-endian. *)
Definition double_one : list Z := [0; 0; 0; 0; 0; 0; 240; 63].

(** A file whose metadata are a float64 scalar "x" followed by a uint8
    scalar "y" of value 7. *)
Definition float64_scalar_file : gguf_file :=
  {| kv_count := 2;
     kv_section :=
       kv_record "x" (value_type_code GGUF_VALUE_TYPE_FLOAT64) double_one
       ++ kv_record "y" (value_type_code GGUF_VALUE_TYPE_UINT8) [7];
     tensor_section := []; data_section := [] |}.

(** A file whose only metadata value is a float64 array of two elements. *)
Definition float64_array_file : gguf_file :=
  {| kv_count := 1;
     kv_section :=
       kv_record "v" (value_type_code GGUF_VALUE_TYPE_ARRAY)
         (Mem.le_encode 4 (value_type_code GGUF_VALUE_TYPE_FLOAT64)
          ++ Mem.le_encode 8 2 ++ double_one ++ double_one);
     tensor_section := []; data_section := [] |}.

(** A file whose only metadata value is an array of arrays. *)
Definition nested_array_file : gguf_file :=
  {| kv_count := 1;
     kv_section :=
       kv_record "a" (value_type_code GGUF_VALUE_TYPE_ARRAY)
         (Mem.le_encode 4 (value_type_code GGUF_VALUE_TYPE_ARRAY)
          ++ Mem.le_encode 8 0);
     tensor_section := []; data_section := [] |}.

(** A context opened on the file [f]. *)
Definition opened (f : gguf_file) : gguf_ctx :=
  {| fd_open := true; fd_path := "m.gguf"; contents := f;
     alignment := GGUF_DEFAULT_ALIGNMENT; off := 0; left_kv := kv_count f;
     left_tensors := tensor_section f |}.

(** A file with one int32 tensor "w" of host shape [3, 2]. *)
Definition one_tensor_file : gguf_file :=
  {| kv_count := 0; kv_section := [];
     tensor_section :=
       [{| ti_name := "w"; ti_dim := [2; 3]; ti_type := GGUF_TYPE_I32;
           ti_offset := 0 |}];
     data_section := replicate 24 1 |}.




(** Buffers of bytes. *)
Definition bytes (p : list Z) : Prop := Forall (λ b, 0 ≤ b < 256) p.











(** One block of the 8-bit symmetric layout: the scale 1.0 and the codes
    0, 1, ..., 31. *)
Definition q8_0_tensor : gguf_tensor :=
  {| name := "l.weight"; type := GGUF_TYPE_Q8_0; ndim := 1; dim := [32];
     offset := 0; bsize := 34; num_weights := 32;
     weights_data := [0; 60] ++ seqZ 0 32 |}.

(** One block of the 4-bit layout with explicit bias: the scale 1.0, the
    bias 0.0 and sixteen bytes 0x21. *)
Definition q4_1_tensor : gguf_tensor :=
  {| name := "l.weight"; type := GGUF_TYPE_Q4_1; ndim := 1; dim := [32];
     offset := 0; bsize := 20; num_weights := 32;
     weights_data := [0; 60; 0; 0] ++ replicate 16 33 |}.

(** The tensor-data section the data loop builds on top of [sofar], in
    closed form. *)
Fixpoint data_layout (alignment : Z) (sofar : list Z)
    (l : list (string * array)) : list Z :=
  match l with
  | [] => sofar
  | (_, arr) :: rest =>
      let padding :=
        gguf_get_alignment_padding alignment (Z.of_nat (length sofar)) in
      data_layout alignment
        (sofar ++ replicate (Z.to_nat padding) 0
         ++ Mem.read (Z.to_nat (array_nbytes arr)) (data arr)) rest
  end.

Definition add_data (bs : list Z) (f : gguf_file) : gguf_file :=
  {| kv_count := kv_count f; kv_section := kv_section f;
     tensor_section := tensor_section f; data_section := bs |}.

(** A tensor whose buffer holds exactly its elements. *)
Definition well_formed (arr : array) : Prop :=
  int_dims (shape arr) ∧ length (data arr) = Z.to_nat (array_nbytes arr).

(** The map the tensor loop builds from the entries [l] on top of [acc]. *)
Definition loaded_map (l : list (string * array)) (acc : gmap string array)
  : gmap string array :=
  foldl (λ acc ka, unordered_map_insert ka.1 ka.2 acc) acc l.

(** The tensor map of the tests: [array({1.0f, 2.0f, 3.0f, 4.0f})] under
    "test" and [reshape(arange(6), {3, 2})] under "test2". *)
Definition original_weights : gmap string array :=
  <["test"%string :=
      {| dtype := float32; shape := [4];
         data := [0; 0; 128; 63; 0; 0; 0; 64; 0; 0; 64; 64; 0; 0; 128; 64];
         row_contiguous := true |}]>
    (<["test2"%string :=
         {| dtype := int32; shape := [3; 2];
            data := [0; 0; 0; 0; 1; 0; 0; 0; 2; 0; 0; 0;
                     3; 0; 0; 0; 4; 0; 0; 0; 5; 0; 0; 0];
            row_contiguous := true |}]> ∅).

(** Each of the [n] length-prefixed strings at [p] has a length that is
    not negative as an [int]. *)
Fixpoint string_lengths_fit (n : nat) (p : list Z) : bool :=
  match n with
  | O => true
  | S n' =>
      let len := Mem.le_decode 8 p in
      (0 <=? Int.to_int len)
      && string_lengths_fit n'
           (Mem.advance (Int.to_uint64 (len + sizeof_gguf_string)) p)
  end.

(** The element counts and string lengths of a value fit the [int] the
    decoder casts them to. *)
Definition int_counts (ty : Z) (val : list Z) : Prop :=
  (ty = value_type_code GGUF_VALUE_TYPE_STRING →
   Mem.le_decode 8 val < 2 ^ 31)
  ∧ (ty = value_type_code GGUF_VALUE_TYPE_ARRAY →
     Mem.le_decode 8 (Mem.advance 4 val) < 2 ^ 31)
  ∧ (ty = value_type_code GGUF_VALUE_TYPE_ARRAY →
     Mem.le_decode 4 val = value_type_code GGUF_VALUE_TYPE_STRING →
     string_lengths_fit (Z.to_nat (Mem.le_decode 8 (Mem.advance 4 val)))
       (Mem.advance gguf_array_header_size val) = true).

(** The value is neither a float64 scalar nor a float64 array. *)
Definition float64_free (ty : Z) (val : list Z) : Prop :=
  ty ≠ value_type_code GGUF_VALUE_TYPE_FLOAT64
  ∧ (ty = value_type_code GGUF_VALUE_TYPE_ARRAY →
     Mem.le_decode 4 val ≠ value_type_code GGUF_VALUE_TYPE_FLOAT64).

(** The first entry of [l] under the key [k]. *)
Fixpoint first_named {V : Type} (k : string) (l : list (string * V))
  : option V :=
  match l with
  | [] => None
  | (k', v) :: rest => if decide (k' = k) then Some v else first_named k rest
  end.




(** The value tag the metadata encoder uses for a tensor of dtype [d]. *)
Definition metadata_tag (d : Dtype) : option gguf_value_type :=
  match d with
  | float32 => Some GGUF_VALUE_TYPE_FLOAT32
  | int64 => Some GGUF_VALUE_TYPE_INT64
  | int32 => Some GGUF_VALUE_TYPE_INT32
  | int16 => Some GGUF_VALUE_TYPE_INT16
  | int8 => Some GGUF_VALUE_TYPE_INT8
  | uint64 => Some GGUF_VALUE_TYPE_UINT64
  | uint32 => Some GGUF_VALUE_TYPE_UINT32
  | uint16 => Some GGUF_VALUE_TYPE_UINT16
  | uint8 => Some GGUF_VALUE_TYPE_UINT8
  | bool_ => Some GGUF_VALUE_TYPE_BOOL
  | _ => None
  end.

(** The tag and the value bytes of the record [save_gguf] writes for a
    metadata value, in closed form. *)
Definition encoded_value (v : MetaData) : option (gguf_value_type * list Z) :=
  match v with
  | monostate => None
  | MetaString s => Some (GGUF_VALUE_TYPE_STRING, string_to_gguf s)
  | MetaStrings l =>
      Some (GGUF_VALUE_TYPE_ARRAY,
            Mem.le_encode 4 (value_type_code GGUF_VALUE_TYPE_STRING)
            ++ Mem.le_encode 8 (Z.of_nat (length l))
            ++ concat (string_to_gguf <$> l))
  | MetaArray a =>
      tag ← metadata_tag (dtype a);
      if array_ndim a =? 1 then
        Some (GGUF_VALUE_TYPE_ARRAY,
              Mem.le_encode 4 (value_type_code tag)
              ++ Mem.le_encode 8 (array_size a) ++ data a)
      else Some (tag, data a)
  end.

(** The bytes of the metadata section for the entries [l]. *)
Definition encoded_metadata (l : list (string * MetaData)) : list Z :=
  concat ((λ kv : string * MetaData,
             match encoded_value kv.2 with
             | Some (tag, bs) => kv_record kv.1 (value_type_code tag) bs
             | None => []
             end) <$> l).

(** A metadata value the encoder accepts and the decoder gives back: a
    string or strings whose encoding stays below 2^31 bytes, or a tensor of
    no or one dimension, not empty, of a dtype with a value tag, whose
    buffer holds exactly its elements (a bool scalar holds 0 or 1). *)
Definition encodable (v : MetaData) : Prop :=
  match v with
  | monostate => False
  | MetaString s => string_length s < 2 ^ 31
  | MetaStrings l =>
      Z.of_nat (length (concat (string_to_gguf <$> l)))
      + gguf_array_header_size < 2 ^ 31
  | MetaArray a =>
      (shape a = [] ∨ ∃ n, shape a = [n] ∧ 0 < n < 2 ^ 31)
      ∧ is_Some (metadata_tag (dtype a))
      ∧ length (data a) = Z.to_nat (array_nbytes a)
      ∧ (dtype a = bool_ → shape a = [] → data a = [0] ∨ data a = [1])
  end.

(** What comes back for a value: a tensor comes back as a row-contiguous
    copy. *)
Definition decoded (v : MetaData) : MetaData :=
  match v with
  | MetaArray a => MetaArray (reshape_flatten a)
  | _ => v
  end.

Definition add_kv (record : list Z) (f : gguf_file) : gguf_file :=
  {| kv_count := kv_count f + 1; kv_section := kv_section f ++ record;
     tensor_section := tensor_section f; data_section := data_section f |}.

(** The metadata map the key loop builds from the entries [l] on top of
    [acc]. *)
Definition loaded_metadata (l : list (string * MetaData))
    (acc : gmap string MetaData) : gmap string MetaData :=
  foldl (λ acc kv, <[kv.1 := kv.2]> acc) acc l.

(** The context once every metadata key was read: the cursor is at [o]
    and no key is left. *)
Definition keys_read (o : Z) (c : gguf_ctx) : gguf_ctx :=
  {| fd_open := fd_open c; fd_path := fd_path c; contents := contents c;
     alignment := alignment c; off := o; left_kv := 0;
     left_tensors := left_tensors c |}.

(** The last entry of [l] under the key [k]. *)
Definition last_named {V : Type} (k : string) (l : list (string * V))
  : option V :=
  first_named k (reverse l).

(** The bytes the encoding of a list of strings takes: the 12-byte array
    header and every string with its 8-byte length. *)
Definition strings_bytes (l : list string) : Z :=
  Z.of_nat (length (concat (string_to_gguf <$> l))) + gguf_array_header_size.

(** The [int] that sizes the buffer of a list of strings. *)
Definition strings_mem_size (l : list string) : Z :=
  Int.to_int
    (Int.to_size_t (accumulate_sizes l)
     + Z.of_nat (length l) * sizeof_gguf_string
     + gguf_array_header_size).

(** A metadata value the writer accepts: a string, a list of strings whose
    encoding fits an [int], or a tensor of at most one dimension that is
    not empty and whose dtype has a value tag. *)
Definition storable (v : MetaData) : Prop :=
  match v with
  | monostate => False
  | MetaArray a =>
      array_ndim a ≤ 1 ∧ array_size a ≠ 0
      ∧ dtype a ∉ [float16; bfloat16; complex64]
  | MetaString _ => True
  | MetaStrings l => strings_bytes l < 2 ^ 31
  end.

(** The metadata of the tests: the string "my string" under "test_str". *)
Definition original_metadata : gmap string MetaData :=
  {[ "test_str"%string := MetaString "my string" ]}.

(** Two records under one key, and a file whose metadata section holds
    them. *)
Definition twice_keyed : list (string * MetaData) :=
  [("k"%string, MetaString "a"); ("k"%string, MetaString "b")].

Definition twice_keyed_file : gguf_file :=
  {| kv_count := 2; kv_section := encoded_metadata twice_keyed;
     tensor_section := []; data_section := [] |}.

(** The value bytes of the string "my string". *)
Definition my_string_value : list Z := string_to_gguf "my string".




(** One int32 tensor "w" of host shape [3, 2]. *)
Definition tensors_3_2 : list (string * array) :=
  [("w"%string,
    {| dtype := int32; shape := [3; 2]; data := replicate 24 1;
       row_contiguous := true |})].

(** * Properties *)

(** ** Machine integers *)

Lemma index_Some (p : list Z) (k : nat) (x : Z) :
  p !! k = Some x → Mem.index p k = x.
Proof. unfold Mem.index. by intros ->. Qed.

Lemma to_uint64_small (z : Z) : 0 ≤ z < 2 ^ 64 → Int.to_uint64 z = z.
Proof. intros H. unfold Int.to_uint64. by rewrite Z.mod_small. Qed.

Lemma to_int_small (z : Z) : - 2 ^ 31 ≤ z < 2 ^ 31 → Int.to_int z = z.
Proof. intros H. unfold Int.to_int. rewrite Z.mod_small; lia. Qed.

Lemma to_int_to_uint64 (z : Z) :
  - 2 ^ 31 ≤ z < 2 ^ 31 → Int.to_int (Int.to_uint64 z) = z.
Proof.
  intros H. destruct (decide (0 ≤ z)) as [Hz|Hz].
  - rewrite to_uint64_small by lia. by apply to_int_small.
  - unfold Int.to_int, Int.to_uint64.
    replace (z mod 2 ^ 64) with (z + 2 ^ 64).
    + replace (z + 2 ^ 64 + 2 ^ 31) with (z + 2 ^ 31 + 2 ^ 32 * 2 ^ 32) by lia.
      rewrite Z.mod_add by lia. rewrite Z.mod_small; lia.
    + apply Z.mod_unique with (q := -1); lia.
Qed.

(** ** Shape order *)

Lemma get_shape_from_reverse (i : nat) (d : list Z) :
  (i ≤ length d)%nat →
  get_shape_from i d = Int.to_int <$> reverse (take i d).
Proof.
  induction i as [|i IH]; intros Hi; [done|].
  destruct (lookup_lt_is_Some_2 d i) as [x Hx]; [lia|].
  cbn [get_shape_from]. rewrite IH by lia.
  rewrite (take_S_r _ _ _ Hx), reverse_app. cbn.
  unfold Mem.index. by rewrite Hx.
Qed.

Lemma reversed_dims_reverse (sh : list Z) :
  reversed_dims sh = Int.to_uint64 <$> reverse sh.
Proof.
  unfold reversed_dims. apply list_eq. intros i.
  rewrite !list_lookup_fmap.
  destruct (decide (i < length sh)%nat) as [Hi|Hi].
  - rewrite lookup_seq_lt by done. cbn.
    rewrite reverse_lookup by done.
    destruct (lookup_lt_is_Some_2 sh (length sh - S i)) as [x Hx]; [lia|].
    rewrite Hx. cbn. f_equal. f_equal. unfold Mem.index.
    replace (length sh - 1 - i)%nat with (length sh - S i)%nat by lia.
    by rewrite Hx.
  - rewrite lookup_seq_ge by lia.
    rewrite (lookup_ge_None_2 (reverse sh)); [done|].
    rewrite length_reverse. lia.
Qed.

Lemma fmap_id_on {A} (f : A → A) (P : A → Prop) (l : list A) :
  (∀ x, P x → f x = x) → Forall P l → f <$> l = l.
Proof.
  intros Hf. induction 1 as [|x l Hx _ IH]; [done|].
  cbn. by rewrite Hf, IH.
Qed.

Lemma reversed_dims_int (sh : list Z) :
  int_dims sh → reversed_dims sh = reverse sh.
Proof.
  intros H. rewrite reversed_dims_reverse.
  apply fmap_id_on with (P := λ d, 0 ≤ d < 2 ^ 31).
  - intros x Hx. apply to_uint64_small. lia.
  - by apply Forall_reverse.
Qed.

Lemma get_shape_reversed (t : gguf_tensor) (sh : list Z) :
  int_dims sh →
  dim t = reverse sh → ndim t = Z.of_nat (length sh) →
  get_shape t = sh.
Proof.
  intros Hsh Hd Hn. unfold get_shape. rewrite Hd, Hn, Nat2Z.id.
  rewrite get_shape_from_reverse by (rewrite length_reverse; lia).
  rewrite take_ge by (rewrite length_reverse; lia).
  rewrite reverse_involutive.
  apply fmap_id_on with (P := λ d, 0 ≤ d < 2 ^ 31); [|done].
  intros x Hx. apply to_int_small. lia.
Qed.


(** ** Strings *)

Lemma string_app_nil (s : string) : ("" +:+ s)%string = s.
Proof. reflexivity. Qed.

Lemma string_app_cons (c : ascii) (p s : string) :
  (String c p +:+ s)%string = String c (p +:+ s).
Proof. reflexivity. Qed.

Lemma string_length_app (p s : string) :
  String.length (p +:+ s) = (String.length p + String.length s)%nat.
Proof.
  induction p as [|c p IH]; [done|].
  rewrite string_app_cons. simpl. by f_equal.
Qed.

Lemma substring_all (s : string) : String.substring 0 (String.length s) s = s.
Proof. induction s as [|c s IH]; simpl; [done|]. by f_equal. Qed.

Lemma substring_app_r (p s : string) :
  String.substring (String.length p) (String.length s) (p +:+ s) = s.
Proof.
  induction p as [|c p IH]; [apply substring_all|].
  rewrite string_app_cons. exact IH.
Qed.

Lemma substring_split (s : string) (n m : nat) :
  (n + m)%nat = String.length s →
  s = (String.substring 0 n s +:+ String.substring n m s)%string.
Proof.
  revert n. induction s as [|c s IH]; intros n H; cbn in H.
  - destruct n, m; try done.
  - destruct n as [|n]; simpl.
    + destruct m as [|m]; [done|]. rewrite string_app_nil. f_equal.
      replace m with (String.length s) by lia.
      symmetry. apply substring_all.
    + rewrite string_app_cons. f_equal. apply IH. lia.
Qed.


(** ** Dispatch of the tensor loop *)

Lemma dispatch_not_suffixed (t : gguf_tensor) :
  ends_with_weight (name t) = false → dispatch t = ToTensorData.
Proof. intros H. unfold dispatch. by rewrite H. Qed.

Lemma gguf_type_to_dtype_Some (ty : Z) (d : Dtype) :
  gguf_type_to_dtype ty = Some d →
  ty ≠ GGUF_TYPE_Q4_0 ∧ ty ≠ GGUF_TYPE_Q4_1 ∧ ty ≠ GGUF_TYPE_Q8_0
  ∧ dtype_to_gguf_tensor_type d = Some ty.
Proof.
  unfold gguf_type_to_dtype.
  repeat match goal with
         | |- context [ty =? ?c] =>
             destruct (Z.eqb_spec ty c) as [->|?];
             [intros [= <-]; repeat split; try reflexivity;
              intros H; vm_compute in H; discriminate|]
         end.
  discriminate.
Qed.

Lemma dispatch_mapped (t : gguf_tensor) (d : Dtype) :
  gguf_type_to_dtype (type t) = Some d → dispatch t = ToTensorData.
Proof.
  intros (H1 & H2 & H3 & _)%gguf_type_to_dtype_Some. unfold dispatch.
  apply Z.eqb_neq in H1, H2, H3. rewrite H1, H2, H3.
  by rewrite !andb_false_r.
Qed.

(** C9: a tensor whose stored name is exactly ".weight" is never sent to a
    block extractor, whatever its type code; the tensor loop handles it
    through [extract_tensor_data]. *)
Theorem C9_bare_suffix_not_quantized (array_map : gmap string array)
    (t : gguf_tensor) :
  name t = weight_suffix →
  ends_with_weight (name t) = false
  ∧ dispatch t = ToTensorData
  ∧ load_tensor array_map t =
      pure_bind (extract_tensor_data t) (λ '(buffer, d),
        Ok (unordered_map_insert (name t)
              (array_of_buffer buffer (get_shape t) d) array_map)).
Proof.
  intros Hname.
  assert (ends_with_weight (name t) = false) as He by (by rewrite Hname).
  split; [done|]. split; [by apply dispatch_not_suffixed|].
  unfold load_tensor. by rewrite dispatch_not_suffixed.
Qed.

(** ** Raw memory *)

Lemma length_read (n : nat) (p : list Z) : length (Mem.read n p) = n.
Proof.
  unfold Mem.read. rewrite length_take, length_app, length_replicate. lia.
Qed.

Lemma read_exact (n : nat) (p : list Z) : length p = n → Mem.read n p = p.
Proof.
  intros H. unfold Mem.read. rewrite take_app_length'; done.
Qed.

Lemma read_app (n : nat) (p q : list Z) :
  length p = n → Mem.read n (p ++ q) = p.
Proof.
  intros H. unfold Mem.read. rewrite <- app_assoc.
  by rewrite take_app_length'.
Qed.

Lemma length_malloc (n : Z) : length (allocator_malloc n) = Z.to_nat n.
Proof. unfold allocator_malloc. by rewrite length_map, length_seq. Qed.

Lemma memcpy_whole (dst src : list Z) (n : Z) :
  (length dst ≤ Z.to_nat n)%nat →
  Mem.memcpy dst src n = Mem.read (Z.to_nat n) src.
Proof.
  intros H. unfold Mem.memcpy. rewrite drop_ge by done. apply app_nil_r.
Qed.

(** ** Element counts *)

Lemma product_app (l k : list Z) :
  foldr Z.mul 1 (l ++ k) = foldr Z.mul 1 l * foldr Z.mul 1 k.
Proof. induction l as [|x l IH]; cbn; [lia|]. rewrite IH. lia. Qed.

Lemma product_reverse (l : list Z) :
  foldr Z.mul 1 (reverse l) = foldr Z.mul 1 l.
Proof.
  induction l as [|x l IH]; [done|].
  rewrite reverse_cons, product_app, IH. cbn. lia.
Qed.

Lemma product_nonneg (l : list Z) : int_dims l → 0 ≤ foldr Z.mul 1 l.
Proof. induction 1 as [|x l Hx _ IH]; cbn; lia. Qed.


Lemma tensor_bsize_mapped (ty : Z) (d : Dtype) (n : Z) :
  gguf_type_to_dtype ty = Some d → tensor_bsize ty n = n * size_of_dtype d.
Proof.
  unfold gguf_type_to_dtype.
  repeat match goal with
         | |- context [ty =? ?c] =>
             destruct (Z.eqb_spec ty c) as [->|?];
             [intros [= <-]; unfold tensor_bsize; cbn;
              rewrite Z.div_1_r; lia|]
         end.
  discriminate.
Qed.


(** ** The generic path of the tensor loop *)

Lemma extract_tensor_data_mapped (t : gguf_tensor) (d : Dtype) :
  gguf_type_to_dtype (type t) = Some d →
  bsize t = num_weights t * size_of_dtype d →
  0 ≤ num_weights t * size_of_dtype d < 2 ^ 64 →
  extract_tensor_data t =
    Ok (Mem.read (Z.to_nat (num_weights t * size_of_dtype d)) (weights_data t),
        d).
Proof.
  intros Hd Hb Hn. unfold extract_tensor_data. rewrite Hd.
  rewrite to_uint64_small by done.
  rewrite memcpy_whole; [done|]. rewrite length_malloc, Hb. lia.
Qed.


Lemma array_of_buffer_read (n : Z) (p : list Z) (sh : list Z) (d : Dtype) :
  foldr Z.mul 1 sh * size_of_dtype d = n →
  array_of_buffer (Mem.read (Z.to_nat n) p) sh d =
    {| dtype := d; shape := sh; data := Mem.read (Z.to_nat n) p;
       row_contiguous := true |}.
Proof.
  intros H. unfold array_of_buffer. rewrite H.
  by rewrite read_exact by apply length_read.
Qed.

Lemma size_of_dtype_bounds (d : Dtype) : 1 ≤ size_of_dtype d ≤ 8.
Proof. destruct d; cbn; lia. Qed.




(** ** Running the context monad *)

Lemma run_bind {A B : Type} (m : M A) (k : A → M B) (c : gguf_ctx) :
  (m ≫= k) c =
    match m c with
    | (Ok a, c') => k a c'
    | (Throw e, c') => (Throw e, c')
    | (OutOfFuel, c') => (OutOfFuel, c')
    | (Undefined, c') => (Undefined, c')
    end.
Proof. reflexivity. Qed.

Lemma run_ret {A : Type} (a : A) (c : gguf_ctx) :
  (mret a : M A) c = (Ok a, c).
Proof. reflexivity. Qed.

(** ** DtypeMapper *)

Lemma dtype_to_gguf_tensor_type_None (d : Dtype) :
  dtype_to_gguf_tensor_type d = None
  ↔ d ∉ [float32; float16; int8; int16; int32].
Proof.
  rewrite !not_elem_of_cons. destruct d; cbn; intuition (done || set_solver).
Qed.

Lemma dtype_roundtrip (d : Dtype) (ty : Z) :
  dtype_to_gguf_tensor_type d = Some ty → gguf_type_to_dtype ty = Some d.
Proof. destruct d; intros [= <-]; reflexivity. Qed.

(** ** The writer's loops: what they return *)

Lemma append_tensor_infos_outcome (l : list (string * array)) (start : Z)
    (c : gguf_ctx) :
  (append_tensor_infos l start c).1 =
    match first_unsupported l with
    | None => Ok (prod_map id reshape_flatten <$> l)
    | Some d => Throw (unsupported_dtype d)
    end.
Proof.
  revert start c. induction l as [|[key arr] l IH]; intros start c; [done|].
  cbn [append_tensor_infos first_unsupported].
  assert (row_contiguous
            (if negb (row_contiguous arr) then reshape_flatten arr else arr)
          = true) as Hc by (by destruct arr as [? ? ? []]).
  rewrite Hc. cbn [negb].
  assert (dtype (if negb (row_contiguous arr) then reshape_flatten arr else arr)
          = dtype arr) as Hd by (by destruct arr as [? ? ? []]).
  rewrite run_bind. cbn [get_ctx]. rewrite Hd.
  destruct (dtype_to_gguf_tensor_type (dtype arr)) as [ty|]; [|done].
  rewrite run_bind. cbn [call gguf_append_tensor_info negb].
  rewrite run_bind.
  match goal with
  | |- context [append_tensor_infos l ?s ?c'] =>
      specialize (IH s c'); destruct (append_tensor_infos l s c') as [r c'']
  end.
  cbn in IH. rewrite IH.
  destruct (first_unsupported l); [done|].
  cbn. do 3 f_equal. by destruct arr as [? ? ? []].
Qed.

Lemma append_tensor_datas_outcome (l : list (string * array)) (c : gguf_ctx) :
  (append_tensor_datas l c).1 = Ok tt.
Proof.
  revert c. induction l as [|[key arr] l IH]; intros c; [done|].
  cbn [append_tensor_datas]. rewrite run_bind.
  cbn [call gguf_append_tensor_data negb]. apply IH.
Qed.

Lemma first_unsupported_None (l : list (string * array)) :
  first_unsupported l = None
  ↔ ∀ k a, (k, a) ∈ l → is_Some (dtype_to_gguf_tensor_type (dtype a)).
Proof.
  induction l as [|[key arr] l IH]; cbn.
  - split; [|done]. intros _ k a H. by apply elem_of_nil in H.
  - destruct (dtype_to_gguf_tensor_type (dtype arr)) as [ty|] eqn:Hty.
    + rewrite IH. split.
      * intros H k a [[= -> ->]|Hin]%elem_of_cons; [by rewrite Hty|eauto].
      * intros H k a Hin. apply (H k). by right.
    + split; [done|]. intros H.
      destruct (H key arr) as [? Hs]; [by left|]. congruence.
Qed.

Lemma first_unsupported_Some (l : list (string * array)) (d : Dtype) :
  first_unsupported l = Some d →
  ∃ k a, (k, a) ∈ l ∧ dtype a = d ∧ dtype_to_gguf_tensor_type d = None.
Proof.
  induction l as [|[key arr] l IH]; cbn; [done|].
  destruct (dtype_to_gguf_tensor_type (dtype arr)) as [ty|] eqn:Hty.
  - intros (k & a & Hin & H)%IH. exists k, a. split; [by right|done].
  - intros [= <-]. exists key, arr. split; [by left|done].
Qed.

Lemma save_gguf_outcome (file : string) (array_map : gmap string array) :
  (save_gguf file array_map ∅).1 =
    match first_unsupported (map_to_list array_map) with
    | None => Ok tt
    | Some d => Throw (unsupported_dtype d)
    end.
Proof.
  unfold save_gguf. cbn [gguf_create]. rewrite map_to_list_empty.
  cbn [save_metadata]. rewrite run_bind, run_ret, run_bind.
  match goal with
  | |- context [append_tensor_infos ?l ?s ?c] =>
      pose proof (append_tensor_infos_outcome l s c) as H;
      destruct (append_tensor_infos l s c) as [r c']
  end.
  cbn in H. rewrite H.
  destruct (first_unsupported _); [done|].
  rewrite run_bind.
  match goal with
  | |- context [append_tensor_datas ?l ?c] =>
      pose proof (append_tensor_datas_outcome l c) as H';
      destruct (append_tensor_datas l c) as [r' c'']
  end.
  cbn in H'. by rewrite H'.
Qed.

(** C3, as stated, fails: the exception [save_gguf] throws for the tensor
    named "test" of dtype bool, saved with the metadata of the tests, does
    not carry the tensor's name. *)
Lemma C3_error_omits_tensor_name :
  ∃ e c,
    save_gguf "test_arr.gguf" bool_tensor_map original_metadata
    = (Throw e, c)
    ∧ what e =
        [Text "[save_gguf] dtype "; ShowDtype bool_; Text " is not supported"]
    ∧ Text "test" ∉ what e.
Proof.
  eexists _, _. split; [vm_compute; reflexivity|].
  split; [reflexivity|].
  cbn. rewrite !not_elem_of_cons. repeat split; try done.
  apply not_elem_of_nil.
Qed.

(** ** Alignment *)

Lemma padding_round_up (a x : Z) :
  0 < a → x + gguf_get_alignment_padding a x = round_up a x.
Proof.
  intros Ha. unfold gguf_get_alignment_padding, round_up.
  pose proof (Z.div_mod x a ltac:(lia)) as Hx.
  pose proof (Z.mod_pos_bound x a Ha) as Hr.
  destruct (decide (x mod a = 0)) as [H0|H0].
  - rewrite H0, Z.sub_0_r, Z.mod_same by lia.
    replace (x + a - 1) with (a - 1 + x / a * a) by lia.
    rewrite Z.div_add by lia. rewrite (Z.div_small (a - 1)) by lia. lia.
  - rewrite (Z.mod_small (a - x mod a)) by lia.
    replace (x + a - 1) with (x mod a - 1 + (x / a + 1) * a) by lia.
    rewrite Z.div_add by lia. rewrite (Z.div_small (x mod a - 1)) by lia. lia.
Qed.

Lemma round_up_ge (a x : Z) : 0 < a → x ≤ round_up a x.
Proof.
  intros Ha. rewrite <- padding_round_up by done.
  unfold gguf_get_alignment_padding.
  pose proof (Z.mod_pos_bound (a - x mod a) a Ha). lia.
Qed.

Lemma round_up_aligned (a x : Z) : 0 < a → round_up a x mod a = 0.
Proof. intros Ha. unfold round_up. apply Z.mod_mul. lia. Qed.

Lemma round_up_0 (a : Z) : 0 < a → round_up a 0 = 0.
Proof. intros Ha. unfold round_up. rewrite Z.div_small; lia. Qed.

Lemma round_up_id (a x : Z) : 0 < a → x mod a = 0 → round_up a x = x.
Proof.
  intros Ha H0. rewrite <- padding_round_up by done.
  unfold gguf_get_alignment_padding.
  rewrite H0, Z.sub_0_r, Z.mod_same by lia. lia.
Qed.

(** ** Names written to the file *)

Lemma ascii_of_byte_of_ascii (ch : ascii) :
  Mem.ascii_of_byte (Mem.byte_of_ascii ch) = ch.
Proof.
  unfold Mem.ascii_of_byte, Mem.byte_of_ascii.
  by rewrite N2Z.id, ascii_N_embedding.
Qed.

Lemma string_of_bytes_of_string (s : string) :
  Mem.string_of_bytes (Mem.bytes_of_string s) = s.
Proof.
  unfold Mem.string_of_bytes, Mem.bytes_of_string.
  rewrite map_map. rewrite (map_ext _ id), map_id.
  - apply string_of_list_ascii_of_string.
  - apply ascii_of_byte_of_ascii.
Qed.

Lemma length_bytes_of_string (s : string) :
  length (Mem.bytes_of_string s) = String.length s.
Proof.
  unfold Mem.bytes_of_string. rewrite length_map.
  induction s as [|ch s IH]; simpl; [done|]. by f_equal.
Qed.

Lemma std_string_whole (s : string) :
  Mem.std_string (Mem.bytes_of_string s) (string_length s) = s.
Proof.
  unfold Mem.std_string, string_length. rewrite Nat2Z.id.
  rewrite read_exact by apply length_bytes_of_string.
  apply string_of_bytes_of_string.
Qed.

(** ** The descriptor loop *)

Lemma array_nbytes_nonneg (arr : array) :
  int_dims (shape arr) → 0 ≤ array_nbytes arr.
Proof.
  intros H%product_nonneg. unfold array_nbytes, array_size, array_itemsize.
  pose proof (size_of_dtype_bounds (dtype arr)). nia.
Qed.

Lemma data_extent_ge (a start : Z) (l : list (string * array)) :
  0 < a → Forall (λ ka, writable ka.2) l → start ≤ data_extent a start l.
Proof.
  intros Ha Hl. revert start.
  induction Hl as [|[key arr] l [_ Hsh] _ IH]; intros start; cbn; [lia|].
  specialize (IH (round_up a start + array_nbytes arr)).
  pose proof (round_up_ge a start Ha).
  pose proof (array_nbytes_nonneg arr Hsh). lia.
Qed.

Lemma length_reversed_dims (sh : list Z) :
  length (reversed_dims sh) = length sh.
Proof. unfold reversed_dims. by rewrite length_fmap, length_seq. Qed.

Lemma append_tensor_infos_run (l : list (string * array)) (start : Z)
    (c : gguf_ctx) :
  0 < alignment c → 0 ≤ start →
  Forall (λ ka, writable ka.2) l →
  data_extent (alignment c) start l < 2 ^ 64 →
  append_tensor_infos l start c =
    (Ok (prod_map id reshape_flatten <$> l),
     set_contents
       (add_tensors (descriptors (alignment c) start l) (contents c)) c).
Proof.
  intros Ha. revert start c Ha.
  induction l as [|[key arr] l IH]; intros start c Ha Hstart Hl Hext.
  { cbn. unfold set_contents, add_tensors. rewrite app_nil_r.
    by destruct c as [? ? []]. }
  apply Forall_cons in Hl as [[[ty Hty] Hsh] Hl]. cbn in Hty, Hsh.
  cbn [append_tensor_infos].
  assert (row_contiguous
            (if negb (row_contiguous arr) then reshape_flatten arr else arr)
          = true) as Hc by (by destruct arr as [? ? ? []]).
  rewrite Hc. cbn [negb].
  set (arr' := if negb (row_contiguous arr) then reshape_flatten arr else arr).
  assert (dtype arr' = dtype arr ∧ shape arr' = shape arr
          ∧ array_nbytes arr' = array_nbytes arr
          ∧ array_ndim arr' = array_ndim arr) as (Hd & Hs & Hn & Hnd)
    by (by destruct arr as [? ? ? []]).
  rewrite run_bind. cbn [get_ctx]. rewrite Hd, Hty, Hs, Hn, Hnd.
  rewrite run_bind. cbn [call gguf_append_tensor_info negb].
  rewrite run_bind.
  cbn [data_extent] in Hext.
  pose proof (round_up_ge (alignment c) start Ha) as Hge.
  pose proof (array_nbytes_nonneg arr Hsh) as Hnb.
  pose proof (data_extent_ge (alignment c)
                (round_up (alignment c) start + array_nbytes arr) l Ha Hl)
    as Hext'.
  rewrite padding_round_up by done.
  rewrite (to_uint64_small (round_up _ _)) by lia.
  rewrite to_uint64_small by lia.
  rewrite IH; [|done|lia|done|done].
  rewrite run_ret. f_equal.
  { subst arr'. cbn. do 2 f_equal. by destruct arr as [? ? ? []]. }
  unfold set_contents, add_tensors. cbn. f_equal. f_equal.
  rewrite <- app_assoc. f_equal. cbn. f_equal.
  rewrite std_string_whole. unfold array_ndim. rewrite Nat2Z.id.
  rewrite take_ge by (by rewrite length_reversed_dims).
  rewrite reversed_dims_int by done. by rewrite Hty.
Qed.

Lemma descriptors_length (a start : Z) (l : list (string * array)) :
  length (descriptors a start l) = length l.
Proof.
  revert start. induction l as [|[key arr] l IH]; intros start; cbn; [done|].
  by rewrite IH.
Qed.

Lemma descriptors_first (a start : Z) (l : list (string * array))
    (ti : tensor_info) :
  descriptors a start l !! 0%nat = Some ti → ti_offset ti = round_up a start.
Proof. destruct l as [|[key arr] l]; cbn; [done|]. by intros [= <-]. Qed.

Lemma descriptors_next (a start : Z) (l : list (string * array)) (i : nat)
    (ti ti' : tensor_info) (ka : string * array) :
  descriptors a start l !! i = Some ti →
  descriptors a start l !! S i = Some ti' →
  l !! i = Some ka →
  ti_offset ti' = round_up a (ti_offset ti + array_nbytes ka.2).
Proof.
  revert start i. induction l as [|[key arr] l IH]; intros start i; [done|].
  destruct i as [|i]; cbn.
  - intros [= <-] H' [= <-]. cbn. by apply descriptors_first in H'.
  - apply IH.
Qed.

(** C6: the descriptor loop of [save_gguf], started at offset 0, records
    offsets that start at 0, never decrease, lie on alignment boundaries,
    and each equal the previous offset plus the previous tensor's byte size
    rounded up to the alignment; tensors of 7 and 5 bytes under alignment
    8 receive offsets 0 and 8. *)
Theorem C6_tensor_offsets (c : gguf_ctx) (l : list (string * array)) :
  0 < alignment c →
  Forall (λ ka, writable ka.2) l →
  data_extent (alignment c) 0 l < 2 ^ 64 →
  (∃ l' c' written,
     append_tensor_infos l 0 c = (Ok l', c')
     ∧ tensor_section (contents c') = tensor_section (contents c) ++ written
     ∧ length written = length l
     ∧ (∀ ti, written !! 0%nat = Some ti → ti_offset ti = 0)
     ∧ (∀ i ti ti' ka,
          written !! i = Some ti → written !! S i = Some ti' →
          l !! i = Some ka →
          ti_offset ti' =
            round_up (alignment c) (ti_offset ti + array_nbytes ka.2)
          ∧ ti_offset ti ≤ ti_offset ti'
          ∧ ti_offset ti' `mod` alignment c = 0))
  ∧ ti_offset <$>
      tensor_section
        (contents (append_tensor_infos tensors_7_5 0 ctx_alignment_8).2)
    = [0; 8].
Proof.
  intros Ha Hl Hext. split; [|reflexivity].
  eexists _, _, (descriptors (alignment c) 0 l).
  split; [by apply append_tensor_infos_run|].
  split; [done|]. split; [apply descriptors_length|]. split.
  - intros ti Hti%descriptors_first. by rewrite round_up_0 in Hti.
  - intros i ti ti' ka Hi Hi' Hka.
    pose proof (descriptors_next _ _ _ _ _ _ _ Hi Hi' Hka) as Hnext.
    split; [done|]. rewrite Hnext. split; [|by apply round_up_aligned].
    assert (writable ka.2) as [_ Hsh].
    { eapply (Forall_lookup_1 _ _ _ _ Hl Hka). }
    pose proof (array_nbytes_nonneg _ Hsh).
    pose proof (round_up_ge (alignment c)
                  (ti_offset ti + array_nbytes ka.2) Ha). lia.
Qed.

(** ** The metadata cursor *)

(** C1 at a float64 scalar and at a float64 array: the value occupies 8
    bytes (12 + 2 * 8 for the array of two) on disk, and
    [set_mx_value_from_gguf] moves the cursor by 4 (by 12 + 2 * 4), the
    byte size of the float32 tensor it decoded into; the length of the
    next key's name, 1 in the file, is then read from the middle of the
    float64 value as 5367660544. *)
Theorem C1_float64_cursor_short :
  (∃ key c1 v c2,
     gguf_get_key (opened float64_scalar_file) = (Some key, c1)
     ∧ key_type key = value_type_code GGUF_VALUE_TYPE_FLOAT64
     ∧ value_disk_size (key_type key) (key_val key) = Some 8
     ∧ set_mx_value_from_gguf (key_type key) (key_val key) c1 = (Ok v, c2)
     ∧ off c2 - off c1 = 4
     ∧ Mem.le_decode 8 (Mem.advance (off c1 + 8) (kv_section (contents c2)))
       = 1
     ∧ Mem.le_decode 8 (Mem.advance (off c2) (kv_section (contents c2)))
       = 5367660544)
  ∧ (∃ key c1 v c2,
       gguf_get_key (opened float64_array_file) = (Some key, c1)
       ∧ key_type key = value_type_code GGUF_VALUE_TYPE_ARRAY
       ∧ value_disk_size (key_type key) (key_val key) = Some 28
       ∧ set_mx_value_from_gguf (key_type key) (key_val key) c1 = (Ok v, c2)
       ∧ off c2 - off c1 = 20).
Proof.
  split.
  - eexists _, _, _, _. split; [vm_compute; reflexivity|].
    split; [reflexivity|]. split; [reflexivity|].
    split; [vm_compute; reflexivity|]. split; [reflexivity|].
    split; reflexivity.
  - eexists _, _, _, _. split; [vm_compute; reflexivity|].
    split; [reflexivity|]. split; [reflexivity|].
    split; [vm_compute; reflexivity|]. reflexivity.
Qed.

(** ** Closing the context *)

Lemma load_gguf_Ok_closed (fs : gmap string gguf_file) (file : string)
    (r : gmap string array * gmap string MetaData) (h : option gguf_ctx) :
  load_gguf fs file = (Ok r, h) → ∃ c, h = Some c ∧ fd_open c = false.
Proof.
  unfold load_gguf. destruct (gguf_open fs file) as [c0|]; [|done].
  rewrite run_bind. destruct (load_metadata c0) as [[m| | |] c1]; try done.
  rewrite run_bind. destruct (load_arrays c1) as [[a| | |] c2]; try done.
  rewrite run_bind. cbn. intros [= <- <-]. by eexists.
Qed.

Lemma save_gguf_Ok_closed (file : string) (array_map : gmap string array)
    (metadata : gmap string MetaData) (h : option gguf_ctx) :
  save_gguf file array_map metadata = (Ok tt, h) →
  ∃ c, h = Some c ∧ fd_open c = false.
Proof.
  unfold save_gguf. cbn [gguf_create].
  match goal with |- context [save_metadata ?l] => generalize l end.
  intros lm. rewrite run_bind.
  match goal with
  | |- context [save_metadata lm ?c] =>
      destruct (save_metadata lm c) as [[[]| | |] c1]; try done
  end.
  rewrite run_bind.
  destruct (append_tensor_infos _ 0 c1) as [[l'| | |] c2]; try done.
  rewrite run_bind.
  destruct (append_tensor_datas l' c2) as [[[]| | |] c3]; try done.
  cbn. intros [= <-]. by eexists.
Qed.

(** C8 at an unsupported dtype and at a nested metadata array: [save_gguf]
    and [load_gguf] throw and return with the context they opened still
    open; only the successful return closes it. *)
Theorem C8_context_left_open_on_error :
  (∃ e c,
     save_gguf "test_arr.gguf" bool_tensor_map ∅ = (Throw e, Some c)
     ∧ fd_open c = true)
  ∧ (∃ e c,
       load_gguf {[ "m.gguf"%string := nested_array_file ]} "m.gguf"
       = (Throw e, Some c)
       ∧ fd_open c = true)
  ∧ (∀ file array_map metadata h,
       save_gguf file array_map metadata = (Ok tt, h) →
       ∃ c, h = Some c ∧ fd_open c = false)
  ∧ (∀ fs file r h,
       load_gguf fs file = (Ok r, h) → ∃ c, h = Some c ∧ fd_open c = false).
Proof.
  split; [|split; [|split]].
  - eexists _, _. split; [vm_compute; reflexivity|reflexivity].
  - eexists _, _. split; [vm_compute; reflexivity|reflexivity].
  - apply save_gguf_Ok_closed.
  - apply load_gguf_Ok_closed.
Qed.

(** ** Loops that fill a buffer front to back *)







(** ** Half-precision cells *)








Lemma bytes_advance (k : Z) (p : list Z) : bytes p → bytes (Mem.advance k p).
Proof. apply Forall_drop. Qed.



(** ** The 8-bit extractor *)


Lemma to_uint64_mod_32 (x : Z) : Int.to_uint64 x mod 32 = x mod 32.
Proof.
  unfold Int.to_uint64.
  replace (2 ^ 64) with (32 * 2 ^ 59) by reflexivity.
  rewrite Z.rem_mul_r by lia.
  rewrite (Z.mul_comm 32), Z.mod_add by lia.
  apply Z.mod_mod. lia.
Qed.





(** ** The 4-bit extractor *)

Lemma shape_back_get_shape (t : gguf_tensor) :
  0 < ndim t →
  shape_back (get_shape t) = Int.to_int (Mem.index (dim t) 0).
Proof.
  intros Hn. unfold shape_back, get_shape.
  destruct (Z.to_nat (ndim t)) as [|n] eqn:Hndim; [lia|]. clear Hndim Hn.
  assert (∀ m d, length (get_shape_from m d) = m) as Hlen.
  { intros m d. induction m as [|m IH]; cbn; [done|]. by rewrite IH. }
  rewrite Hlen. cbn [Nat.pred].
  induction n as [|n IH]; [done|].
  change (get_shape_from (S (S n)) (dim t))
    with (Int.to_int (Mem.index (dim t) (S n)) :: get_shape_from (S n) (dim t)).
  exact IH.
Qed.


















(** ** The data loop *)

Lemma data_layout_flatten (a : Z) (sofar : list Z) (l : list (string * array)) :
  data_layout a sofar (prod_map id reshape_flatten <$> l)
  = data_layout a sofar l.
Proof.
  revert sofar. induction l as [|[key arr] l IH]; intros sofar; [done|].
  cbn. apply IH.
Qed.

Lemma append_tensor_datas_run (l : list (string * array)) (c : gguf_ctx) :
  append_tensor_datas l c =
    (Ok tt,
     set_contents
       (add_data (data_layout (alignment c) (data_section (contents c)) l)
          (contents c)) c).
Proof.
  revert c. induction l as [|[key arr] l IH]; intros c.
  { cbn. unfold set_contents, add_data. by destruct c as [? ? []]. }
  cbn [append_tensor_datas]. rewrite run_bind.
  cbn [call gguf_append_tensor_data negb]. rewrite IH. reflexivity.
Qed.

Lemma data_layout_extends (a : Z) (sofar : list Z)
    (l : list (string * array)) :
  ∃ tail, data_layout a sofar l = sofar ++ tail.
Proof.
  revert sofar. induction l as [|[key arr] l IH]; intros sofar.
  - exists []. by rewrite app_nil_r.
  - cbn. destruct (IH (sofar ++ replicate
                         (Z.to_nat (gguf_get_alignment_padding a
                                      (Z.of_nat (length sofar)))) 0
                       ++ Mem.read (Z.to_nat (array_nbytes arr)) (data arr)))
      as [tail ->].
    eexists. by rewrite <- !app_assoc.
Qed.

Lemma padding_nonneg (a x : Z) : 0 < a → 0 ≤ gguf_get_alignment_padding a x.
Proof.
  intros Ha. unfold gguf_get_alignment_padding.
  apply Z.mod_pos_bound. lia.
Qed.

(** The bytes found at a descriptor's offset are the bytes of its tensor. *)
Lemma data_layout_lookup (a : Z) (l : list (string * array)) (sofar : list Z)
    (i : nat) (key : string) (arr : array) (ti : tensor_info) :
  0 < a →
  Forall (λ ka, writable ka.2) l →
  l !! i = Some (key, arr) →
  descriptors a (Z.of_nat (length sofar)) l !! i = Some ti →
  Mem.read (Z.to_nat (array_nbytes arr))
    (Mem.advance (ti_offset ti) (data_layout a sofar l))
  = Mem.read (Z.to_nat (array_nbytes arr)) (data arr).
Proof.
  intros Ha Hl. revert sofar i.
  induction Hl as [|[key' arr'] l [_ Hsh] Hl IH]; intros sofar i; [done|].
  pose proof (padding_nonneg a (Z.of_nat (length sofar)) Ha) as Hpad.
  pose proof (padding_round_up a (Z.of_nat (length sofar)) Ha) as Hround.
  pose proof (array_nbytes_nonneg arr' Hsh) as Hnb.
  set (written := sofar
         ++ replicate (Z.to_nat (gguf_get_alignment_padding a
                                   (Z.of_nat (length sofar)))) 0
         ++ Mem.read (Z.to_nat (array_nbytes arr')) (data arr')).
  assert (Z.of_nat (length written)
          = round_up a (Z.of_nat (length sofar)) + array_nbytes arr')
    as Hlen.
  { subst written. rewrite !length_app, length_replicate, length_read. lia. }
  change (data_layout a sofar ((key', arr') :: l))
    with (data_layout a written l).
  destruct i as [|i]; cbn [descriptors lookup list_lookup].
  - intros [= <- <-] [= <-]. cbn [ti_offset].
    destruct (data_layout_extends a written l) as [tail ->].
    subst written. unfold Mem.advance.
    rewrite <- !app_assoc, app_assoc.
    rewrite drop_app_length'
      by (rewrite length_app, length_replicate; lia).
    by rewrite read_app by apply length_read.
  - intros Hi Hti. apply (IH written i); [done|]. by rewrite Hlen.
Qed.

Lemma descriptors_lookup (a start : Z) (l : list (string * array)) (i : nat)
    (key : string) (arr : array) (ti : tensor_info) :
  l !! i = Some (key, arr) → descriptors a start l !! i = Some ti →
  ti_name ti = key ∧ ti_dim ti = reverse (shape arr)
  ∧ ti_type ti = default 0 (dtype_to_gguf_tensor_type (dtype arr)).
Proof.
  revert start i. induction l as [|[key' arr'] l IH]; intros start i; [done|].
  destruct i as [|i]; cbn.
  - by intros [= <- <-] [= <-].
  - apply IH.
Qed.

(** ** Reading back what was written *)

Lemma load_tensor_written (acc : gmap string array) (bs : list Z)
    (key : string) (arr : array) (ti : tensor_info) :
  writable arr → well_formed arr → array_nbytes arr < 2 ^ 64 →
  ti_name ti = key → ti_dim ti = reverse (shape arr) →
  ti_type ti = default 0 (dtype_to_gguf_tensor_type (dtype arr)) →
  Mem.read (Z.to_nat (array_nbytes arr)) (Mem.advance (ti_offset ti) bs)
  = Mem.read (Z.to_nat (array_nbytes arr)) (data arr) →
  load_tensor acc (tensor_of_info bs ti)
  = Ok (unordered_map_insert key (reshape_flatten arr) acc).
Proof.
  intros [[ty Hty] Hsh] [_ Hdata] Hfit Hname Hdim Htype Hbytes.
  rewrite Hty in Htype. cbn in Htype.
  pose proof (dtype_roundtrip _ _ Hty) as Hback.
  set (t := tensor_of_info bs ti).
  assert (type t = ty) as Ht by done.
  assert (num_weights t = array_size arr) as Hnum.
  { subst t. cbn. rewrite Hdim. apply product_reverse. }
  assert (get_shape t = shape arr) as Hshape.
  { apply get_shape_reversed; [done|done|].
    subst t. cbn. by rewrite Hdim, length_reverse. }
  pose proof (array_nbytes_nonneg arr Hsh) as Hnb.
  unfold load_tensor. rewrite (dispatch_mapped t (dtype arr)) by (by rewrite Ht).
  rewrite (extract_tensor_data_mapped t (dtype arr)).
  - cbn [pure_bind]. rewrite Hnum.
    rewrite array_of_buffer_read by (by rewrite Hshape).
    f_equal. subst t. cbn [name tensor_of_info]. rewrite Hname. f_equal.
    unfold reshape_flatten. rewrite Hshape. f_equal.
    change (array_size arr * size_of_dtype (dtype arr))
      with (array_nbytes arr).
    change (weights_data (tensor_of_info bs ti))
      with (Mem.advance (ti_offset ti) bs).
    rewrite Hbytes. by apply read_exact.
  - by rewrite Ht.
  - subst t. cbn [bsize num_weights tensor_of_info]. rewrite Htype.
    by apply tensor_bsize_mapped.
  - rewrite Hnum. change (array_size arr * size_of_dtype (dtype arr))
      with (array_nbytes arr). lia.
Qed.

Lemma load_arrays_loop_run (bs : list Z) (l : list (string * array))
    (tis : list tensor_info) (fuel : nat) (acc : gmap string array)
    (c : gguf_ctx) :
  Forall2 (λ ka ti, ∀ acc,
             load_tensor acc (tensor_of_info bs ti)
             = Ok (unordered_map_insert ka.1 ka.2 acc)) l tis →
  left_kv c = 0 → data_section (contents c) = bs → left_tensors c = tis →
  (length tis < fuel)%nat →
  load_arrays_loop fuel acc c
  = (Ok (loaded_map l acc), set_left_tensors [] c).
Proof.
  intros Hall. revert fuel acc c.
  induction Hall as [|ka ti l tis Hload _ IH];
    intros fuel acc c Hkv Hbs Htis Hfuel.
  - destruct fuel as [|fuel]; [cbn in Hfuel; lia|].
    cbn [load_arrays_loop]. rewrite run_bind.
    unfold call, gguf_get_tensor. rewrite Hkv, Htis. cbn.
    rewrite run_ret. f_equal. unfold set_left_tensors.
    destruct c; cbn in *; by subst.
  - destruct fuel as [|fuel]; [cbn in Hfuel; lia|].
    cbn [load_arrays_loop]. rewrite run_bind.
    unfold call, gguf_get_tensor. rewrite Hkv, Htis. cbn [negb Z.eqb].
    rewrite run_bind. unfold lift. rewrite Hbs, Hload.
    rewrite (IH fuel); [done|done|done|done|cbn in Hfuel; lia].
Qed.

Lemma loaded_map_list_to_map (l : list (string * array))
    (acc : gmap string array) :
  NoDup l.*1 → (∀ k, k ∈ l.*1 → acc !! k = None) →
  loaded_map l acc = list_to_map l ∪ acc.
Proof.
  revert acc. induction l as [|[key arr] l IH]; intros acc Hnd Hfresh.
  { cbn. by rewrite (left_id ∅ (∪)). }
  apply NoDup_cons in Hnd as [Hnotin Hnd].
  unfold loaded_map. cbn [foldl fst snd].
  unfold unordered_map_insert at 2.
  rewrite Hfresh by (cbn; by left).
  fold (loaded_map l (<[key := arr]> acc)). rewrite IH; [|done|].
  - cbn [list_to_map foldr]. rewrite <- insert_union_l.
    rewrite insert_union_r; [done|].
    by apply not_elem_of_list_to_map_1.
  - intros k Hk. rewrite lookup_insert_ne; [apply Hfresh; cbn; by right|].
    intros ->. done.
Qed.

Lemma data_extent_covers (a start : Z) (l : list (string * array)) (i : nat)
    (key : string) (arr : array) :
  0 < a → 0 ≤ start → Forall (λ ka, writable ka.2) l →
  l !! i = Some (key, arr) → array_nbytes arr ≤ data_extent a start l.
Proof.
  intros Ha Hstart Hl. revert start Hstart i.
  induction Hl as [|[key' arr'] l [Hty Hsh] Hl IH]; intros start Hstart i;
    [done|].
  pose proof (round_up_ge a start Ha) as Hge.
  pose proof (array_nbytes_nonneg arr' Hsh) as Hnb.
  destruct i as [|i]; cbn.
  - intros [= <- <-].
    pose proof (data_extent_ge a (round_up a start + array_nbytes arr') l
                  Ha Hl). lia.
  - apply IH. lia.
Qed.

Lemma load_metadata_none (c : gguf_ctx) :
  left_kv c = 0 → load_metadata c = (Ok ∅, c).
Proof.
  intros Hkv. unfold load_metadata. rewrite Hkv. cbn [Z.to_nat].
  cbn [load_metadata_loop]. rewrite run_bind.
  unfold call, gguf_get_key. by rewrite Hkv.
Qed.

Lemma keys_flatten (l : list (string * array)) :
  (prod_map id reshape_flatten <$> l).*1 = l.*1.
Proof. induction l as [|[key arr] l IH]; cbn; [done|]. by f_equal. Qed.

Lemma supported_writable (arr : array) :
  dtype arr ∈ [int8; int16; int32; float16; float32] →
  int_dims (shape arr) → writable arr.
Proof.
  intros Hd Hsh. split; [|done].
  rewrite !elem_of_cons, elem_of_nil in Hd.
  destruct Hd as [->|[->|[->|[->|[->|[]]]]]]; by eexists.
Qed.

(** C2: a tensor map whose tensors have a supported dtype and at most five
    dimensions, saved with [save_gguf] without metadata and loaded back
    with [load_gguf] from the file that was written, comes back with the
    same keys and, under each key, a tensor of the same dtype, shape and
    element bytes, together with an empty metadata map. *)
Theorem C2_container_roundtrip (file : string) (m : gmap string array)
    (fs : gmap string gguf_file) :
  (∀ k arr, m !! k = Some arr →
     dtype arr ∈ [int8; int16; int32; float16; float32]
     ∧ (length (shape arr) ≤ 5)%nat
     ∧ well_formed arr) →
  data_extent GGUF_DEFAULT_ALIGNMENT 0 (map_to_list m) < 2 ^ 64 →
  ∃ c c' loaded,
    save_gguf file m ∅ = (Ok tt, Some c)
    ∧ fd_path c = gguf_file_name file
    ∧ load_gguf (<[fd_path c := contents c]> fs) (fd_path c)
      = (Ok (loaded, ∅), Some c')
    ∧ loaded = reshape_flatten <$> m
    ∧ dom loaded = dom m
    ∧ ∀ k arr, m !! k = Some arr →
        ∃ arr', loaded !! k = Some arr'
                ∧ dtype arr' = dtype arr ∧ shape arr' = shape arr
                ∧ data arr' = data arr.
Proof.
  intros Hm Hext.
  set (l := map_to_list m) in *.
  assert (Forall (λ ka : string * array, writable ka.2 ∧ well_formed ka.2) l)
    as Hall.
  { apply Forall_forall. intros [k arr] Hin%elem_of_map_to_list.
    destruct (Hm k arr Hin) as (Hd & _ & Hwf). cbn.
    split; [|done]. apply supported_writable; [done|]. by destruct Hwf. }
  assert (Forall (λ ka : string * array, writable ka.2) l) as Hw.
  { eapply Forall_impl; [exact Hall|]. by intros ka [? _]. }
  (* the writer *)
  unfold save_gguf. cbn [gguf_create]. rewrite map_to_list_empty.
  cbn [save_metadata]. rewrite run_bind, run_ret, run_bind.
  fold l. rewrite append_tensor_infos_run; [|done|done|done|done].
  rewrite run_bind, append_tensor_datas_run.
  cbn [close alignment set_contents contents add_tensors add_data
         data_section tensor_section kv_count kv_section app].
  rewrite data_layout_flatten.
  eexists _, _, (reshape_flatten <$> m).
  split; [reflexivity|]. split; [reflexivity|].
  cbn [gguf_close fd_path contents].
  split; [|split; [done|split]].
  - (* the reader *)
    unfold load_gguf, gguf_open. rewrite lookup_insert_eq. cbn [mbind option_bind].
    rewrite run_bind, load_metadata_none by done.
    rewrite run_bind.
    unfold load_arrays.
    erewrite (load_arrays_loop_run
                (data_layout GGUF_DEFAULT_ALIGNMENT [] l)
                (prod_map id reshape_flatten <$> l)); try done.
    + rewrite run_bind. cbn [close]. rewrite run_ret. f_equal. f_equal.
      f_equal. rewrite loaded_map_list_to_map.
      * rewrite (right_id ∅ (∪)). rewrite list_to_map_fmap.
        subst l. by rewrite list_to_map_to_list.
      * rewrite keys_flatten. apply NoDup_fst_map_to_list.
      * intros k _. apply lookup_empty.
    + apply Forall2_same_length_lookup_2.
      { rewrite length_fmap. cbn. by rewrite descriptors_length. }
      intros i ka ti Hka Hti acc. cbn in Hti.
      rewrite list_lookup_fmap in Hka.
      destruct (l !! i) as [[key arr]|] eqn:Hi; [|done].
      injection Hka as <-. cbn [prod_map fst snd id].
      pose proof (Forall_lookup_1 _ _ _ _ Hall Hi) as [Hwr Hwf].
      cbn in Hwr, Hwf.
      destruct (descriptors_lookup _ _ _ _ _ _ _ Hi Hti)
        as (Hname & Hdim & Htype).
      apply load_tensor_written; try done.
      * pose proof (data_extent_covers GGUF_DEFAULT_ALIGNMENT 0 l i key arr
                      ltac:(done) ltac:(done) Hw Hi). lia.
      * by apply (data_layout_lookup GGUF_DEFAULT_ALIGNMENT l [] i key).
    + cbn. rewrite descriptors_length. lia.
  - by rewrite dom_fmap_L.
  - intros k arr Hk. exists (reshape_flatten arr).
    rewrite lookup_fmap, Hk. done.
Qed.

(** ** The metadata cursor away from float64 *)

Lemma value_type_of_code_Some (code : Z) (t : gguf_value_type) :
  value_type_of_code code = Some t → code = value_type_code t.
Proof.
  unfold value_type_of_code.
  destruct code as [|p|p]; [by intros [= <-]| |done].
  repeat (destruct p as [p|p|]; try discriminate);
    by intros [= <-].
Qed.

Lemma le_decode_nonneg (n : nat) (p : list Z) :
  bytes p → 0 ≤ Mem.le_decode n p.
Proof.
  intros Hp. revert n. induction Hp as [|b p Hb _ IH]; intros [|n]; cbn;
    try lia.
  specialize (IH n). lia.
Qed.

Lemma strings_disk_size_nonneg (n : nat) (p : list Z) :
  bytes p → 0 ≤ strings_disk_size n p.
Proof.
  revert p. induction n as [|n IH]; intros p Hp;
    cbn [strings_disk_size]; [lia|].
  pose proof (le_decode_nonneg 8 p Hp).
  pose proof (IH _ (bytes_advance (Mem.le_decode 8 p + sizeof_gguf_string)
                      p Hp)).
  unfold sizeof_gguf_string in *. lia.
Qed.

Lemma run_std_string_int (p : list Z) (len : Z) (c : gguf_ctx) :
  std_string_int p len c
  = if Int.to_int len <? 0 then (Throw (mk_exn length_error []), c)
    else (Ok (Mem.std_string p (Int.to_size_t (Int.to_int len))), c).
Proof. unfold std_string_int. by destruct (Int.to_int len <? 0). Qed.

Lemma read_strs_S (n : nat) (p : list Z) :
  read_strs (S n) p
  = (std_string_int (Mem.advance sizeof_gguf_string p) (Mem.le_decode 8 p)
     ≫= λ str,
       add_off (Int.to_uint64 (Mem.le_decode 8 p + sizeof_gguf_string))
       ≫= λ _,
         read_strs n
           (Mem.advance
              (Int.to_uint64 (Mem.le_decode 8 p + sizeof_gguf_string)) p)
         ≫= λ strs, mret (str :: strs)).
Proof. reflexivity. Qed.

Lemma read_strs_cursor (n : nat) (p : list Z) (c : gguf_ctx) :
  bytes p → 0 ≤ off c → off c + strings_disk_size n p < 2 ^ 64 →
  string_lengths_fit n p = true →
  ∃ strs c',
    read_strs n p c = (Ok strs, c')
    ∧ off c' = off c + strings_disk_size n p.
Proof.
  revert p c. induction n as [|n IH]; intros p c Hp Hoff Hfit Hint.
  { eexists _, _. split; [reflexivity|]. cbn. lia. }
  rewrite read_strs_S.
  cbn [strings_disk_size string_lengths_fit] in *.
  pose proof (le_decode_nonneg 8 p Hp) as Hlen.
  set (len := Mem.le_decode 8 p) in *.
  pose proof (strings_disk_size_nonneg n _
                (bytes_advance (len + sizeof_gguf_string) p Hp)) as Hrest.
  unfold sizeof_gguf_string in *.
  assert (0 ≤ len + 8 < 2 ^ 64) as Hl8 by lia.
  rewrite !(to_uint64_small (len + 8)) in * by exact Hl8.
  apply andb_prop in Hint as [Hpos Hint]. apply Z.leb_le in Hpos.
  rewrite run_bind, run_std_string_int.
  replace (Int.to_int len <? 0) with false
    by (symmetry; apply Z.ltb_ge; lia).
  rewrite run_bind. unfold add_off at 1.
  assert (0 ≤ off c + (len + 8) < 2 ^ 64) as Hl9 by lia.
  rewrite (to_uint64_small _ Hl9).
  rewrite run_bind.
  destruct (IH (Mem.advance (len + 8) p) (set_off (off c + (len + 8)) c))
    as (strs & c' & Hrun & Hc');
    [by apply bytes_advance|cbn [off set_off]; lia|cbn [off set_off]; lia
    |done|].
  rewrite Hrun. eexists _, _. split; [reflexivity|].
  rewrite Hc'. cbn [off set_off]. lia.
Qed.

Lemma string_length_of_bytes (bs : list Z) :
  String.length (Mem.string_of_bytes bs) = length bs.
Proof.
  unfold Mem.string_of_bytes. induction bs as [|b bs IH]; simpl; [done|].
  by f_equal.
Qed.

#[local] Arguments Mem.le_decode : simpl never.
#[local] Arguments Mem.read : simpl never.
#[local] Arguments Mem.advance : simpl never.
#[local] Arguments Mem.std_string : simpl never.
#[local] Arguments strings_disk_size : simpl never.
#[local] Arguments read_strs : simpl never.
#[local] Arguments Z.pow : simpl never.

(** X8: Away from float64, on a value whose counts and string lengths fit
    an [int], [set_mx_value_from_gguf] returns a value and moves the cursor
    by the number of bytes the value occupies on disk. *)
Lemma set_mx_value_cursor_exact (ty : Z) (val : list Z) (c : gguf_ctx)
    (n : Z) :
  bytes val → 0 ≤ off c →
  value_disk_size ty val = Some n → off c + n < 2 ^ 64 →
  int_counts ty val → float64_free ty val →
  ∃ v c',
    set_mx_value_from_gguf ty val c = (Ok v, c') ∧ off c' = off c + n.
Proof.
  intros Hval Hoff Hsize Hfit (Hstr & Harr & Hstrs) [Hnot64 Hnot64arr].
  unfold value_disk_size in Hsize.
  destruct (value_type_of_code ty) as [t|] eqn:Ht; [|done].
  pose proof (value_type_of_code_Some _ _ Ht) as ->. clear Ht.
  unfold set_mx_value_from_gguf.
  destruct t; cbn in Hsize; try (by destruct Hnot64);
    try (injection Hsize as <-; cbn;
         eexists _, _; split; [reflexivity|];
         cbn; unfold array_nbytes, array_size, array_itemsize; cbn;
         rewrite to_uint64_small by lia; lia).
  - (* string *)
    injection Hsize as <-. specialize (Hstr eq_refl).
    pose proof (le_decode_nonneg 8 val Hval) as Hlen.
    unfold sizeof_gguf_string in *.
    cbn [value_type_of_code value_type_code].
    rewrite run_bind, run_bind, run_std_string_int.
    rewrite to_int_small by lia.
    replace (Mem.le_decode 8 val <? 0) with false
      by (symmetry; apply Z.ltb_ge; lia).
    rewrite run_ret. cbn [Z.eqb Pos.eqb]. cbv beta iota.
    rewrite run_bind. unfold add_off. rewrite run_ret.
    eexists _, _. split; [reflexivity|]. cbn [off set_off].
    unfold Mem.std_string. rewrite string_length_of_bytes, length_read.
    unfold Int.to_size_t.
    rewrite (Z.mod_small (Mem.le_decode 8 val)) by lia.
    rewrite Z2Nat.id by lia. unfold sizeof_gguf_string.
    rewrite (to_uint64_small (8 + Mem.le_decode 8 val)) by lia.
    by rewrite to_uint64_small by lia.
  - (* array *)
    specialize (Harr eq_refl). specialize (Hnot64arr eq_refl).
    specialize (Hstrs eq_refl).
    pose proof (le_decode_nonneg 8 _ (bytes_advance 4 val Hval)) as Hlen.
    set (len := Mem.le_decode 8 (Mem.advance 4 val)) in *.
    unfold gguf_array_header_size in *.
    cbn [value_type_of_code value_type_code].
    rewrite run_bind. unfold add_off at 1.
    destruct (value_type_of_code (Mem.le_decode 4 val)) as [et|] eqn:Het;
      [|done].
    pose proof (value_type_of_code_Some _ _ Het) as Hcode.
    rewrite Hcode in *. clear Het Hcode.
    assert (Int.to_int len = len) as Hint by (apply to_int_small; lia).
    destruct et; cbn in Hsize; try done; try (by destruct Hnot64arr);
      try (injection Hsize as <-; cbn; rewrite Hint;
           eexists _, _; split; [reflexivity|];
           cbn; unfold array_nbytes, array_size, array_itemsize; cbn;
           rewrite (to_uint64_small (off c + 12)) by lia;
           rewrite to_uint64_small by lia; lia).
    (* array of strings *)
    injection Hsize as <-. specialize (Hstrs eq_refl).
    pose proof (strings_disk_size_nonneg (Z.to_nat len) _
                  (bytes_advance 12 val Hval)) as Hrest.
    cbn. rewrite Hint.
    replace (len <? 0) with false by (symmetry; apply Z.ltb_ge; lia).
    rewrite run_bind. cbv beta iota.
    rewrite (to_uint64_small (off c + 12)) by lia.
    rewrite run_bind.
    destruct (read_strs_cursor (Z.to_nat len) (Mem.advance 12 val)
                (set_off (off c + 12) c))
      as (strs & c' & Hrun & Hc');
      [by apply bytes_advance|cbn; lia|cbn; lia|done|].
    rewrite Hrun. cbn. eexists _, _. split; [reflexivity|].
    rewrite Hc'. cbn. lia.
Qed.

(** ** The loops have fuel enough *)

Lemma read_strs_steady (n : nat) (p : list Z) (c : gguf_ctx) :
  ∃ r c', read_strs n p c = (r, c')
          ∧ r ≠ OutOfFuel ∧ left_kv c' = left_kv c.
Proof.
  revert p c. induction n as [|n IH]; intros p c; [by eexists _, _|].
  rewrite read_strs_S, run_bind, run_std_string_int.
  destruct (Int.to_int (Mem.le_decode 8 p) <? 0); [by eexists _, _|].
  rewrite run_bind. unfold add_off. rewrite run_bind.
  match goal with
  | |- context [read_strs n ?q ?c0] =>
      destruct (IH q c0) as (r & c' & -> & Hr & Hk)
  end.
  destruct r as [strs|e| |]; [| |done|]; by eexists _, _.
Qed.

Lemma set_mx_value_steady (ty : Z) (val : list Z) (c : gguf_ctx) :
  ∃ r c', set_mx_value_from_gguf ty val c = (r, c')
          ∧ r ≠ OutOfFuel ∧ left_kv c' = left_kv c.
Proof.
  unfold set_mx_value_from_gguf.
  destruct (value_type_of_code ty) as [t|] eqn:Ht; [|by eexists _, _].
  pose proof (value_type_of_code_Some _ _ Ht) as ->. clear Ht.
  destruct t; try (by eexists _, _).
  - (* string *)
    rewrite run_bind, run_bind, run_std_string_int.
    destruct (Int.to_int (Mem.le_decode 8 val) <? 0); by eexists _, _.
  - (* array *)
    rewrite run_bind. unfold add_off at 1. rewrite run_bind.
    cbv beta iota. cbn [value_type_code].
    destruct (Mem.le_decode 4 val =? 9); [by eexists _, _|].
    destruct (value_type_of_code (Mem.le_decode 4 val)) as [et|];
      [|by eexists _, _].
    destruct et; try (by eexists _, _).
    destruct (Int.to_int (Mem.le_decode 8 (Mem.advance 4 val)) <? 0);
      [by eexists _, _|].
    rewrite run_bind.
    match goal with
    | |- context [read_strs ?n ?q ?c0] =>
        destruct (read_strs_steady n q c0) as (r & c' & -> & Hr & Hk)
    end.
    destruct r as [strs|e| |]; [| |done|]; by eexists _, _.
Qed.

Lemma load_metadata_loop_total (fuel : nat) (metadata : gmap string MetaData)
    (c : gguf_ctx) :
  0 ≤ left_kv c → (Z.to_nat (left_kv c) < fuel)%nat →
  (load_metadata_loop fuel metadata c).1 ≠ OutOfFuel.
Proof.
  revert metadata c. induction fuel as [|fuel IH]; intros metadata c Hkv Hfuel;
    [lia|].
  cbn [load_metadata_loop]. rewrite run_bind.
  unfold call, gguf_get_key.
  destruct (Z.eqb_spec (left_kv c) 0) as [H0|H0]; [done|].
  cbv beta iota zeta. rewrite run_bind.
  match goal with
  | |- context [set_mx_value_from_gguf ?ty ?v ?c0] =>
      destruct (set_mx_value_steady ty v c0) as (r & c' & -> & Hr & Hk)
  end.
  destruct r as [value|e| |]; [|done|done|done].
  apply IH; rewrite Hk; cbn; lia.
Qed.

Lemma load_arrays_loop_total (fuel : nat) (array_map : gmap string array)
    (c : gguf_ctx) :
  (∀ a t, extract_q4_0_data a t ≠ OutOfFuel) →
  (length (left_tensors c) < fuel)%nat →
  (load_arrays_loop fuel array_map c).1 ≠ OutOfFuel.
Proof.
  intros Hq4. revert array_map c.
  induction fuel as [|fuel IH]; intros array_map c Hfuel; [lia|].
  cbn [load_arrays_loop]. rewrite run_bind.
  unfold call, gguf_get_tensor.
  destruct (negb (left_kv c =? 0)); [done|].
  destruct (left_tensors c) as [|ti rest] eqn:Hleft; [done|].
  cbv beta iota zeta. rewrite run_bind. unfold lift.
  destruct (load_tensor array_map _) as [array_map'|e| |] eqn:Hload;
    [|done| |done].
  - apply IH. cbn in *. lia.
  - exfalso. revert Hload. unfold load_tensor.
    destruct (dispatch _).
    + apply Hq4.
    + unfold extract_q4_1_data. destruct (decide _); [done|].
      destruct (negb _); [done|].
      by destruct (for_range _ _ _) as [[? ?] ?].
    + unfold extract_q8_0_data. destruct (decide _); [done|].
      destruct (negb _); [done|].
      by destruct (for_range _ _ _) as [[? ?] ?].
    + unfold extract_tensor_data.
      destruct (gguf_type_to_dtype _); [done|].
      by destruct (gguf_tensor_to_f16 _).
Qed.

(** The loops of [load_gguf] are given fuel enough. *)
Lemma load_gguf_total (fs : gmap string gguf_file) (file : string) :
  (∀ a t, extract_q4_0_data a t ≠ OutOfFuel) →
  (∀ f, fs !! file = Some f → 0 ≤ kv_count f) →
  (load_gguf fs file).1 ≠ OutOfFuel.
Proof.
  intros Hq4 Hkv. unfold load_gguf, gguf_open.
  destruct (fs !! file) as [f|] eqn:Hf; [|done].
  cbn [mbind option_bind]. rewrite run_bind.
  match goal with
  | |- context [load_metadata ?c0] =>
      pose proof (load_metadata_loop_total (S (Z.to_nat (left_kv c0))) ∅ c0
                    (Hkv f eq_refl) ltac:(lia)) as Hm;
      change (load_metadata_loop (S (Z.to_nat (left_kv c0))) ∅ c0)
        with (load_metadata c0) in Hm;
      destruct (load_metadata c0) as [[metadata|e| |] c1]
  end; try done.
  rewrite run_bind.
  pose proof (load_arrays_loop_total (S (length (left_tensors c1))) ∅ c1
                Hq4 ltac:(lia)) as Ha.
  change (load_arrays_loop (S (length (left_tensors c1))) ∅ c1)
    with (load_arrays c1) in Ha.
  by destruct (load_arrays c1) as [[arrays|e| |] c2].
Qed.

Lemma save_metadata_entry_total (key : string) (value : MetaData)
    (c : gguf_ctx) :
  (save_metadata_entry key value c).1 ≠ OutOfFuel.
Proof.
  unfold save_metadata_entry.
  destruct value as [|v|str|str_vec]; [done| |done|].
  2: { cbv zeta. destruct (_ <? 0); [done|]. by destruct (_ <? _). }
  destruct (1 <? array_ndim v); [done|].
  destruct (array_size v =? 0); [done|].
  destruct (negb (row_contiguous (if negb (row_contiguous v)
                                  then reshape_flatten v else v)));
    [done|].
  unfold append_kv_array.
  destruct (dtype _); try done;
    by destruct (array_ndim _ =? 1).
Qed.

Lemma save_metadata_total (metadata : list (string * MetaData))
    (c : gguf_ctx) :
  (save_metadata metadata c).1 ≠ OutOfFuel.
Proof.
  revert c. induction metadata as [|[key value] metadata IH]; intros c;
    [done|].
  cbn [save_metadata]. rewrite run_bind.
  pose proof (save_metadata_entry_total key value c) as He.
  destruct (save_metadata_entry key value c) as [[[]|e| |] c'];
    [|done|done|done].
  apply IH.
Qed.

(** [save_gguf] has no loop that runs out of fuel. *)
Lemma save_gguf_total (file : string) (array_map : gmap string array)
    (metadata : gmap string MetaData) :
  (save_gguf file array_map metadata).1 ≠ OutOfFuel.
Proof.
  unfold save_gguf. cbn [gguf_create]. rewrite run_bind.
  match goal with
  | |- context [save_metadata ?l ?c0] =>
      pose proof (save_metadata_total l c0) as Hm;
      destruct (save_metadata l c0) as [[[]|e| |] c1]
  end; try done.
  rewrite run_bind.
  match goal with
  | |- context [append_tensor_infos ?l ?s ?c0] =>
      pose proof (append_tensor_infos_outcome l s c0) as Hi;
      destruct (append_tensor_infos l s c0) as [r c2]
  end.
  cbn in Hi. subst r.
  destruct (first_unsupported _); [done|].
  rewrite run_bind.
  match goal with
  | |- context [append_tensor_datas ?l ?c0] =>
      pose proof (append_tensor_datas_outcome l c0) as Hd;
      destruct (append_tensor_datas l c0) as [r c3]
  end.
  cbn in Hd. by subst r.
Qed.

(** * Further properties of the codec *)

(** ** DtypeMapper *)

(** X1: The two type-code tables are inverse to each other: a dtype is mapped
    to a code exactly when the code is mapped back to that dtype. *)
Theorem dtype_codes_inverse (d : Dtype) (ty : Z) :
  dtype_to_gguf_tensor_type d = Some ty ↔ gguf_type_to_dtype ty = Some d.
Proof.
  split; [apply dtype_roundtrip|].
  by intros (_ & _ & _ & H)%gguf_type_to_dtype_Some.
Qed.

(** ** The file name *)

(** X2: [save_gguf] always writes to a name that ends with ".gguf": a name
    that already ends so is kept, any other name gets the extension
    appended, and normalising twice changes nothing. *)
Theorem gguf_file_name_extension (file : string) :
  (∃ stem, gguf_file_name file = (stem +:+ ".gguf")%string)
  ∧ gguf_file_name (gguf_file_name file) = gguf_file_name file
  ∧ (∀ stem, file = (stem +:+ ".gguf")%string → gguf_file_name file = file)
  ∧ ((∀ stem, file ≠ (stem +:+ ".gguf")%string) →
     gguf_file_name file = (file +:+ ".gguf")%string).
Proof.
  assert (∀ stem, gguf_file_name (stem +:+ ".gguf") = (stem +:+ ".gguf")%string)
    as Hkept.
  { intros stem. unfold gguf_file_name.
    rewrite string_length_app.
    replace (String.length stem + String.length ".gguf" <? 5)%nat with false
      by (symmetry; apply Nat.ltb_ge; cbn; lia).
    replace (String.length stem + String.length ".gguf" - 5)%nat
      with (String.length stem) by (cbn; lia).
    change 5%nat with (String.length ".gguf") at 1.
    by rewrite substring_app_r. }
  assert (∃ stem, gguf_file_name file = (stem +:+ ".gguf")%string) as Hends.
  { unfold gguf_file_name.
    destruct (Nat.ltb_spec (String.length file) 5) as [Hlt|Hge];
      [by exists file|].
    cbn [orb].
    destruct (String.eqb_spec
                (String.substring (String.length file - 5) 5 file) ".gguf")
      as [Heq|Hne]; [|by exists file].
    cbn [negb]. exists (String.substring 0 (String.length file - 5) file).
    pose proof (substring_split file (String.length file - 5) 5
                  ltac:(lia)) as Hs.
    by rewrite Heq in Hs. }
  split; [exact Hends|]. split; [|split].
  - destruct Hends as [stem ->]. apply Hkept.
  - intros stem ->. apply Hkept.
  - intros Hno. destruct Hends as [stem Hstem].
    unfold gguf_file_name in *.
    destruct (_ || _); [done|]. by destruct (Hno stem).
Qed.

(** ** The entries a block extractor adds *)

Lemma substring_app_l (p s : string) :
  String.substring 0 (String.length p) (p +:+ s) = p.
Proof.
  induction p as [|ch p IH].
  - rewrite string_app_nil. by destruct s.
  - rewrite string_app_cons. simpl. by f_equal.
Qed.

Lemma string_app_inj (p s1 s2 : string) :
  (p +:+ s1)%string = (p +:+ s2)%string → s1 = s2.
Proof.
  induction p as [|ch p IH]; [done|].
  rewrite !string_app_cons. intros [= H]. by apply IH.
Qed.

Lemma strip_weight_suffix (prefix : string) :
  strip_suffix_len (prefix +:+ weight_suffix) weight_suffix = prefix.
Proof.
  unfold strip_suffix_len. rewrite string_length_app.
  replace (String.length weight_suffix
           <=? String.length prefix + String.length weight_suffix)%nat
    with true by (symmetry; apply Nat.leb_le; lia).
  replace (String.length prefix + String.length weight_suffix
           - String.length weight_suffix)%nat
    with (String.length prefix) by lia.
  apply substring_app_l.
Qed.

Lemma unordered_map_insert_lookup {V : Type} (k k' : string) (v : V)
    (m : gmap string V) :
  unordered_map_insert k v m !! k' =
    match m !! k' with
    | Some old => Some old
    | None => if decide (k = k') then Some v else None
    end.
Proof.
  unfold unordered_map_insert.
  destruct (m !! k) as [old|] eqn:Hk.
  - destruct (m !! k') as [old'|] eqn:Hk'; [done|].
    case_decide; [congruence|done].
  - rewrite lookup_insert. case_decide as Heq.
    + subst k'. by rewrite Hk.
    + by destruct (m !! k').
Qed.

Lemma unordered_map_insert_dom {V : Type} (k : string) (v : V)
    (m : gmap string V) :
  dom (unordered_map_insert k v m) = dom m ∪ {[k]}.
Proof.
  unfold unordered_map_insert. destruct (m !! k) as [old|] eqn:Hk.
  - apply (elem_of_dom_2 m) in Hk.
    rewrite (comm_L (∪)). symmetry. apply subseteq_union_1_L.
    by apply singleton_subseteq_l.
  - rewrite dom_insert_L. apply (comm_L (∪)).
Qed.

Lemma insert_quantized_entries (a : gmap string array) (prefix : string)
    (sh : list Z) (wpb wpblock : Z) (W S B : list Z) :
  let m := insert_quantized a (prefix +:+ weight_suffix) sh wpb wpblock W S B in
  let weights :=
    array_of_buffer W
      (set_shape_back (Int.to_int (Int.to_uint64 (shape_back sh) / wpb / 4)) sh)
      uint32 in
  let side := λ buffer,
    array_of_buffer buffer
      (set_shape_back (Int.to_int (Int.to_uint64 (shape_back sh) / wpblock)) sh)
      float16 in
  dom m = dom a ∪ {[ (prefix +:+ weight_suffix)%string;
                     (prefix +:+ ".scales")%string;
                     (prefix +:+ ".biases")%string ]}
  ∧ (∀ k old, a !! k = Some old → m !! k = Some old)
  ∧ (a !! (prefix +:+ weight_suffix)%string = None →
     m !! (prefix +:+ weight_suffix)%string = Some weights)
  ∧ (a !! (prefix +:+ ".scales")%string = None →
     m !! (prefix +:+ ".scales")%string = Some (side S))
  ∧ (a !! (prefix +:+ ".biases")%string = None →
     m !! (prefix +:+ ".biases")%string = Some (side B)).
Proof.
  cbv zeta. unfold insert_quantized. rewrite strip_weight_suffix.
  assert ((prefix +:+ weight_suffix)%string ≠ (prefix +:+ ".scales")%string)
    as Hws by (by intros H%string_app_inj).
  assert ((prefix +:+ weight_suffix)%string ≠ (prefix +:+ ".biases")%string)
    as Hwb by (by intros H%string_app_inj).
  assert ((prefix +:+ ".scales")%string ≠ (prefix +:+ ".biases")%string)
    as Hsb by (by intros H%string_app_inj).
  split; [|split; [|split; [|split]]].
  - rewrite !unordered_map_insert_dom. by rewrite !(assoc_L (∪)).
  - intros k old Hk. rewrite !unordered_map_insert_lookup. by rewrite Hk.
  - intros Hk. rewrite !unordered_map_insert_lookup, Hk.
    by rewrite decide_True by done.
  - intros Hk. rewrite !unordered_map_insert_lookup, Hk.
    rewrite decide_False by done. by rewrite decide_True by done.
  - intros Hk. rewrite !unordered_map_insert_lookup, Hk.
    rewrite !decide_False by done. by rewrite decide_True by done.
Qed.

(** ** The tensor loop on plain tensors *)





(** ** Metadata: what the writer appends *)

Lemma length_le_encode (n : nat) (v : Z) : length (Mem.le_encode n v) = n.
Proof. revert v. induction n as [|n IH]; intros v; cbn; [done|]. by rewrite IH. Qed.

Lemma length_string_to_gguf (s : string) :
  length (string_to_gguf s) = (8 + String.length s)%nat.
Proof.
  unfold string_to_gguf.
  by rewrite length_app, length_le_encode, length_bytes_of_string.
Qed.

Lemma gguf_append_kv_record (key : string) (tag : gguf_value_type)
    (bs : list Z) (len : Z) (c : gguf_ctx) :
  Z.to_nat len = length bs →
  append_kv key tag bs len c =
    (Ok tt,
     set_contents (add_kv (kv_record key (value_type_code tag) bs)
                     (contents c)) c).
Proof.
  intros Hlen. unfold append_kv. rewrite run_bind.
  unfold call, gguf_append_kv. rewrite run_ret. do 2 f_equal.
  unfold add_kv, kv_record. f_equal. f_equal.
  unfold string_length. rewrite Nat2Z.id.
  rewrite (read_exact _ (Mem.bytes_of_string key))
    by apply length_bytes_of_string.
  by rewrite (read_exact _ bs) by done.
Qed.

Lemma accumulate_sizes_sum (l : list string) (acc : Z) :
  0 ≤ acc →
  acc + Z.of_nat (length (concat (string_to_gguf <$> l))) < 2 ^ 31 →
  foldl (λ accum s, Int.to_int (Int.to_size_t accum + string_length s)) acc l
  = acc + Z.of_nat (length (concat (string_to_gguf <$> l)))
    - 8 * Z.of_nat (length l).
Proof.
  revert acc. induction l as [|s l IH]; intros acc Hacc Hfit; cbn [foldl].
  { cbn. lia. }
  cbn [fmap list_fmap concat] in *. rewrite length_app in *.
  rewrite length_string_to_gguf in *.
  unfold Int.to_size_t, string_length.
  rewrite (Z.mod_small acc) by lia.
  rewrite to_int_small by lia.
  rewrite IH by lia. cbn [length]. lia.
Qed.

Lemma strings_count_le (l : list string) :
  8 * Z.of_nat (length l)
  ≤ Z.of_nat (length (concat (string_to_gguf <$> l))).
Proof.
  induction l as [|s l IH]; [cbn; lia|].
  cbn [fmap list_fmap concat length] in *.
  rewrite length_app, length_string_to_gguf. lia.
Qed.

Lemma strings_mem_size_fits (l : list string) :
  strings_bytes l < 2 ^ 31 → strings_mem_size l = strings_bytes l.
Proof.
  unfold strings_bytes, strings_mem_size, accumulate_sizes,
    gguf_array_header_size, sizeof_gguf_string.
  intros Hfit. pose proof (strings_count_le l) as Hcount.
  rewrite accumulate_sizes_sum by lia.
  unfold Int.to_size_t. rewrite Z.mod_small by lia.
  rewrite to_int_small by lia. lia.
Qed.

Lemma length_strings_written (l : list string) :
  Z.of_nat
    (length (Mem.le_encode 4 (value_type_code GGUF_VALUE_TYPE_STRING)
             ++ Mem.le_encode 8 (Z.of_nat (length l))
             ++ concat (string_to_gguf <$> l)))
  = strings_bytes l.
Proof.
  unfold strings_bytes, gguf_array_header_size.
  rewrite !length_app, !length_le_encode. lia.
Qed.

Lemma save_strings_run (key : string) (l : list string) (c : gguf_ctx) :
  save_metadata_entry key (MetaStrings l) c
  = if strings_mem_size l <? 0 then (Throw (mk_exn length_error []), c)
    else if strings_mem_size l <? strings_bytes l then (Undefined, c)
    else
      append_kv key GGUF_VALUE_TYPE_ARRAY
        (val_vec (Int.to_size_t (strings_mem_size l))
           (Mem.le_encode 4 (value_type_code GGUF_VALUE_TYPE_STRING)
            ++ Mem.le_encode 8 (Z.of_nat (length l))
            ++ concat (string_to_gguf <$> l)))
        (Int.to_size_t (strings_mem_size l)) c.
Proof.
  unfold save_metadata_entry. cbv zeta.
  rewrite length_strings_written.
  change (Int.to_int
            (Int.to_size_t (accumulate_sizes l)
             + Z.of_nat (length l) * sizeof_gguf_string
             + gguf_array_header_size))
    with (strings_mem_size l).
  destruct (strings_mem_size l <? 0); [done|].
  by destruct (strings_mem_size l <? strings_bytes l).
Qed.

Lemma writer_contiguous (a : array) :
  let a' := if negb (row_contiguous a) then reshape_flatten a else a in
  row_contiguous a' = true ∧ dtype a' = dtype a ∧ shape a' = shape a
  ∧ data a' = data a ∧ a' = reshape_flatten a.
Proof. by destruct a as [? ? ? []]. Qed.

Lemma encodable_array_sizes (a : array) :
  encodable (MetaArray a) →
  0 ≤ array_ndim a ≤ 1 ∧ 0 < array_size a < 2 ^ 31
  ∧ 0 < array_nbytes a < 2 ^ 34
  ∧ (array_ndim a =? 1) = bool_decide (shape a ≠ []).
Proof.
  intros ([Hsh|(n & Hsh & Hn)] & _ & _ & _);
    unfold array_ndim, array_size, array_nbytes, array_size, array_itemsize;
    pose proof (size_of_dtype_bounds (dtype a)); rewrite Hsh; cbn;
    repeat split; try lia; try nia.
Qed.

(** What [save_gguf] appends for one encodable entry. *)
Lemma save_metadata_entry_run (key : string) (v : MetaData) (c : gguf_ctx) :
  encodable v →
  ∃ tag bs,
    encoded_value v = Some (tag, bs)
    ∧ save_metadata_entry key v c =
        (Ok tt,
         set_contents (add_kv (kv_record key (value_type_code tag) bs)
                         (contents c)) c).
Proof.
  destruct v as [|a|s|l]; [done| | |]; intros Henc.
  - (* tensor *)
    pose proof (encodable_array_sizes a Henc)
      as (Hnd & Hsz & Hnb & Hnd1).
    destruct Henc as (Hshape & [tag Htag] & Hdata & _).
    destruct (writer_contiguous a) as (Hc & Hd & Hs & Hda & Ha').
    cbv zeta in *.
    unfold save_metadata_entry.
    replace (1 <? array_ndim a) with false by (symmetry; apply Z.ltb_ge; lia).
    replace (array_size a =? 0) with false by (symmetry; apply Z.eqb_neq; lia).
    rewrite Hc, Hd. cbn [negb].
    cbn [encoded_value]. rewrite Htag. cbn [mbind option_bind].
    assert (append_kv_array key
              (if negb (row_contiguous a) then reshape_flatten a else a) tag c
            = (Ok tt,
               set_contents
                 (add_kv
                    (kv_record key
                       (value_type_code
                          (if array_ndim a =? 1 then GGUF_VALUE_TYPE_ARRAY
                           else tag))
                       (if array_ndim a =? 1
                        then Mem.le_encode 4 (value_type_code tag)
                             ++ Mem.le_encode 8 (array_size a) ++ data a
                        else data a))
                    (contents c)) c)) as Hrun.
    { unfold append_kv_array. rewrite Ha'.
      change (array_ndim (reshape_flatten a)) with (array_ndim a).
      change (array_nbytes (reshape_flatten a)) with (array_nbytes a).
      change (array_size (reshape_flatten a)) with (array_size a).
      change (data (reshape_flatten a)) with (data a).
      unfold gguf_array_header_size.
      destruct (array_ndim a =? 1).
      - rewrite to_uint64_small by lia. unfold val_vec.
        rewrite (read_exact _ (data a)) by done.
        rewrite read_exact
          by (rewrite !length_app, !length_le_encode, Hdata; lia).
        apply gguf_append_kv_record.
        rewrite !length_app, !length_le_encode, Hdata. lia.
      - by apply gguf_append_kv_record. }
    destruct (array_ndim a =? 1); eexists _, _; (split; [reflexivity|]);
      destruct (dtype a); try discriminate; injection Htag as <-; exact Hrun.
  - (* string *)
    cbn in Henc. eexists _, _. split; [reflexivity|].
    unfold save_metadata_entry, sizeof_gguf_string.
    assert (0 ≤ string_length s) by (unfold string_length; lia).
    rewrite to_uint64_small by lia. unfold val_vec.
    rewrite read_exact
      by (rewrite length_string_to_gguf; unfold string_length; lia).
    apply gguf_append_kv_record.
    rewrite length_string_to_gguf. unfold string_length. lia.
  - (* strings *)
    cbn [encodable] in Henc. fold (strings_bytes l) in Henc.
    eexists _, _. split; [reflexivity|].
    rewrite save_strings_run, strings_mem_size_fits by done.
    pose proof (length_strings_written l) as Hlen.
    assert (0 ≤ strings_bytes l) as Hpos by (rewrite <- Hlen; lia).
    replace (strings_bytes l <? 0) with false
      by (symmetry; apply Z.ltb_ge; lia).
    rewrite Z.ltb_irrefl.
    unfold Int.to_size_t. rewrite Z.mod_small by lia.
    unfold val_vec. rewrite read_exact by lia.
    apply gguf_append_kv_record. lia.
Qed.

(** ** Metadata: reading back what the writer appended *)

Lemma le_decode_encode (n : nat) (v : Z) (rest : list Z) :
  0 ≤ v < 256 ^ Z.of_nat n →
  Mem.le_decode n (Mem.le_encode n v ++ rest) = v.
Proof.
  revert v. induction n as [|n IH]; intros v Hv.
  { change (256 ^ Z.of_nat 0) with 1 in Hv.
    change (Mem.le_decode 0 (Mem.le_encode 0 v ++ rest)) with 0. lia. }
  change (Mem.le_decode (S n) (Mem.le_encode (S n) v ++ rest))
    with (v mod 256
          + 256 * Mem.le_decode n (Mem.le_encode n (v / 256) ++ rest)).
  rewrite Nat2Z.inj_succ, Z.pow_succ_r in Hv by lia.
  rewrite IH.
  - pose proof (Z.div_mod v 256). lia.
  - split; [apply Z.div_pos; lia|apply Z.div_lt_upper_bound; lia].
Qed.

Lemma advance_app (k : Z) (a b : list Z) :
  k = Z.of_nat (length a) → Mem.advance k (a ++ b) = b.
Proof.
  intros ->. unfold Mem.advance. rewrite Nat2Z.id. apply drop_app_length.
Qed.

Lemma set_off_same (c : gguf_ctx) : set_off (off c) c = c.
Proof. by destruct c. Qed.

Lemma add_off_small (n : Z) (c : gguf_ctx) :
  0 ≤ off c + n < 2 ^ 64 → add_off n c = (Ok tt, set_off (off c + n) c).
Proof. intros H. unfold add_off. by rewrite to_uint64_small. Qed.

Lemma read_strs_encoded (l : list string) (rest : list Z) (c : gguf_ctx) :
  0 ≤ off c →
  off c + Z.of_nat (length (concat (string_to_gguf <$> l))) < 2 ^ 64 →
  Z.of_nat (length (concat (string_to_gguf <$> l))) < 2 ^ 31 →
  read_strs (length l) (concat (string_to_gguf <$> l) ++ rest) c
  = (Ok l,
     set_off (off c + Z.of_nat (length (concat (string_to_gguf <$> l)))) c).
Proof.
  revert c. induction l as [|s l IH]; intros c Hoff Hfit Hint.
  { cbn [length fmap list_fmap concat app].
    change (Z.of_nat 0) with 0. rewrite Z.add_0_r, set_off_same.
    reflexivity. }
  cbn [length fmap list_fmap concat] in *.
  rewrite length_app, length_string_to_gguf in Hfit, Hint |- *.
  set (p := (string_to_gguf s ++ concat (string_to_gguf <$> l)) ++ rest).
  rewrite read_strs_S.
  assert (Mem.le_decode 8 p = string_length s) as ->.
  { subst p. unfold string_to_gguf. rewrite <- !app_assoc.
    apply le_decode_encode. unfold string_length.
    change (256 ^ Z.of_nat 8) with (2 ^ 64). lia. }
  unfold sizeof_gguf_string, string_length.
  rewrite (to_uint64_small (Z.of_nat (String.length s) + 8)) by lia.
  rewrite run_bind, run_std_string_int.
  rewrite to_int_small by lia.
  replace (Z.of_nat (String.length s) <? 0) with false
    by (symmetry; apply Z.ltb_ge; lia).
  unfold Int.to_size_t. rewrite Z.mod_small by lia.
  assert (Mem.advance (Z.of_nat (String.length s) + 8) p
          = concat (string_to_gguf <$> l) ++ rest) as ->.
  { subst p. rewrite <- app_assoc. apply advance_app.
    rewrite length_string_to_gguf. lia. }
  assert (Mem.std_string (Mem.advance 8 p) (Z.of_nat (String.length s)) = s)
    as ->.
  { subst p. unfold string_to_gguf. rewrite <- !app_assoc.
    rewrite advance_app by (by rewrite length_le_encode).
    unfold Mem.std_string. rewrite Nat2Z.id.
    rewrite read_app by apply length_bytes_of_string.
    apply string_of_bytes_of_string. }
  rewrite run_bind, add_off_small by lia.
  rewrite run_bind, IH by (cbn [off set_off]; lia).
  rewrite run_ret. f_equal. unfold set_off. cbn. f_equal. lia.
Qed.

Lemma metadata_tag_code (d : Dtype) (tag : gguf_value_type) :
  metadata_tag d = Some tag →
  0 ≤ value_type_code tag < 2 ^ 32
  ∧ (∀ p sz (c : gguf_ctx),
       0 ≤ off c → off c + sz * size_of_dtype d < 2 ^ 64 → 0 ≤ sz →
       (match value_type_of_code (value_type_code tag) with
        | Some GGUF_VALUE_TYPE_UINT8 => mret (MetaArray (array_from_ptr p sz uint8))
        | Some GGUF_VALUE_TYPE_INT8 => mret (MetaArray (array_from_ptr p sz int8))
        | Some GGUF_VALUE_TYPE_UINT16 => mret (MetaArray (array_from_ptr p sz uint16))
        | Some GGUF_VALUE_TYPE_INT16 => mret (MetaArray (array_from_ptr p sz int16))
        | Some GGUF_VALUE_TYPE_UINT32 => mret (MetaArray (array_from_ptr p sz uint32))
        | Some GGUF_VALUE_TYPE_INT32 => mret (MetaArray (array_from_ptr p sz int32))
        | Some GGUF_VALUE_TYPE_UINT64 => mret (MetaArray (array_from_ptr p sz uint64))
        | Some GGUF_VALUE_TYPE_INT64 => mret (MetaArray (array_from_ptr p sz int64))
        | Some GGUF_VALUE_TYPE_FLOAT32 => mret (MetaArray (array_from_ptr p sz float32))
        | Some GGUF_VALUE_TYPE_BOOL => mret (MetaArray (array_from_ptr p sz bool_))
        | Some GGUF_VALUE_TYPE_STRING =>
            if sz <? 0 then throw length_error []
            else
              strs ← read_strs (Z.to_nat sz) p;
              mret (MetaStrings strs)
        | Some GGUF_VALUE_TYPE_FLOAT64 => mret (MetaArray (array_from_doubles p sz))
        | _ =>
            throw runtime_error
              [Text "[load_gguf] Multiple levels of nested arrays are not supported."]
        end) c = (Ok (MetaArray (array_from_ptr p sz d)), c))
  ∧ value_type_code tag ≠ value_type_code GGUF_VALUE_TYPE_ARRAY
  ∧ value_type_code tag ≠ value_type_code GGUF_VALUE_TYPE_STRING.
Proof.
  destruct d; try discriminate; intros [= <-]; cbn [value_type_code];
    (split; [lia|split; [intros; reflexivity|split; discriminate]]).
Qed.

(** The decoder gives back an encodable value from its bytes, whatever
    follows them, and leaves the cursor behind them. *)
Lemma set_mx_value_encoded (v : MetaData) (tag : gguf_value_type)
    (bs rest : list Z) (c : gguf_ctx) :
  encodable v → encoded_value v = Some (tag, bs) →
  0 ≤ off c → off c + Z.of_nat (length bs) < 2 ^ 64 →
  set_mx_value_from_gguf (value_type_code tag) (bs ++ rest) c
  = (Ok (decoded v), set_off (off c + Z.of_nat (length bs)) c).
Proof.
  destruct v as [|a|s|l]; [done| | |]; intros Henc Hev Hoff Hfit.
  - (* tensor *)
    pose proof (encodable_array_sizes a Henc) as (Hnd & Hsz & Hnb & Hnd1).
    destruct Henc as (Hshape & [tag' Htag] & Hdata & Hbool).
    cbn [encoded_value] in Hev. rewrite Htag in Hev.
    cbn [mbind option_bind] in Hev.
    destruct (metadata_tag_code _ _ Htag) as (Hcode & Hdec & Hnarr & Hnstr).
    destruct Hshape as [Hsh|(n & Hsh & Hn)].
    + (* no dimension *)
      unfold array_ndim in Hev. rewrite Hsh in Hev. cbn in Hev.
      injection Hev as <- <-.
      unfold array_nbytes, array_size, array_itemsize in Hdata, Hnb.
      rewrite Hsh in Hdata, Hnb. cbn [foldr] in Hdata, Hnb.
      rewrite Z.mul_1_l in Hdata, Hnb.
      assert (decoded (MetaArray a) = MetaArray (scalar (dtype a) (data a)))
        as ->.
      { cbn. unfold reshape_flatten, scalar. by rewrite Hsh. }
      unfold set_mx_value_from_gguf.
      destruct (dtype a) eqn:Hd; try discriminate; injection Htag as <-;
        cbn [value_type_code value_type_of_code];
        rewrite run_bind, run_ret;
        try (rewrite read_app by (by rewrite Hdata));
        try (destruct (Hbool eq_refl Hsh) as [Hb|Hb]; rewrite Hb;
             change (Mem.le_decode 1 ([_] ++ rest) =? 0) with true
             || change (Mem.le_decode 1 ([_] ++ rest) =? 0) with false);
        cbn [Z.eqb Pos.eqb]; cbv beta iota;
        rewrite run_bind;
        unfold scalar at 1, array_nbytes, array_size, array_itemsize;
        cbn [shape dtype foldr size_of_dtype]; rewrite Z.mul_1_l;
        (rewrite add_off_small by (cbn [size_of_dtype] in *; lia));
        rewrite run_ret; do 2 f_equal;
        try (by rewrite Hdata); by rewrite ?Hb.
    + (* one dimension *)
      unfold array_ndim in Hev. rewrite Hsh in Hev.
      change (Z.of_nat (length [n]) =? 1) with true in Hev. cbv iota in Hev.
      apply (inj Some), pair_equal_spec in Hev as [<- <-].
      unfold array_nbytes, array_size, array_itemsize in Hdata, Hnb |- *.
      unfold array_size in Hfit |- *.
      rewrite Hsh in Hdata, Hnb, Hfit |- *. cbn [foldr] in Hdata, Hnb, Hfit |- *.
      rewrite Z.mul_1_r in Hdata, Hnb, Hfit |- *.
      rewrite !length_app, !length_le_encode in Hfit |- *.
      assert (decoded (MetaArray a)
              = MetaArray (array_from_ptr (data a ++ rest) n (dtype a)))
        as ->.
      { cbn. unfold reshape_flatten, array_from_ptr.
        rewrite read_app by done. by rewrite Hsh. }
      unfold set_mx_value_from_gguf.
      cbn [value_type_code value_type_of_code].
      rewrite run_bind. unfold gguf_array_header_size.
      rewrite run_bind, add_off_small by lia.
      rewrite <- !app_assoc.
      rewrite le_decode_encode
        by (change (256 ^ Z.of_nat 4) with (2 ^ 32); lia).
      rewrite (advance_app 4) by (by rewrite length_le_encode).
      rewrite le_decode_encode
        by (change (256 ^ Z.of_nat 8) with (2 ^ 64); lia).
      rewrite to_int_small by lia.
      rewrite (app_assoc (Mem.le_encode 4 _)).
      rewrite (advance_app 12)
        by (by rewrite length_app, !length_le_encode).
      destruct (Z.eqb_spec (value_type_code tag') 9) as [?|_]; [done|].
      rewrite Hdec by (cbn [off set_off]; lia).
      cbn [Z.eqb Pos.eqb]. cbv beta iota.
      rewrite run_bind.
      unfold array_from_ptr at 1, array_nbytes, array_size, array_itemsize.
      cbn [shape dtype foldr]. rewrite Z.mul_1_r.
      rewrite add_off_small by (cbn [off set_off]; lia).
      rewrite run_ret. f_equal. unfold set_off. cbn. f_equal. lia.
  - (* string *)
    cbn in Henc. cbn [encoded_value] in Hev.
    apply (inj Some), pair_equal_spec in Hev as [<- <-].
    rewrite length_string_to_gguf in Hfit |- *.
    unfold set_mx_value_from_gguf.
    cbn [value_type_code value_type_of_code].
    rewrite run_bind, run_bind, run_std_string_int.
    unfold string_to_gguf. rewrite <- !app_assoc.
    rewrite le_decode_encode
      by (unfold string_length; change (256 ^ Z.of_nat 8) with (2 ^ 64);
          lia).
    unfold sizeof_gguf_string.
    rewrite advance_app by (by rewrite length_le_encode).
    unfold string_length in *. rewrite to_int_small by lia.
    replace (Z.of_nat (String.length s) <? 0) with false
      by (symmetry; apply Z.ltb_ge; lia).
    rewrite run_ret.
    unfold Int.to_size_t. rewrite Z.mod_small by lia.
    unfold Mem.std_string. rewrite Nat2Z.id.
    rewrite read_app by apply length_bytes_of_string.
    rewrite string_of_bytes_of_string.
    cbn [Z.eqb Pos.eqb]. cbv beta iota.
    rewrite run_bind.
    rewrite (to_uint64_small (8 + Z.of_nat (String.length s))) by lia.
    rewrite add_off_small by lia.
    rewrite run_ret. cbn [decoded]. do 2 f_equal. lia.
  - (* strings *)
    cbn [encodable] in Henc. unfold gguf_array_header_size in Henc.
    cbn [encoded_value] in Hev.
    apply (inj Some), pair_equal_spec in Hev as [<- <-].
    rewrite !length_app, !length_le_encode in Hfit |- *.
    set (n := Z.of_nat (length (concat (string_to_gguf <$> l)))) in *.
    assert (8 * Z.of_nat (length l) ≤ n) as Hcount.
    { subst n. clear. induction l as [|s l IH]; [cbn; lia|].
      cbn [fmap list_fmap concat length] in *.
      rewrite length_app, length_string_to_gguf. lia. }
    unfold set_mx_value_from_gguf.
    cbn [value_type_code value_type_of_code].
    rewrite run_bind. unfold gguf_array_header_size.
    rewrite run_bind, add_off_small by lia.
    rewrite <- !app_assoc.
    rewrite le_decode_encode
      by (change (256 ^ Z.of_nat 4) with (2 ^ 32);
          cbn [value_type_code]; lia).
    rewrite (advance_app 4) by (by rewrite length_le_encode).
    rewrite le_decode_encode
      by (change (256 ^ Z.of_nat 8) with (2 ^ 64); lia).
    rewrite to_int_small by lia.
    rewrite (app_assoc (Mem.le_encode 4 _)).
    rewrite (advance_app 12)
      by (by rewrite length_app, !length_le_encode).
    cbn [Z.eqb Pos.eqb value_type_of_code]. cbv beta iota.
    replace (Z.of_nat (length l) <? 0) with false
      by (symmetry; apply Z.ltb_ge; lia).
    rewrite Nat2Z.id. rewrite run_bind.
    rewrite read_strs_encoded by (cbn [off set_off]; fold n; lia).
    rewrite run_ret, run_bind, run_ret, run_ret. cbn [decoded]. f_equal.
    unfold set_off. cbn. f_equal. fold n. lia.
Qed.

Lemma gguf_get_key_record (pre post : list Z) (key : string) (ty : Z)
    (val : list Z) (c : gguf_ctx) :
  kv_section (contents c) = pre ++ kv_record key ty val ++ post →
  off c = Z.of_nat (length pre) → left_kv c ≠ 0 →
  0 ≤ ty < 2 ^ 32 →
  Z.of_nat (length pre) + string_length key + 12 < 2 ^ 64 →
  gguf_get_key c =
    (Some {| key_name := Mem.bytes_of_string key;
             key_namelen := string_length key;
             key_type := ty;
             key_val := val ++ post |},
     {| fd_open := fd_open c; fd_path := fd_path c; contents := contents c;
        alignment := alignment c;
        off := Z.of_nat (length pre) + string_length key + 12;
        left_kv := left_kv c - 1; left_tensors := left_tensors c |}).
Proof.
  intros Hsec Hoff Hkv Hty Hfit. unfold gguf_get_key.
  rewrite (proj2 (Z.eqb_neq _ _) Hkv). cbv zeta.
  rewrite Hsec, Hoff. rewrite (advance_app _ pre) by done.
  unfold kv_record, string_length in *. rewrite <- !app_assoc.
  rewrite le_decode_encode
    by (change (256 ^ Z.of_nat 8) with (2 ^ 64); lia).
  rewrite (advance_app 8) by (by rewrite length_le_encode).
  rewrite Nat2Z.id, read_app by apply length_bytes_of_string.
  rewrite (app_assoc (Mem.le_encode 8 _)).
  rewrite (advance_app (8 + _))
    by (rewrite length_app, length_le_encode, length_bytes_of_string; lia).
  rewrite le_decode_encode
    by (change (256 ^ Z.of_nat 4) with (2 ^ 32); lia).
  rewrite to_uint64_small by lia.
  rewrite !app_assoc, <- (app_assoc _ val post).
  rewrite advance_app
    by (rewrite !length_app, !length_le_encode, length_bytes_of_string; lia).
  f_equal. f_equal. lia.
Qed.

Lemma encoded_metadata_cons (key : string) (v : MetaData)
    (tag : gguf_value_type) (bs : list Z) (recs : list (string * MetaData)) :
  encoded_value v = Some (tag, bs) →
  encoded_metadata ((key, v) :: recs)
  = kv_record key (value_type_code tag) bs ++ encoded_metadata recs.
Proof.
  intros Hev. unfold encoded_metadata. cbn [fmap list_fmap concat fst snd].
  by rewrite Hev.
Qed.

Lemma value_type_code_range (tag : gguf_value_type) :
  0 ≤ value_type_code tag < 2 ^ 32.
Proof. destruct tag; cbn [value_type_code]; lia. Qed.

Lemma length_kv_record (key : string) (ty : Z) (val : list Z) :
  Z.of_nat (length (kv_record key ty val))
  = string_length key + 12 + Z.of_nat (length val).
Proof.
  unfold kv_record, string_length.
  rewrite !length_app, !length_le_encode, length_bytes_of_string. lia.
Qed.

(** The key loop over a metadata section the writer produced. *)
Lemma load_metadata_loop_encoded (recs : list (string * MetaData))
    (pre : list Z) (fuel : nat) (acc : gmap string MetaData) (c : gguf_ctx) :
  Forall (λ kv, encodable kv.2) recs →
  kv_section (contents c) = pre ++ encoded_metadata recs →
  off c = Z.of_nat (length pre) → left_kv c = Z.of_nat (length recs) →
  Z.of_nat (length (pre ++ encoded_metadata recs)) < 2 ^ 64 →
  (length recs < fuel)%nat →
  load_metadata_loop fuel acc c
  = (Ok (loaded_metadata (prod_map id decoded <$> recs) acc),
     keys_read (Z.of_nat (length (pre ++ encoded_metadata recs))) c).
Proof.
  revert pre fuel acc c.
  induction recs as [|[key v] recs IH];
    intros pre fuel acc c Hall Hsec Hoff Hkv Hfit Hfuel;
    (destruct fuel as [|fuel]; [cbn in Hfuel; lia|]).
  { cbn [load_metadata_loop]. rewrite run_bind.
    unfold call, gguf_get_key. rewrite Hkv.
    change (Z.of_nat (length []) =? 0) with true. cbv beta iota zeta.
    rewrite run_ret. unfold encoded_metadata.
    cbn [fmap list_fmap concat loaded_metadata foldl].
    rewrite app_nil_r. f_equal. unfold keys_read.
    destruct c; cbn in *; by subst. }
  apply Forall_cons in Hall as [Hv Hall]. cbn [snd] in Hv.
  destruct (save_metadata_entry_run key v c Hv) as (tag & bs & Hev & _).
  rewrite (encoded_metadata_cons _ _ _ _ _ Hev) in Hsec, Hfit |- *.
  pose proof (value_type_code_range tag) as Hcode.
  pose proof (length_kv_record key (value_type_code tag) bs) as Hrec.
  rewrite !length_app in Hfit.
  cbn [load_metadata_loop]. rewrite run_bind. unfold call.
  rewrite (gguf_get_key_record pre (encoded_metadata recs) key
             (value_type_code tag) bs c);
    [|exact Hsec|done
     |rewrite Hkv; cbn [length]; lia|done|unfold string_length in *; lia].
  cbn [key_name key_namelen key_type key_val].
  rewrite std_string_whole.
  rewrite run_bind.
  rewrite (set_mx_value_encoded v tag bs); [|done|done|..];
    [|cbn [off]; unfold string_length; lia
     |cbn [off]; unfold string_length in *; lia].
  rewrite (IH (pre ++ kv_record key (value_type_code tag) bs));
    [|done
     |by rewrite <- app_assoc
     |cbn [off set_off]; rewrite length_app; lia
     |cbn [left_kv set_off]; rewrite Hkv; cbn [length]; lia
     |rewrite <- app_assoc, !length_app; lia
     |cbn [length] in Hfuel; lia].
  rewrite <- app_assoc. reflexivity.
Qed.

Lemma save_metadata_run (recs : list (string * MetaData)) (c : gguf_ctx) :
  Forall (λ kv, encodable kv.2) recs →
  save_metadata recs c
  = (Ok tt,
     set_contents
       {| kv_count := kv_count (contents c) + Z.of_nat (length recs);
          kv_section := kv_section (contents c) ++ encoded_metadata recs;
          tensor_section := tensor_section (contents c);
          data_section := data_section (contents c) |} c).
Proof.
  revert c. induction recs as [|[key v] recs IH]; intros c Hall.
  { cbn [save_metadata]. rewrite run_ret. f_equal.
    unfold encoded_metadata. cbn [fmap list_fmap concat length].
    rewrite app_nil_r, Z.add_0_r. by destruct c as [? ? []]. }
  apply Forall_cons in Hall as [Hv Hall]. cbn [snd] in Hv.
  destruct (save_metadata_entry_run key v c Hv) as (tag & bs & Hev & Hrun).
  cbn [save_metadata]. rewrite run_bind, Hrun, IH by done.
  rewrite (encoded_metadata_cons _ _ _ _ _ Hev).
  f_equal. unfold set_contents, add_kv.
  cbn [contents kv_count kv_section tensor_section data_section fd_open
         fd_path alignment off left_kv left_tensors length].
  f_equal. f_equal; [lia|by rewrite app_assoc].
Qed.

Lemma loaded_metadata_list_to_map (l : list (string * MetaData))
    (acc : gmap string MetaData) :
  NoDup l.*1 → (∀ k, k ∈ l.*1 → acc !! k = None) →
  loaded_metadata l acc = list_to_map l ∪ acc.
Proof.
  revert acc. induction l as [|[key v] l IH]; intros acc Hnd Hfresh.
  { cbn. by rewrite (left_id ∅ (∪)). }
  apply NoDup_cons in Hnd as [Hnotin Hnd].
  unfold loaded_metadata. cbn [foldl fst snd].
  fold (loaded_metadata l (<[key := v]> acc)). rewrite IH; [|done|].
  - cbn [list_to_map foldr]. rewrite <- insert_union_l.
    rewrite insert_union_r; [done|].
    by apply not_elem_of_list_to_map_1.
  - intros k Hk. rewrite lookup_insert_ne; [apply Hfresh; cbn; by right|].
    intros ->. done.
Qed.

Lemma keys_decoded (l : list (string * MetaData)) :
  (prod_map id decoded <$> l).*1 = l.*1.
Proof. induction l as [|[key v] l IH]; cbn; [done|]. by f_equal. Qed.

(** The tensor loop over the descriptors and the data the writer produced
    for the entries [l]. *)
Lemma load_arrays_written (l : list (string * array)) (c : gguf_ctx) :
  Forall (λ ka : string * array, writable ka.2 ∧ well_formed ka.2) l →
  data_extent GGUF_DEFAULT_ALIGNMENT 0 l < 2 ^ 64 →
  left_kv c = 0 →
  data_section (contents c) = data_layout GGUF_DEFAULT_ALIGNMENT [] l →
  left_tensors c = descriptors GGUF_DEFAULT_ALIGNMENT 0 l →
  load_arrays c
  = (Ok (loaded_map (prod_map id reshape_flatten <$> l) ∅),
     set_left_tensors [] c).
Proof.
  intros Hall Hext Hkv Hdata Htis.
  assert (Forall (λ ka : string * array, writable ka.2) l) as Hw.
  { eapply Forall_impl; [exact Hall|]. by intros ka [? _]. }
  unfold load_arrays.
  apply (load_arrays_loop_run (data_layout GGUF_DEFAULT_ALIGNMENT [] l)
           (prod_map id reshape_flatten <$> l)
           (descriptors GGUF_DEFAULT_ALIGNMENT 0 l)); try done.
  - apply Forall2_same_length_lookup_2.
    { rewrite length_fmap. by rewrite descriptors_length. }
    intros i ka ti Hka Hti acc.
    rewrite list_lookup_fmap in Hka.
    destruct (l !! i) as [[key arr]|] eqn:Hi; [|done].
    injection Hka as <-. cbn [prod_map fst snd id].
    pose proof (Forall_lookup_1 _ _ _ _ Hall Hi) as [Hwr Hwf].
    cbn in Hwr, Hwf.
    destruct (descriptors_lookup _ _ _ _ _ _ _ Hi Hti)
      as (Hname & Hdim & Htype).
    apply load_tensor_written; try done.
    + pose proof (data_extent_covers GGUF_DEFAULT_ALIGNMENT 0 l i key arr
                    ltac:(done) ltac:(done) Hw Hi). lia.
    + by apply (data_layout_lookup GGUF_DEFAULT_ALIGNMENT l [] i key).
  - rewrite Htis, descriptors_length. lia.
Qed.

(** X9: A tensor map of supported dtypes and a metadata map of encodable
    values, saved with [save_gguf] and loaded back with [load_gguf] from
    the file that was written, come back: the tensors and the metadata
    tensors as row-contiguous copies, strings and lists of strings
    unchanged.  The file holds one record per metadata entry, each the
    key's length and characters, the value's tag and the value's bytes. *)
Theorem metadata_roundtrip (file : string) (m : gmap string array)
    (md : gmap string MetaData) (fs : gmap string gguf_file) :
  (∀ k arr, m !! k = Some arr →
     dtype arr ∈ [int8; int16; int32; float16; float32]
     ∧ well_formed arr) →
  data_extent GGUF_DEFAULT_ALIGNMENT 0 (map_to_list m) < 2 ^ 64 →
  (∀ k v, md !! k = Some v → encodable v) →
  Z.of_nat (length (encoded_metadata (map_to_list md))) < 2 ^ 64 →
  ∃ c c',
    save_gguf file m md = (Ok tt, Some c)
    ∧ kv_count (contents c) = Z.of_nat (size md)
    ∧ kv_section (contents c) = encoded_metadata (map_to_list md)
    ∧ load_gguf (<[fd_path c := contents c]> fs) (fd_path c)
      = (Ok (reshape_flatten <$> m, decoded <$> md), Some c').
Proof.
  intros Hm Hext Hmd Hkv.
  set (l := map_to_list m) in *. set (recs := map_to_list md) in *.
  assert (Forall (λ ka : string * array, writable ka.2 ∧ well_formed ka.2) l)
    as Hall.
  { apply Forall_forall. intros [k arr] Hin%elem_of_map_to_list.
    destruct (Hm k arr Hin) as (Hd & Hwf). cbn.
    split; [|done]. apply supported_writable; [done|]. by destruct Hwf. }
  assert (Forall (λ ka : string * array, writable ka.2) l) as Hw.
  { eapply Forall_impl; [exact Hall|]. by intros ka [? _]. }
  assert (Forall (λ kv : string * MetaData, encodable kv.2) recs) as Henc.
  { apply Forall_forall. intros [k v] Hin%elem_of_map_to_list.
    by apply (Hmd k). }
  (* the writer *)
  unfold save_gguf. cbn [gguf_create]. fold l. fold recs.
  rewrite run_bind, save_metadata_run by done.
  rewrite run_bind, append_tensor_infos_run; [|done|done|done|done].
  rewrite run_bind, append_tensor_datas_run.
  cbn [close alignment set_contents contents add_tensors add_data
         data_section tensor_section kv_count kv_section app].
  rewrite data_layout_flatten.
  eexists _, _.
  split; [reflexivity|].
  cbn [gguf_close fd_path contents kv_count kv_section].
  split; [subst recs; by rewrite length_map_to_list|].
  split; [done|].
  (* the reader *)
  unfold load_gguf, gguf_open. rewrite lookup_insert_eq.
  cbn [mbind option_bind].
  rewrite run_bind. unfold load_metadata.
  cbn [contents set_contents add_data add_tensors kv_count kv_section
         tensor_section data_section fd_path fd_open alignment off left_kv
         left_tensors app].
  rewrite Z.add_0_l, Nat2Z.id.
  rewrite (load_metadata_loop_encoded recs []); try done; [|lia].
  rewrite run_bind.
  rewrite (load_arrays_written l); try done.
  rewrite run_bind. cbn [close]. rewrite run_ret. do 3 f_equal.
  - rewrite loaded_map_list_to_map.
    + rewrite (right_id ∅ (∪)), list_to_map_fmap.
      subst l. by rewrite list_to_map_to_list.
    + rewrite keys_flatten. apply NoDup_fst_map_to_list.
    + intros k _. apply lookup_empty.
  - rewrite loaded_metadata_list_to_map.
    + rewrite (right_id ∅ (∪)), list_to_map_fmap.
      subst recs. by rewrite list_to_map_to_list.
    + rewrite keys_decoded. apply NoDup_fst_map_to_list.
    + intros k _. apply lookup_empty.
Qed.

(** ** Keys that occur more than once *)

Lemma first_named_app {V : Type} (k : string) (l1 l2 : list (string * V)) :
  first_named k (l1 ++ l2)
  = match first_named k l1 with
    | Some v => Some v
    | None => first_named k l2
    end.
Proof.
  induction l1 as [|[k' v] l1 IH]; cbn [app first_named]; [done|].
  by destruct (decide (k' = k)).
Qed.

Lemma loaded_metadata_lookup (l : list (string * MetaData))
    (acc : gmap string MetaData) (k : string) :
  loaded_metadata l acc !! k
  = match last_named k l with
    | Some v => Some v
    | None => acc !! k
    end.
Proof.
  revert acc. unfold last_named.
  induction l as [|[k' v] l IH]; intros acc; [done|].
  unfold loaded_metadata. cbn [foldl fst snd].
  fold (loaded_metadata l (<[k' := v]> acc)). rewrite IH.
  rewrite reverse_cons, first_named_app.
  destruct (first_named k (reverse l)); [done|].
  cbn [first_named]. destruct (decide (k' = k)) as [->|Hne].
  - by rewrite lookup_insert_eq.
  - by rewrite lookup_insert_ne.
Qed.

Lemma last_named_fmap {V W : Type} (f : V → W) (k : string)
    (l : list (string * V)) :
  last_named k (prod_map id f <$> l) = f <$> last_named k l.
Proof.
  unfold last_named. rewrite <- fmap_reverse.
  induction (reverse l) as [|[k' v] r IH]; [done|].
  cbn [fmap list_fmap prod_map first_named fst snd id].
  by destruct (decide (k' = k)).
Qed.

(** X10: [load_metadata] on a metadata section that holds the records of the
    entries [recs], in that order, returns the map that holds under each
    key the value of the last record of that key; the cursor ends behind
    the section and no key is left. *)
Theorem load_metadata_last_wins (recs : list (string * MetaData))
    (c : gguf_ctx) :
  Forall (λ kv, encodable kv.2) recs →
  kv_section (contents c) = encoded_metadata recs →
  off c = 0 → left_kv c = Z.of_nat (length recs) →
  Z.of_nat (length (encoded_metadata recs)) < 2 ^ 64 →
  ∃ md,
    load_metadata c
    = (Ok md, keys_read (Z.of_nat (length (encoded_metadata recs))) c)
    ∧ ∀ k, md !! k = decoded <$> last_named k recs.
Proof.
  intros Hall Hsec Hoff Hkv Hfit.
  eexists. split.
  - unfold load_metadata. rewrite Hkv, Nat2Z.id.
    apply (load_metadata_loop_encoded recs []); try done. lia.
  - intros k. rewrite loaded_metadata_lookup, last_named_fmap, lookup_empty.
    by destruct (last_named k recs).
Qed.

(** ** When [save_gguf] succeeds *)

Lemma save_metadata_entry_Ok (key : string) (v : MetaData) (c : gguf_ctx) :
  (save_metadata_entry key v c).1 = Ok tt ↔ storable v.
Proof.
  destruct v as [|a|s|l]; [done| |done|].
  2: { cbn [storable]. rewrite save_strings_run.
       pose proof (length_strings_written l) as Hlen.
       destruct (Z.ltb_spec (strings_mem_size l) 0) as [Hneg|Hpos].
       { split; [done|]. intros Hfit%strings_mem_size_fits. lia. }
       destruct (Z.ltb_spec (strings_mem_size l) (strings_bytes l))
         as [Hshort|Hfull].
       { split; [done|]. intros Hfit%strings_mem_size_fits. lia. }
       split; [|done]. intros _.
       assert (strings_mem_size l < 2 ^ 31).
       { unfold strings_mem_size, Int.to_int.
         pose proof (Z.mod_pos_bound
                       (Int.to_size_t (accumulate_sizes l)
                        + Z.of_nat (length l) * sizeof_gguf_string
                        + gguf_array_header_size + 2 ^ 31) (2 ^ 32)
                       ltac:(lia)). lia. }
       lia. }
  cbn [storable]. unfold save_metadata_entry.
  destruct (writer_contiguous a) as (Hc & Hd & _). cbv zeta in Hc, Hd.
  destruct (Z.ltb_spec 1 (array_ndim a)) as [Hn|Hn]; [split; [done|lia]|].
  destruct (Z.eqb_spec (array_size a) 0) as [Hs|Hs];
    [split; [done|by intros (_ & ? & _)]|].
  rewrite Hc, Hd. cbn [negb]. unfold append_kv_array.
  rewrite !not_elem_of_cons.
  destruct (dtype a);
    try (split; [done|by intros (_ & _ & ? & ? & ? & _)]);
    (split; [intros _; repeat split; try done; apply not_elem_of_nil|]);
    intros _; by destruct (array_ndim _ =? 1).
Qed.

Lemma save_metadata_entry_sections (key : string) (v : MetaData)
    (c : gguf_ctx) :
  tensor_section (contents (save_metadata_entry key v c).2)
  = tensor_section (contents c)
  ∧ data_section (contents (save_metadata_entry key v c).2)
    = data_section (contents c).
Proof.
  destruct v as [|a|s|l]; [done| |done|].
  2: { rewrite save_strings_run. destruct (_ <? 0); [done|].
       by destruct (_ <? _). }
  unfold save_metadata_entry.
  destruct (1 <? array_ndim a); [done|].
  destruct (array_size a =? 0); [done|].
  destruct (negb (row_contiguous (if negb (row_contiguous a)
                                  then reshape_flatten a else a)));
    [done|].
  unfold append_kv_array.
  destruct (dtype _); try done; by destruct (array_ndim _ =? 1).
Qed.

Lemma save_metadata_Ok (recs : list (string * MetaData)) (c : gguf_ctx) :
  ((save_metadata recs c).1 = Ok tt ↔ Forall (λ kv, storable kv.2) recs)
  ∧ tensor_section (contents (save_metadata recs c).2)
    = tensor_section (contents c)
  ∧ data_section (contents (save_metadata recs c).2)
    = data_section (contents c).
Proof.
  revert c. induction recs as [|[key v] recs IH]; intros c; [done|].
  cbn [save_metadata]. rewrite run_bind.
  pose proof (save_metadata_entry_Ok key v c) as Hv.
  pose proof (save_metadata_entry_sections key v c) as [Hts Hds].
  destruct (save_metadata_entry key v c) as [[[]|e| |] c'];
    [|clear IH|clear IH|clear IH]; cbn [fst snd] in *.
  - destruct (IH c') as (Hok & Hts' & Hds').
    rewrite Hts', Hds', Hts, Hds. split; [|done].
    rewrite Hok, Forall_cons. cbn [snd]. tauto.
  - split; [|done]. rewrite Forall_cons. cbn [snd].
    split; [done|]. intros [Hs _]. by apply Hv in Hs.
  - split; [|done]. rewrite Forall_cons. cbn [snd].
    split; [done|]. intros [Hs _]. by apply Hv in Hs.
  - split; [|done]. rewrite Forall_cons. cbn [snd].
    split; [done|]. intros [Hs _]. by apply Hv in Hs.
Qed.

(** What [save_gguf] does once the metadata loop is through: the first
    tensor without type code decides. *)
Lemma save_gguf_accepted (file : string) (array_map : gmap string array)
    (metadata : gmap string MetaData) :
  (∀ k v, metadata !! k = Some v → storable v) →
  (save_gguf file array_map metadata).1 =
    match first_unsupported (map_to_list array_map) with
    | None => Ok tt
    | Some d => Throw (unsupported_dtype d)
    end.
Proof.
  intros Hmd.
  assert (Forall (λ kv : string * MetaData, storable kv.2)
            (map_to_list metadata)) as Hall.
  { apply Forall_forall. intros [k v] Hin%elem_of_map_to_list.
    by apply (Hmd k). }
  unfold save_gguf. cbn [gguf_create]. rewrite run_bind.
  match goal with
  | |- context [save_metadata ?l ?c0] =>
      destruct (save_metadata_Ok l c0) as (Hok & _);
      apply Hok in Hall;
      destruct (save_metadata l c0) as [r c1]
  end.
  cbn [fst] in Hall. subst r. rewrite run_bind.
  match goal with
  | |- context [append_tensor_infos ?l ?s ?c] =>
      pose proof (append_tensor_infos_outcome l s c) as H;
      destruct (append_tensor_infos l s c) as [r c']
  end.
  cbn in H. rewrite H.
  destruct (first_unsupported _); [done|].
  rewrite run_bind.
  match goal with
  | |- context [append_tensor_datas ?l ?c] =>
      pose proof (append_tensor_datas_outcome l c) as H';
      destruct (append_tensor_datas l c) as [r' c'']
  end.
  cbn in H'. by rewrite H'.
Qed.

(** X11: When [save_gguf] returns, the writer has accepted every metadata
    value and every tensor's dtype has a type code.  While some metadata
    value is not accepted the call throws, or is undefined (a list of
    strings whose buffer size wrapped), and it has appended no tensor
    descriptor and no tensor data: the metadata are checked first.  With
    the metadata accepted and some tensor whose dtype has no type code, the
    call throws. *)
Theorem save_gguf_success_conditions (file : string)
    (array_map : gmap string array) (metadata : gmap string MetaData) :
  ((save_gguf file array_map metadata).1 = Ok tt →
   (∀ k v, metadata !! k = Some v → storable v)
   ∧ (∀ k a, array_map !! k = Some a →
        is_Some (dtype_to_gguf_tensor_type (dtype a))))
  ∧ ((∃ k v, metadata !! k = Some v ∧ ¬ storable v) →
     ((∃ e, (save_gguf file array_map metadata).1 = Throw e)
      ∨ (save_gguf file array_map metadata).1 = Undefined)
     ∧ ∀ c, (save_gguf file array_map metadata).2 = Some c →
            tensor_section (contents c) = []
            ∧ data_section (contents c) = [])
  ∧ ((∀ k v, metadata !! k = Some v → storable v) →
     (∃ k a, array_map !! k = Some a
             ∧ dtype_to_gguf_tensor_type (dtype a) = None) →
     ∃ e, (save_gguf file array_map metadata).1 = Throw e).
Proof.
  assert ((∀ k v, metadata !! k = Some v → storable v)
          ↔ Forall (λ kv : string * MetaData, storable kv.2)
              (map_to_list metadata)) as Hmd.
  { rewrite Forall_forall. split.
    - intros H [k v] Hin%elem_of_map_to_list. by apply (H k).
    - intros H k v Hin. by apply (H (k, v)), elem_of_map_to_list. }
  assert ((∀ k a, array_map !! k = Some a →
             is_Some (dtype_to_gguf_tensor_type (dtype a)))
          ↔ first_unsupported (map_to_list array_map) = None) as Hm.
  { rewrite first_unsupported_None. split.
    - intros H k a Hin%elem_of_map_to_list. by apply (H k).
    - intros H k a Hin. by apply (H k), elem_of_map_to_list. }
  assert ((save_gguf file array_map metadata).1 = Ok tt →
          (∀ k v, metadata !! k = Some v → storable v)) as Hfirst.
  { rewrite Hmd. unfold save_gguf. cbn [gguf_create]. rewrite run_bind.
    match goal with
    | |- context [save_metadata ?l ?c0] =>
        destruct (save_metadata_Ok l c0) as (Hok & _);
        destruct (save_metadata l c0) as [[[]|e0| |] c1]
    end; cbn [fst] in *; try done.
    intros _. by apply Hok. }
  split; [|split].
  - intros Hret. pose proof (Hfirst Hret) as Hall. split; [done|].
    apply Hm. rewrite (save_gguf_accepted _ _ _ Hall) in Hret.
    by destruct (first_unsupported _).
  - intros (k & v & Hin & Hno). split.
    { pose proof (save_gguf_total file array_map metadata) as Htot.
      destruct (save_gguf file array_map metadata).1 as [[]|e| |] eqn:Hret;
        [|by left; eexists|done|by right].
      by destruct Hno; apply (Hfirst eq_refl k). }
    assert (¬ Forall (λ kv : string * MetaData, storable kv.2)
                (map_to_list metadata)) as Hnot.
    { intros H. by apply Hno, (proj2 Hmd H k). }
    unfold save_gguf. cbn [gguf_create]. rewrite run_bind.
    match goal with
    | |- context [save_metadata ?l ?c0] =>
        destruct (save_metadata_Ok l c0) as (Hok & Hts & Hds);
        destruct (save_metadata l c0) as [[[]|e0| |] c1]
    end; cbn [fst snd contents tensor_section data_section] in *.
    + by destruct Hnot; apply Hok.
    + by intros c [= <-].
    + by intros c [= <-].
    + by intros c [= <-].
  - intros Hall (k & a & Hin & Hnone).
    rewrite (save_gguf_accepted _ _ _ Hall).
    destruct (first_unsupported _) as [d|] eqn:Hd; [by eexists|].
    destruct (proj2 Hm eq_refl k a Hin) as [ty Hty]. congruence.
Qed.

(** ** Tensors without type code *)

(** C3, as the sources have it: [dtype_to_gguf_tensor_type] returns no code
    exactly for the dtypes outside {float32, float16, int8, int16, int32},
    so for none of bool, uint8, uint32, uint64, int64, bfloat16, complex64
    and for each of int8, int32, float16, float32.  With metadata the
    writer accepts, as in the tests, and the container library reporting no
    failure, [save_gguf] throws when some tensor has a dtype without code,
    and what it throws is a runtime error whose message shows the dtype of
    such a tensor and no tensor name; it returns when every tensor's dtype
    has a code. *)
Theorem C3_unsupported_dtype_rejected (file : string)
    (array_map : gmap string array) (metadata : gmap string MetaData) :
  (∀ k v, metadata !! k = Some v → storable v) →
  (∀ d, dtype_to_gguf_tensor_type d = None
        ↔ d ∉ [float32; float16; int8; int16; int32])
  ∧ (∀ d, d ∈ [bool_; uint8; uint32; uint64; int64; bfloat16; complex64] →
          dtype_to_gguf_tensor_type d = None)
  ∧ (∀ d, d ∈ [int8; int32; float16; float32] →
          is_Some (dtype_to_gguf_tensor_type d))
  ∧ ((∃ k a, array_map !! k = Some a
             ∧ dtype_to_gguf_tensor_type (dtype a) = None) →
     ∃ k a, array_map !! k = Some a
            ∧ dtype_to_gguf_tensor_type (dtype a) = None
            ∧ (save_gguf file array_map metadata).1
              = Throw (mk_exn runtime_error
                         [Text "[save_gguf] dtype "; ShowDtype (dtype a);
                          Text " is not supported"]))
  ∧ ((∀ k a, array_map !! k = Some a →
             is_Some (dtype_to_gguf_tensor_type (dtype a))) →
     (save_gguf file array_map metadata).1 = Ok tt).
Proof.
  intros Hmd.
  split; [apply dtype_to_gguf_tensor_type_None|].
  split.
  { intros d Hd. rewrite !elem_of_cons, elem_of_nil in Hd.
    by destruct Hd as [->|[->|[->|[->|[->|[->|[->|[]]]]]]]]. }
  split.
  { intros d Hd. rewrite !elem_of_cons, elem_of_nil in Hd.
    destruct Hd as [->|[->|[->|[->|[]]]]]; by eexists. }
  rewrite (save_gguf_accepted _ _ _ Hmd).
  split.
  - intros (k & a & Hin & Hnone).
    destruct (first_unsupported _) as [d|] eqn:Hd.
    + apply first_unsupported_Some in Hd as (k' & a' & Hin' & <- & Hnone').
      exists k', a'. by apply elem_of_map_to_list in Hin'.
    + pose proof (proj1 (first_unsupported_None _) Hd k a) as Hs.
      destruct Hs as [? ?]; [by apply elem_of_map_to_list|congruence].
  - intros Hall.
    destruct (first_unsupported _) as [d|] eqn:Hd; [|done].
    apply first_unsupported_Some in Hd as (k & a & Hin & <- & Hnone).
    apply elem_of_map_to_list in Hin.
    destruct (Hall k a Hin) as [? ?]. congruence.
Qed.

(** ** Errors of the metadata codec *)

Lemma read_strs_outcome (n : nat) (p : list Z) (c : gguf_ctx) :
  (string_lengths_fit n p = true →
   ∃ strs c', read_strs n p c = (Ok strs, c'))
  ∧ (string_lengths_fit n p = false →
     ∃ c', read_strs n p c = (Throw (mk_exn length_error []), c')).
Proof.
  revert p c. induction n as [|n IH]; intros p c.
  { split; [by eexists _, _|done]. }
  rewrite read_strs_S, run_bind, run_std_string_int.
  cbn [string_lengths_fit].
  destruct (Z.ltb_spec (Int.to_int (Mem.le_decode 8 p)) 0) as [Hneg|Hpos].
  { replace (0 <=? Int.to_int (Mem.le_decode 8 p)) with false
      by (symmetry; apply Z.leb_gt; lia).
    cbn [andb]. split; [done|by eexists]. }
  replace (0 <=? Int.to_int (Mem.le_decode 8 p)) with true
    by (symmetry; apply Z.leb_le; lia).
  cbn [andb]. rewrite run_bind. unfold add_off. rewrite run_bind.
  match goal with
  | |- context [read_strs n ?q ?c0] => destruct (IH q c0) as [Hok Hthrow]
  end.
  split; intros Hfit.
  - destruct (Hok Hfit) as (strs & c' & ->). rewrite run_ret.
    by eexists _, _.
  - destruct (Hthrow Hfit) as (c' & ->). by eexists.
Qed.

(** X3: [set_mx_value_from_gguf] throws in six cases: a tag that is no
    value tag (runtime error, cursor untouched); a string whose length is
    negative as an [int] (the string cannot be built, cursor untouched); an
    array of arrays (invalid argument); an array whose element tag is no
    value tag (runtime error); an array of strings whose count is negative
    as an [int] (the vector of strings cannot be built); an array of strings
    one of which has a length negative as an [int].  In the array cases the
    cursor has already skipped the 12-byte array header.  On a value whose
    array count is not negative unless its elements are strings, it throws
    in no other case. *)
Theorem metadata_decode_errors (ty : Z) (val : list Z) (c : gguf_ctx) :
  let skipped := set_off (Int.to_uint64 (off c + gguf_array_header_size)) c in
  let element := Mem.le_decode 4 val in
  let count := Int.to_int (Mem.le_decode 8 (Mem.advance 4 val)) in
  let strings := Mem.advance gguf_array_header_size val in
  let array_tag := value_type_code GGUF_VALUE_TYPE_ARRAY in
  let string_tag := value_type_code GGUF_VALUE_TYPE_STRING in
  (value_type_of_code ty = None →
   set_mx_value_from_gguf ty val c =
     (Throw (mk_exn runtime_error
               [Text "[load_gguf] Received unexpected type."]), c))
  ∧ (ty = string_tag → Int.to_int (Mem.le_decode 8 val) < 0 →
     set_mx_value_from_gguf ty val c = (Throw (mk_exn length_error []), c))
  ∧ (ty = array_tag → element = array_tag →
     set_mx_value_from_gguf ty val c =
       (Throw (mk_exn invalid_argument
                 [Text "[load_gguf] Only supports loading 1-layer of nested arrays."]),
        skipped))
  ∧ (ty = array_tag → value_type_of_code element = None →
     set_mx_value_from_gguf ty val c =
       (Throw (mk_exn runtime_error
                 [Text "[load_gguf] Multiple levels of nested arrays are not supported."]),
        skipped))
  ∧ (ty = array_tag → element = string_tag → count < 0 →
     set_mx_value_from_gguf ty val c =
       (Throw (mk_exn length_error []), skipped))
  ∧ (ty = array_tag → element = string_tag → 0 ≤ count →
     string_lengths_fit (Z.to_nat count) strings = false →
     (set_mx_value_from_gguf ty val c).1 = Throw (mk_exn length_error []))
  ∧ ((ty = array_tag → element ≠ string_tag → 0 ≤ count) →
     (∃ e, (set_mx_value_from_gguf ty val c).1 = Throw e) →
     value_type_of_code ty = None
     ∨ ty = string_tag ∧ Int.to_int (Mem.le_decode 8 val) < 0
     ∨ ty = array_tag
       ∧ (element = array_tag ∨ value_type_of_code element = None
          ∨ element = string_tag
            ∧ (count < 0
               ∨ string_lengths_fit (Z.to_nat count) strings = false))).
Proof.
  cbv zeta. split; [|split; [|split; [|split; [|split; [|split]]]]].
  - intros Hty. unfold set_mx_value_from_gguf. by rewrite Hty.
  - intros -> Hneg. unfold set_mx_value_from_gguf.
    cbn [value_type_of_code value_type_code].
    rewrite run_bind, run_bind, run_std_string_int.
    by replace (_ <? 0) with true by (symmetry; by apply Z.ltb_lt).
  - intros -> Helt. unfold set_mx_value_from_gguf.
    cbn [value_type_of_code value_type_code]. rewrite run_bind.
    unfold add_off at 1. rewrite run_bind. cbv beta iota zeta.
    by rewrite Helt.
  - intros -> Helt. unfold set_mx_value_from_gguf.
    cbn [value_type_of_code value_type_code]. rewrite run_bind.
    unfold add_off at 1. rewrite run_bind. cbv beta iota zeta.
    rewrite Helt.
    destruct (Mem.le_decode 4 val =? 9) eqn:H9; [|done].
    apply Z.eqb_eq in H9. by rewrite H9 in Helt.
  - intros -> Helt Hneg. unfold set_mx_value_from_gguf.
    cbn [value_type_of_code value_type_code]. rewrite run_bind.
    unfold add_off at 1. rewrite run_bind. cbv beta iota zeta.
    rewrite Helt. cbn [Z.eqb Pos.eqb value_type_of_code value_type_code].
    by replace (_ <? 0) with true by (symmetry; by apply Z.ltb_lt).
  - intros -> Helt Hpos Hbad. unfold set_mx_value_from_gguf.
    cbn [value_type_of_code value_type_code]. rewrite run_bind.
    unfold add_off at 1. rewrite run_bind. cbv beta iota zeta.
    rewrite Helt. cbn [Z.eqb Pos.eqb value_type_of_code value_type_code].
    replace (_ <? 0) with false by (symmetry; by apply Z.ltb_ge).
    rewrite run_bind.
    match goal with
    | |- context [read_strs ?n ?q ?c0] =>
        destruct (proj2 (read_strs_outcome n q c0) Hbad) as (c' & ->)
    end.
    done.
  - intros Hcount [e He].
    destruct (value_type_of_code ty) as [t|] eqn:Ht; [|by left].
    right. pose proof (value_type_of_code_Some _ _ Ht) as ->.
    revert He. unfold set_mx_value_from_gguf. rewrite Ht.
    destruct t; try done.
    + (* string *)
      rewrite run_bind, run_bind, run_std_string_int.
      destruct (Z.ltb_spec (Int.to_int (Mem.le_decode 8 val)) 0)
        as [Hneg|Hpos]; [by left|done].
    + (* array *)
      intros He. right. split; [done|].
      destruct (Z.eqb_spec (Mem.le_decode 4 val) 9) as [H9|H9]; [by left|].
      right.
      destruct (value_type_of_code (Mem.le_decode 4 val)) as [et|] eqn:Het;
        [|by left].
      right. pose proof (value_type_of_code_Some _ _ Het) as Hcode.
      revert He. rewrite run_bind. unfold add_off at 1. rewrite run_bind.
      cbv beta iota zeta. cbn [value_type_code].
      replace (Mem.le_decode 4 val =? 9) with false
        by (symmetry; by apply Z.eqb_neq).
      destruct et; try done; try (by destruct H9).
      intros He. split; [done|].
      destruct (Z.ltb_spec
                  (Int.to_int (Mem.le_decode 8 (Mem.advance 4 val))) 0)
        as [Hneg|Hpos]; [by left|].
      right.
      destruct (string_lengths_fit _ _) eqn:Hfit; [|done].
      revert He. rewrite run_bind.
      match goal with
      | |- context [read_strs ?n ?q ?c0] =>
          destruct (proj1 (read_strs_outcome n q c0) Hfit)
            as (strs & c' & ->)
      end.
      done.
Qed.

(** X4: [save_gguf] refuses a metadata entry in five cases: a value that
    holds nothing, a tensor of more than one dimension, an empty tensor, a
    tensor of dtype float16, bfloat16 or complex64, and a list of strings
    for which the [int] that sizes its buffer is negative (the buffer
    cannot be built); the refusal leaves the file as it was.  A string, a
    list of strings whose encoding fits an [int] and every other tensor
    are appended as one key/value record. *)
Theorem metadata_encode_errors (key : string) (value : MetaData)
    (c : gguf_ctx) :
  match value with
  | monostate =>
      save_metadata_entry key value c =
        (Throw (mk_exn runtime_error
                  [Text "[save_gguf] Received unexpected type in metadata"]),
         c)
  | MetaArray v =>
      (1 < array_ndim v →
       save_metadata_entry key value c =
         (Throw (mk_exn runtime_error
                   [Text "[save_gguf] Cannot save arrays with more than one dimension."]),
          c))
      ∧ (array_ndim v ≤ 1 → array_size v = 0 →
         save_metadata_entry key value c =
           (Throw (mk_exn runtime_error
                     [Text "[save_gguf] Cannot save empty arrays."]), c))
      ∧ (array_ndim v ≤ 1 → array_size v ≠ 0 →
         dtype v ∈ [float16; bfloat16; complex64] →
         save_metadata_entry key value c =
           (Throw (mk_exn invalid_argument
                     [Text "[save_gguf] array type "; ShowDtype (dtype v);
                      Text " not support for metadata."]), c))
      ∧ (array_ndim v ≤ 1 → array_size v ≠ 0 →
         dtype v ∉ [float16; bfloat16; complex64] →
         ∃ c', save_metadata_entry key value c = (Ok tt, c')
               ∧ kv_count (contents c') = kv_count (contents c) + 1)
  | MetaString _ =>
      ∃ c', save_metadata_entry key value c = (Ok tt, c')
            ∧ kv_count (contents c') = kv_count (contents c) + 1
  | MetaStrings l =>
      (strings_mem_size l < 0 →
       save_metadata_entry key value c =
         (Throw (mk_exn length_error []), c))
      ∧ (strings_bytes l < 2 ^ 31 →
         ∃ c', save_metadata_entry key value c = (Ok tt, c')
               ∧ kv_count (contents c') = kv_count (contents c) + 1)
  end.
Proof.
  destruct value as [|v|str|l]; [done| |by eexists|].
  2: { rewrite save_strings_run. split.
       - intros Hneg.
         by replace (_ <? 0) with true by (symmetry; by apply Z.ltb_lt).
       - intros Hfit. rewrite strings_mem_size_fits by done.
         pose proof (length_strings_written l) as Hlen.
         replace (strings_bytes l <? 0) with false
           by (symmetry; apply Z.ltb_ge; lia).
         rewrite Z.ltb_irrefl. by eexists. }
  assert (row_contiguous
            (if negb (row_contiguous v) then reshape_flatten v else v) = true)
    as Hc by (by destruct v as [? ? ? []]).
  assert (dtype (if negb (row_contiguous v) then reshape_flatten v else v)
          = dtype v) as Hd by (by destruct v as [? ? ? []]).
  unfold save_metadata_entry.
  split; [|split; [|split]].
  - intros Hn. by replace (1 <? array_ndim v) with true
      by (symmetry; by apply Z.ltb_lt).
  - intros Hn Hs.
    replace (1 <? array_ndim v) with false by (symmetry; apply Z.ltb_ge; lia).
    by rewrite Hs.
  - intros Hn Hs Hdt.
    replace (1 <? array_ndim v) with false by (symmetry; apply Z.ltb_ge; lia).
    replace (array_size v =? 0) with false by (symmetry; by apply Z.eqb_neq).
    rewrite Hc, Hd. cbn [negb].
    rewrite !elem_of_cons, elem_of_nil in Hdt.
    by destruct Hdt as [->|[->|[->|[]]]].
  - intros Hn Hs Hdt.
    replace (1 <? array_ndim v) with false by (symmetry; apply Z.ltb_ge; lia).
    replace (array_size v =? 0) with false by (symmetry; by apply Z.eqb_neq).
    rewrite Hc, Hd. cbn [negb].
    rewrite !not_elem_of_cons in Hdt. unfold append_kv_array.
    destruct (dtype v); try (by destruct Hdt as (? & ? & ? & _));
      by destruct (array_ndim _ =? 1); eexists.
Qed.

(** ** The block extractors, end to end *)










(** X5: On a tensor named [<prefix>.weight] whose last host dimension is a
    multiple of 32, both block extractors add three entries: under the
    tensor's name a uint32 tensor over the weights buffer the block loop
    filled, with the last dimension divided by 4 (8-bit) or 8 (4-bit);
    under [<prefix>.scales] a float16 tensor over the loop's scales buffer
    and under [<prefix>.biases] one over its biases buffer, both with the
    last dimension divided by 32.  An entry the map already has under one of
    the three names is kept and the extracted tensor of that name is
    dropped silently; nothing else in the map changes. *)
Theorem extractor_entries_added (a : gmap string array) (t : gguf_tensor)
    (prefix : string) :
  name t = (prefix +:+ ".weight")%string →
  get_shape t ≠ [] →
  shape_back (get_shape t) mod 32 = 0 →
  let last := Int.to_uint64 (shape_back (get_shape t)) in
  let names : gset string :=
    {[ name t; (prefix +:+ ".scales")%string; (prefix +:+ ".biases")%string ]} in
  let side_shape := set_shape_back (Int.to_int (last / 32)) (get_shape t) in
  let blocks := Z.to_nat (num_weights t / 32) in
  let side_buffer := allocator_malloc (Int.to_uint64 (num_weights t / 32 * 2)) in
  let added := λ (m : gmap string array) (packed_last : Z)
                 (filled : list Z * list Z * list Z),
    dom m = dom a ∪ names
    ∧ (∀ k old, a !! k = Some old → m !! k = Some old)
    ∧ (a !! name t = None →
       m !! name t
       = Some (array_of_buffer filled.1.1
                 (set_shape_back (Int.to_int packed_last) (get_shape t))
                 uint32))
    ∧ (a !! (prefix +:+ ".scales")%string = None →
       m !! (prefix +:+ ".scales")%string
       = Some (array_of_buffer filled.1.2 side_shape float16))
    ∧ (a !! (prefix +:+ ".biases")%string = None →
       m !! (prefix +:+ ".biases")%string
       = Some (array_of_buffer filled.2 side_shape float16)) in
  (∃ m, extract_q8_0_data a t = Ok m
        ∧ added m (last / 1 / 4)
            (for_range blocks (q8_0_block (weights_data t))
               (allocator_malloc (num_weights t / 1), side_buffer,
                side_buffer)))
  ∧ (∃ m, extract_q4_1_data a t = Ok m
          ∧ added m (last / 2 / 4)
              (for_range blocks (q4_1_block (weights_data t))
                 (allocator_malloc (num_weights t / 2), side_buffer,
                  side_buffer))).
Proof.
  intros Hname Hne Hshape. cbv zeta. split.
  - unfold extract_q8_0_data. rewrite decide_False by done.
    rewrite to_uint64_mod_32, Hshape. cbn [Z.eqb negb].
    destruct (for_range _ _ _) as [[W S] B]. eexists. split; [done|].
    rewrite Hname.
    destruct (insert_quantized_entries a prefix (get_shape t) 1 32 W S B)
      as (Hdom & Hkept & Hw & Hs & Hb).
    done.
  - unfold extract_q4_1_data. rewrite decide_False by done.
    rewrite to_uint64_mod_32, Hshape. cbn [Z.eqb negb].
    destruct (for_range _ _ _) as [[W S] B]. eexists. split; [done|].
    rewrite Hname.
    destruct (insert_quantized_entries a prefix (get_shape t) 2 32 W S B)
      as (Hdom & Hkept & Hw & Hs & Hb).
    done.
Qed.

(** ** Shape order, written and read back *)

(** C7: the descriptor loop of the writer stores for every tensor a
    descriptor whose dimensions are the host shape reversed; the reader's
    [get_shape] reverses the dimensions of the descriptor it is handed by
    [gguf_get_tensor]; and reading the descriptor that was written gives
    the host shape back. *)
Theorem C7_shape_order_symmetry (l : list (string * array)) (start : Z)
    (c : gguf_ctx) (i : nat) (key : string) (arr : array) :
  0 < alignment c → 0 ≤ start →
  Forall (λ ka, writable ka.2) l →
  data_extent (alignment c) start l < 2 ^ 64 →
  l !! i = Some (key, arr) →
  ∃ l' c' ti,
    append_tensor_infos l start c = (Ok l', c')
    ∧ tensor_section (contents c')
      !! (length (tensor_section (contents c)) + i)%nat = Some ti
    ∧ ti_name ti = key
    ∧ ti_dim ti = reverse (shape arr)
    ∧ ∀ (cr : gguf_ctx) (rest : list tensor_info),
        left_kv cr = 0 → left_tensors cr = ti :: rest →
        ∃ t cr',
          gguf_get_tensor cr = (Some t, cr')
          ∧ dim t = ti_dim ti
          ∧ get_shape t = Int.to_int <$> reverse (dim t)
          ∧ get_shape t = shape arr.
Proof.
  intros Ha Hstart Hl Hext Hi.
  rewrite append_tensor_infos_run by done.
  destruct (lookup_lt_is_Some_2 (descriptors (alignment c) start l) i)
    as [ti Hti].
  { rewrite descriptors_length. by apply lookup_lt_Some in Hi. }
  destruct (descriptors_lookup _ _ _ _ _ _ _ Hi Hti) as (Hname & Hdim & _).
  pose proof (Forall_lookup_1 _ _ _ _ Hl Hi) as [_ Hint]. cbn [snd] in Hint.
  eexists _, _, ti. split; [reflexivity|].
  cbn [contents set_contents add_tensors tensor_section].
  split; [by rewrite lookup_app_r, Nat.add_sub_swap, Nat.sub_diag by lia|].
  split; [done|]. split; [done|].
  intros cr rest Hkv Hleft. unfold gguf_get_tensor.
  rewrite Hkv, Hleft. cbn [Z.eqb negb].
  eexists _, _. split; [reflexivity|].
  cbn [dim tensor_of_info]. split; [done|]. split.
  - unfold get_shape. cbn [ndim dim tensor_of_info]. rewrite Nat2Z.id.
    rewrite get_shape_from_reverse by done.
    by rewrite take_ge by done.
  - apply get_shape_reversed; [done|done|].
    cbn [ndim tensor_of_info]. by rewrite Hdim, length_reverse.
Qed.

End Codec.

(** * Worked instances *)

Lemma C7_shape_order_witness :
  tensors_3_2 !! 0%nat
  = Some ("w"%string,
          {| dtype := int32; shape := [3; 2]; data := replicate 24 1;
             row_contiguous := true |})
  ∧ ∃ l' c' ti t cr',
      append_tensor_infos tensors_3_2 0 ctx_alignment_8 = (Ok l', c')
      ∧ tensor_section (contents c') !! 0%nat = Some ti
      ∧ ti_dim ti = [2; 3]
      ∧ gguf_get_tensor (set_left_tensors [ti] ctx_alignment_8)
        = (Some t, cr')
      ∧ get_shape t = [3; 2].
Proof.
  split; [reflexivity|].
  assert (0 < alignment ctx_alignment_8) as Ha by reflexivity.
  assert (0 ≤ 0) as H0 by lia.
  assert (Forall (λ ka : string * array, writable ka.2) tensors_3_2) as Hl.
  { repeat constructor; cbn; try (by eexists); lia. }
  assert (data_extent (alignment ctx_alignment_8) 0 tensors_3_2 < 2 ^ 64)
    as He by reflexivity.
  destruct (C7_shape_order_symmetry tensors_3_2 0 ctx_alignment_8 0 _ _
              Ha H0 Hl He eq_refl)
    as (l' & c' & ti & Hrun & Hti & _ & Hdim & Hread).
  destruct (Hread (set_left_tensors [ti] ctx_alignment_8) [] eq_refl eq_refl)
    as (t & cr' & Hget & _ & _ & Hshape).
  exists l', c', ti, t, cr'.
  split; [exact Hrun|]. split; [exact Hti|]. split; [exact Hdim|].
  split; [exact Hget|exact Hshape].
Defined.

Lemma C9_bare_suffix_witness :
  name bare_weight_tensor = weight_suffix
  ∧ dispatch bare_weight_tensor = ToTensorData.
Proof.
  split; [reflexivity|].
  exact (proj1 (proj2 (C9_bare_suffix_not_quantized cleared_memory
                         failing_to_f16 half_times skip_q4_0 ∅
                         bare_weight_tensor eq_refl))).
Defined.


Lemma C6_tensor_offsets_witness :
  0 < alignment ctx_alignment_8
  ∧ ∃ l' c',
      append_tensor_infos tensors_7_5 0 ctx_alignment_8 = (Ok l', c')
      ∧ ti_offset <$> tensor_section (contents c') = [0; 8].
Proof.
  assert (0 < alignment ctx_alignment_8) as Ha by reflexivity.
  split; [exact Ha|].
  assert (Forall (λ ka : string * array, writable ka.2) tensors_7_5) as Hl.
  { repeat constructor; cbn; try (by eexists); lia. }
  assert (data_extent (alignment ctx_alignment_8) 0 tensors_7_5 < 2 ^ 64)
    as He by reflexivity.
  destruct (C6_tensor_offsets ctx_alignment_8 tensors_7_5 Ha Hl He)
    as [(l' & c' & written & Hrun & _) Hex].
  exists l', c'. split; [exact Hrun|].
  rewrite Hrun in Hex. exact Hex.
Defined.






(** With an allocator that returns dirty memory (every byte 0xAA) the same
    block does not come out as its nibble pairs: the first packed byte is
    0xAA + 0x11. *)
Lemma q4_1_dirty_memory :
  ∃ m arr,
    extract_q4_1_data dirty_memory ∅ q4_1_tensor = Ok m
    ∧ m !! "l.weight"%string = Some arr
    ∧ Mem.index (data arr) 0 = 187.
Proof.
  eexists _, _. split; [vm_compute; reflexivity|].
  split; [vm_compute; reflexivity|reflexivity].
Qed.

Lemma original_weights_supported (k : string) (arr : array) :
  original_weights !! k = Some arr →
  dtype arr ∈ [int8; int16; int32; float16; float32]
  ∧ (length (shape arr) ≤ 5)%nat
  ∧ well_formed arr.
Proof.
  unfold original_weights. intros H.
  apply lookup_insert_Some in H as [[_ <-]|[_ H]].
  { split; [set_solver|]. split; [cbn; lia|].
    split; [repeat constructor; lia|reflexivity]. }
  apply lookup_insert_Some in H as [[_ <-]|[_ H]].
  { split; [set_solver|]. split; [cbn; lia|].
    split; [repeat constructor; lia|reflexivity]. }
  by rewrite lookup_empty in H.
Defined.

Lemma C2_container_roundtrip_witness :
  data_extent GGUF_DEFAULT_ALIGNMENT 0 (map_to_list original_weights) < 2 ^ 64
  ∧ ∃ c c',
      save_gguf "test_arr" original_weights ∅ = (Ok tt, Some c)
      ∧ fd_path c = "test_arr.gguf"%string
      ∧ load_gguf cleared_memory failing_to_f16 narrow_double half_times
          skip_q4_0 (<[fd_path c := contents c]> ∅) (fd_path c)
        = (Ok (reshape_flatten <$> original_weights, ∅), Some c').
Proof.
  assert (data_extent GGUF_DEFAULT_ALIGNMENT 0 (map_to_list original_weights)
          < 2 ^ 64) as Hext by (vm_compute; reflexivity).
  split; [exact Hext|].
  destruct (C2_container_roundtrip cleared_memory failing_to_f16
              narrow_double half_times skip_q4_0 "test_arr" original_weights
              ∅ original_weights_supported Hext)
    as (c & c' & loaded & Hsave & Hpath & Hload & -> & _).
  exists c, c'. split; [exact Hsave|]. split; [exact Hpath|exact Hload].
Defined.

Lemma extractor_entries_added_witness :
  name q8_0_tensor = ("l" +:+ ".weight")%string
  ∧ get_shape q8_0_tensor ≠ []
  ∧ shape_back (get_shape q8_0_tensor) mod 32 = 0
  ∧ ∃ m arr,
      extract_q8_0_data cleared_memory half_times ∅ q8_0_tensor = Ok m
      ∧ m !! "l.scales"%string = Some arr
      ∧ dtype arr = float16 ∧ shape arr = [1]
      ∧ load_f16 (data arr) 0 = 15360.
Proof.
  assert (name q8_0_tensor = ("l" +:+ ".weight")%string) as Hname
    by reflexivity.
  assert (get_shape q8_0_tensor ≠ []) as Hne by discriminate.
  assert (shape_back (get_shape q8_0_tensor) mod 32 = 0) as Hsh
    by reflexivity.
  split; [exact Hname|]. split; [exact Hne|]. split; [exact Hsh|].
  pose proof (extractor_entries_added cleared_memory half_times ∅ q8_0_tensor
                "l" Hname Hne Hsh) as H.
  cbv zeta in H.
  destruct H as [(m & Hrun & _ & _ & _ & Hside & _) _].
  eexists m, _. split; [exact Hrun|].
  split; [exact (Hside (lookup_empty _))|].
  split; [reflexivity|]. split; [reflexivity|].
  vm_compute. reflexivity.
Defined.


Lemma set_mx_value_cursor_exact_witness :
  bytes my_string_value
  ∧ value_disk_size (value_type_code GGUF_VALUE_TYPE_STRING) my_string_value
    = Some 17
  ∧ ∃ v c',
      set_mx_value_from_gguf narrow_double
        (value_type_code GGUF_VALUE_TYPE_STRING) my_string_value
        (opened one_tensor_file) = (Ok v, c')
      ∧ off c' = 17.
Proof.
  assert (bytes my_string_value) as Hb.
  { apply (bool_decide_unpack _). vm_compute. exact I. }
  assert (value_disk_size (value_type_code GGUF_VALUE_TYPE_STRING)
            my_string_value = Some 17) as Hsize by reflexivity.
  split; [exact Hb|]. split; [exact Hsize|].
  assert (0 ≤ off (opened one_tensor_file)) as Hoff by (cbn; lia).
  assert (off (opened one_tensor_file) + 17 < 2 ^ 64) as Hfit by (cbn; lia).
  assert (int_counts (value_type_code GGUF_VALUE_TYPE_STRING) my_string_value)
    as Hint.
  { split; [intros _; vm_compute; reflexivity|].
    split; intros H; discriminate H. }
  assert (float64_free (value_type_code GGUF_VALUE_TYPE_STRING)
            my_string_value) as Hfree.
  { split; [intros H; discriminate H|intros H; discriminate H]. }
  exact (set_mx_value_cursor_exact narrow_double _ _ _ _ Hb Hoff Hsize Hfit
           Hint Hfree).
Defined.

Lemma original_weights_well_formed (k : string) (arr : array) :
  original_weights !! k = Some arr →
  dtype arr ∈ [int8; int16; int32; float16; float32] ∧ well_formed arr.
Proof.
  intros H. destruct (original_weights_supported k arr H) as (Hd & _ & Hwf).
  split; [exact Hd|exact Hwf].
Defined.

Lemma original_metadata_encodable (k : string) (v : MetaData) :
  original_metadata !! k = Some v → encodable v.
Proof.
  unfold original_metadata. intros H.
  apply lookup_singleton_Some in H as [_ <-]. vm_compute. reflexivity.
Defined.

Lemma metadata_roundtrip_witness :
  data_extent GGUF_DEFAULT_ALIGNMENT 0 (map_to_list original_weights) < 2 ^ 64
  ∧ Z.of_nat (length (encoded_metadata (map_to_list original_metadata)))
    < 2 ^ 64
  ∧ ∃ c c',
      save_gguf "test_arr" original_weights original_metadata
      = (Ok tt, Some c)
      ∧ load_gguf cleared_memory failing_to_f16 narrow_double half_times
          skip_q4_0 (<[fd_path c := contents c]> ∅) (fd_path c)
        = (Ok (reshape_flatten <$> original_weights,
               decoded <$> original_metadata), Some c').
Proof.
  assert (data_extent GGUF_DEFAULT_ALIGNMENT 0 (map_to_list original_weights)
          < 2 ^ 64) as Hext by (vm_compute; reflexivity).
  assert (Z.of_nat (length (encoded_metadata (map_to_list original_metadata)))
          < 2 ^ 64) as Hkv by (vm_compute; reflexivity).
  split; [exact Hext|]. split; [exact Hkv|].
  destruct (metadata_roundtrip cleared_memory failing_to_f16 narrow_double
              half_times skip_q4_0 "test_arr" original_weights
              original_metadata ∅ original_weights_well_formed Hext
              original_metadata_encodable Hkv)
    as (c & c' & Hsave & _ & _ & Hload).
  exists c, c'. split; [exact Hsave|exact Hload].
Defined.

Lemma load_metadata_last_wins_witness :
  Forall (λ kv : string * MetaData, encodable kv.2) twice_keyed
  ∧ ∃ md c',
      load_metadata narrow_double (opened twice_keyed_file) = (Ok md, c')
      ∧ md !! "k"%string = Some (MetaString "b").
Proof.
  assert (Forall (λ kv : string * MetaData, encodable kv.2) twice_keyed)
    as Hall by (repeat constructor).
  split; [exact Hall|].
  assert (Z.of_nat (length (encoded_metadata twice_keyed)) < 2 ^ 64) as Hfit
    by (vm_compute; reflexivity).
  destruct (load_metadata_last_wins narrow_double twice_keyed
              (opened twice_keyed_file) Hall eq_refl eq_refl eq_refl Hfit)
    as (md & Hrun & Hmd).
  eexists md, _. split; [exact Hrun|]. rewrite (Hmd "k"%string). reflexivity.
Defined.

Lemma original_metadata_storable (k : string) (v : MetaData) :
  original_metadata !! k = Some v → storable v.
Proof.
  unfold original_metadata. intros H.
  apply lookup_singleton_Some in H as [_ <-]. exact I.
Defined.

Lemma C3_unsupported_dtype_witness :
  (∃ k a, bool_tensor_map !! k = Some a
          ∧ dtype_to_gguf_tensor_type (dtype a) = None)
  ∧ ∃ k a,
      bool_tensor_map !! k = Some a
      ∧ dtype_to_gguf_tensor_type (dtype a) = None
      ∧ (save_gguf "test_arr.gguf" bool_tensor_map original_metadata).1
        = Throw (mk_exn runtime_error
                   [Text "[save_gguf] dtype "; ShowDtype (dtype a);
                    Text " is not supported"]).
Proof.
  assert (∃ k a, bool_tensor_map !! k = Some a
                 ∧ dtype_to_gguf_tensor_type (dtype a) = None) as Hbad.
  { eexists "test"%string, _. split; [vm_compute; reflexivity|reflexivity]. }
  split; [exact Hbad|].
  exact (proj1 (proj2 (proj2 (proj2
           (C3_unsupported_dtype_rejected "test_arr.gguf" bool_tensor_map
              original_metadata original_metadata_storable)))) Hbad).
Defined.


